(** * Graphify: pattern-to-schedule engine

    A shallow embedding of the scheduling core of Graphify:
    - [commands/date.ts] and [utils/date-utils.ts] of the CLI
      (weekend, business-hours and holiday predicates, the authenticity
      adjustment of a date, random commit times),
    - [shared/src/utils/pattern-utils.ts] ([validatePattern]),
    - [shared/src/utils/scheduler.ts] ([mapPatternToSchedule],
      [checkScheduleAuthenticity], [processBatchedCommits]).

    Conventions of the embedding.
    - A JavaScript [Date] and a luxon [DateTime] are an integer number of
      milliseconds since the epoch, read in one fixed-offset zone (no
      daylight saving); invalid dates are outside the model.
    - A JavaScript [number] that the code computes with fractions
      (cell values, [density], the values of [Math.random]) is the exact
      rational value of a double, in [Q]; the sums, products and quotients
      of the commit count and of the late-night percentage are rounded to
      the nearest double ([Double]).  Counters and indices are [Z] or
      [nat].  [NaN] only arises from an [undefined] cell and is an
      [option].
    - [Math.random()] reads the next value of a sequence [rand : nat -> Q];
      the position in the sequence is threaded through the code.
    - A thrown [Error] is the [Err] result carrying the message. *)

From Stdlib Require Import ZArith QArith Qround Bool List Lia String Ascii.
From Stdlib Require Import Sorted Permutation DecimalString DecimalNat DecimalZ.
Import ListNotations.

Local Open Scope string_scope.
Local Open Scope Z_scope.

(** ** JavaScript numbers and strings *)

Module JS.

(** [Math.floor], [Math.ceil] and [Math.round] on exact rationals. *)
Definition floor (q : Q) : Z := Qfloor q.
Definition ceil (q : Q) : Z := Qceiling q.
Definition round (q : Q) : Z := Qfloor (q + (1 # 2)).

(** [Number.isInteger]. *)
Definition isInteger (q : Q) : bool := Qeq_bool q (inject_Z (Qfloor q)).

(** The remainder operator [%]: the sign follows the dividend. *)
Definition rem (a b : Z) : Z := Z.rem a b.

(** Template-literal rendering of an integer. *)
Definition showZ (z : Z) : string := NilZero.string_of_int (Z.to_int z).
Definition showNat (n : nat) : string := NilZero.string_of_uint (Nat.to_uint n).

(** [s.padStart(width, "0")]. *)
Definition padLeft (width : nat) (s : string) : string :=
  String.concat "" (List.repeat "0" (width - String.length s)) ++ s.

(** luxon's zero-padded rendering of an integer (the tokens [yyyy], [MM],
    [dd], [HH], [mm], [ss]): the sign comes before the zeros. *)
Definition padStart (width : nat) (z : Z) : string :=
  if z <? 0 then "-" ++ padLeft width (showZ (- z))
  else padLeft width (showZ z).

Definition Qleb (a b : Q) : bool := Qle_bool a b.
Definition Qltb (a b : Q) : bool := negb (Qle_bool b a).

End JS.

(** ** Results and the sequence of random numbers *)

Inductive result (A : Type) : Type :=
| Ok (a : A)
| Err (msg : string).
Arguments Ok {A} a.
Arguments Err {A} msg.

Definition is_err {A} (r : result A) : bool :=
  match r with Ok _ => false | Err _ => true end.

(** A computation that may call [Math.random] and may throw: it reads the
    sequence from a position and returns the new position. *)
Definition Rand (A : Type) : Type := (nat -> Q) -> nat -> result (A * nat).

Definition ret {A} (a : A) : Rand A := fun _ k => Ok (a, k).
Definition throw {A} (msg : string) : Rand A := fun _ _ => Err msg.
Definition bind {A B} (m : Rand A) (f : A -> Rand B) : Rand B :=
  fun rand k =>
    match m rand k with
    | Ok (a, k') => f a rand k'
    | Err msg => Err msg
    end.
Definition random : Rand Q := fun rand k => Ok (rand k, S k).

Declare Scope rand_scope.
Delimit Scope rand_scope with rand.
Notation "x <- m ;; f" := (bind m (fun x => f))
  (at level 100, m at next level, right associativity) : rand_scope.

(** [try { m } catch (error) { throw new Error(prefix + error.message) }] *)
Definition rethrow {A} (prefix : string) (m : Rand A) : Rand A :=
  fun rand k =>
    match m rand k with
    | Ok x => Ok x
    | Err msg => Err (prefix ++ msg)
    end.

(** ** Calendar arithmetic of [Date] and [DateTime] *)

Module Calendar.

Definition msPerDay : Z := 86400000.
Definition msPerHour : Z := 3600000.
Definition msPerMinute : Z := 60000.
Definition msPerSecond : Z := 1000.

(** Day number (days since 1970-01-01) of a civil date; [m] is 1..12 and
    [d] may leave the month, as in [new Date(y, 5, 0)]. *)
Definition daysFromCivil (y m d : Z) : Z :=
  let y' := if m <=? 2 then y - 1 else y in
  let era := y' / 400 in
  let yoe := y' - era * 400 in
  let mp := if m >? 2 then m - 3 else m + 9 in
  let doy := (153 * mp + 2) / 5 + d - 1 in
  let doe := yoe * 365 + yoe / 4 - yoe / 100 + doy in
  era * 146097 + doe - 719468.

(** Civil date [(year, month 1..12, day 1..31)] of a day number. *)
Definition civilFromDays (n : Z) : Z * Z * Z :=
  let z := n + 719468 in
  let era := z / 146097 in
  let doe := z - era * 146097 in
  let yoe := (doe - doe / 1460 + doe / 36524 - doe / 146096) / 365 in
  let doy := doe - (365 * yoe + yoe / 4 - yoe / 100) in
  let mp := (5 * doy + 2) / 153 in
  let d := doy - (153 * mp + 2) / 5 + 1 in
  let m := if mp <? 10 then mp + 3 else mp - 9 in
  let y := yoe + era * 400 in
  (if m <=? 2 then y + 1 else y, m, d).

Definition dayNumber (t : Z) : Z := t / msPerDay.
Definition timeOfDay (t : Z) : Z := t mod msPerDay.

Definition year (t : Z) : Z := fst (fst (civilFromDays (dayNumber t))).
Definition month (t : Z) : Z := snd (fst (civilFromDays (dayNumber t))).
Definition day (t : Z) : Z := snd (civilFromDays (dayNumber t)).
Definition hour (t : Z) : Z := timeOfDay t / msPerHour.
Definition minute (t : Z) : Z := (timeOfDay t mod msPerHour) / msPerMinute.
Definition second (t : Z) : Z := (timeOfDay t mod msPerMinute) / msPerSecond.
Definition millisecond (t : Z) : Z := t mod msPerSecond.

(** 0 = Sunday .. 6 = Saturday; 1970-01-01 was a Thursday. *)
Definition dayOfWeek (t : Z) : Z := (dayNumber t + 4) mod 7.

(** The instant at a wall-clock time. *)
Definition mkDateTime (y m d hh mm ss ms : Z) : Z :=
  daysFromCivil y m d * msPerDay
  + hh * msPerHour + mm * msPerMinute + ss * msPerSecond + ms.

Definition plusDays (t n : Z) : Z := t + n * msPerDay.

End Calendar.

(** ** Vocabulary on strings for the statements *)

Module Text.

Fixpoint lastChar (s : string) : option ascii :=
  match s with
  | EmptyString => None
  | String c EmptyString => Some c
  | String _ rest => lastChar rest
  end.

(** The characters of a string. *)
Fixpoint chars (s : string) : list ascii :=
  match s with
  | EmptyString => []
  | String c rest => c :: chars rest
  end.

(** Neither the separator nor the closing bracket of a cell label. *)
Definition plain (c : ascii) : Prop := c <> ","%char /\ c <> "]"%char.

(** A decimal digit. *)
Definition digit (c : ascii) : Prop :=
  In c ["0"; "1"; "2"; "3"; "4"; "5"; "6"; "7"; "8"; "9"]%char.

End Text.

(** ** Double-precision arithmetic

    A finite JavaScript number is kept as its exact rational value.  Where
    the code adds, multiplies or divides two numbers the result is the
    double nearest to the exact one, the one with an even mantissa when two
    are at the same distance (IEEE 754 binary64: 53 bits of mantissa,
    subnormal numbers down to [2^-1074], below them zero).  Overflow to
    [Infinity] is left out: the values of the model stay finite. *)

Module Double.

Definition precision : Z := 53.
Definition minExponent : Z := -1074.

(** The fraction [n / d] divided by [2^e], as a numerator and a
    denominator. *)
Definition scaled (n d e : Z) : Z * Z :=
  if 0 <=? e then (n, d * 2 ^ e) else (n * 2 ^ (- e), d).

(** The integer nearest to [N / D], the even one of two at the same
    distance. *)
Definition nearestEven (N D : Z) : Z :=
  let m := N / D in
  let r := N mod D in
  if 2 * r <? D then m
  else if D <? 2 * r then m + 1
  else if Z.even m then m else m + 1.

(** The number [m * 2^e]. *)
Definition ofMantissa (m e : Z) : Q :=
  if 0 <=? e then inject_Z (m * 2 ^ e) else Qmake m (Z.to_pos (2 ^ (- e))).

(** The double nearest to [n / d], for [n] and [d] positive: the exponent
    [e] leaves a mantissa of 53 bits, or is the least exponent. *)
Definition nearestOfPositive (n d : Z) : Q :=
  let e0 := Z.max minExponent (Z.log2 n - Z.log2 d - precision) in
  let e := if 2 ^ precision <=? fst (scaled n d e0) / snd (scaled n d e0)
           then e0 + 1 else e0 in
  ofMantissa (nearestEven (fst (scaled n d e)) (snd (scaled n d e))) e.

Definition nearest (q : Q) : Q :=
  match Qnum q with
  | Z0 => 0%Q
  | Zpos _ => nearestOfPositive (Qnum q) (Zpos (Qden q))
  | Zneg _ => (- nearestOfPositive (- Qnum q) (Zpos (Qden q)))%Q
  end.

(** The operators [+], [*] and [/] on numbers. *)
Definition add (a b : Q) : Q := nearest (a + b).
Definition mul (a b : Q) : Q := nearest (a * b).
Definition div (a b : Q) : Q := nearest (a / b).

End Double.

(** ** [graphify-cli/src/commands/date.ts] *)

Module DateCommands.
Import Calendar.

(** The methods of [Date] that the file uses. *)
Definition getDay (t : Z) : Z := dayOfWeek t.
Definition getHours (t : Z) : Z := hour t.
Definition getMonth (t : Z) : Z := month t - 1.
Definition getDate (t : Z) : Z := day t.
Definition getFullYear (t : Z) : Z := year t.

(** The [Date] constructor reads a year of 0..99 as 1900 + year. *)
Definition fullYear (y : Z) : Z :=
  if (0 <=? y) && (y <=? 99) then 1900 + y else y.

(** [new Date(year, monthIndex, day)]. *)
Definition newDate (y monthIndex d : Z) : Z :=
  daysFromCivil (fullYear y) (monthIndex + 1) d * msPerDay.

(** [date.setDate(n)]: day [n] of the current month, the clock time kept;
    [n] outside the month rolls over. *)
Definition setDate (t n : Z) : Z :=
  daysFromCivil (year t) (month t) n * msPerDay + timeOfDay t.

(** [date.setHours(h, m, s)]: the milliseconds are kept. *)
Definition setHours (t h m s : Z) : Z :=
  dayNumber t * msPerDay
  + h * msPerHour + m * msPerMinute + s * msPerSecond + millisecond t.

Definition isWeekend (date : Z) : bool :=
  let day := getDay date in
  (day =? 0) || (day =? 6).

Definition isBusinessHours (date : Z) : bool :=
  let hour := getHours date in
  (hour >=? 9) && (hour <=? 17).

Definition isSleepHours (date : Z) : bool :=
  let hour := getHours date in
  (hour >=? 23) || (hour <=? 6).

Definition isHoliday (date : Z) : bool :=
  let month := getMonth date in
  let day := getDate date in
  if (month =? 0) && (day =? 1) then true
  else if (month =? 4)
          && (let lastDay := getDate (newDate (getFullYear date) 5 0) in
              let lastMonday := lastDay - getDay (newDate (getFullYear date) 5 0) in
              (day =? lastMonday)
              || ((lastMonday <? day) && (day <=? lastDay)
                  && (getDay (newDate (getFullYear date) 4 day) =? 1)))
  then true
  else if (month =? 6) && (day =? 4) then true
  else if (month =? 8)
          && (let firstMonday :=
                1 + JS.rem (8 - getDay (newDate (getFullYear date) 8 1)) 7 in
              day =? firstMonday)
  then true
  else if (month =? 10)
          && (let firstThursday :=
                1 + JS.rem (4 - getDay (newDate (getFullYear date) 10 1)) 7 in
              let fourthThursday := firstThursday + 21 in
              day =? fourthThursday)
  then true
  else if (month =? 11) && (day =? 25) then true
  else false.

Record DateAdjustmentOptions : Type := {
  avoidWeekends : bool;
  workHoursOnly : bool;
  avoidHolidays : bool
}.

(** The defaults of the destructuring: all three are [true]. *)
Definition defaultOptions : DateAdjustmentOptions :=
  {| avoidWeekends := true; workHoursOnly := true; avoidHolidays := true |}.

(** Step 1: off the weekend. *)
Definition shiftWeekend (options : DateAdjustmentOptions) (adjustedDate : Z) : Z :=
  if avoidWeekends options && isWeekend adjustedDate then
    let day := getDay adjustedDate in
    if day =? 0 then setDate adjustedDate (getDate adjustedDate + 1)
    else setDate adjustedDate (getDate adjustedDate - 1)
  else adjustedDate.

(** Step 2: into the work hours; reads [Math.random] from position [k]. *)
Definition shiftHours (options : DateAdjustmentOptions) (rand : nat -> Q)
    (adjustedDate : Z) (k : nat) : Z * nat :=
  if workHoursOnly options && negb (isBusinessHours adjustedDate) then
    let hour := getHours adjustedDate in
    if hour <? 9 then
      (setHours adjustedDate 9 (JS.floor (rand k * 45)) 0, S k)
    else if hour >? 17 then
      (setHours adjustedDate (16 + JS.round (rand k))
         (JS.floor (rand (S k) * 60)) 0, S (S k))
    else (adjustedDate, k)
  else (adjustedDate, k).

(** The recursion has no bound in the source: [fuel] counts the calls that
    are allowed, and [None] is a run that needs more of them. *)
Fixpoint adjustDateForAuthenticity (fuel : nat) (rand : nat -> Q)
    (options : DateAdjustmentOptions) (date : Z) (k : nat) : option (Z * nat) :=
  match fuel with
  | O => None
  | S fuel' =>
      let adjustedDate := shiftWeekend options date in
      let '(adjustedDate, k) := shiftHours options rand adjustedDate k in
      if avoidHolidays options && isHoliday adjustedDate then
        adjustDateForAuthenticity fuel' rand options
          (setDate adjustedDate (getDate adjustedDate + 1)) k
      else Some (adjustedDate, k)
  end.

End DateCommands.

(** ** [graphify-cli/src/utils/date-utils.ts]

    The luxon-based utilities.  [shared/src/utils/scheduler.ts] imports
    [generateRandomCommitTimes] and [isWeekend] from its own [./date-utils];
    the definitions of these two names in the repository are the ones of
    this file. *)

Module DateUtils.
Import Calendar.

(** luxon's [weekday]: 1 = Monday .. 7 = Sunday. *)
Definition weekday (dt : Z) : Z := (dayNumber dt + 3) mod 7 + 1.

(** luxon's [set({hour, minute, second})]: the date and the milliseconds
    are kept. *)
Definition setTime (dt h m s : Z) : Z :=
  dayNumber dt * msPerDay
  + h * msPerHour + m * msPerMinute + s * msPerSecond + millisecond dt.

Definition isWeekend (date : Z) : bool := weekday date >=? 6.

Definition isBusinessHours (date : Z) : bool :=
  (hour date >=? 9) && (hour date <? 17).

(** [Array.prototype.sort] with the comparator [key(a) - key(b)]: the
    stable sort on an integer key. *)
Fixpoint insertBy {A} (key : A -> Z) (x : A) (l : list A) : list A :=
  match l with
  | [] => [x]
  | y :: l' => if key x <=? key y then x :: y :: l' else y :: insertBy key x l'
  end.

Fixpoint sortBy {A} (key : A -> Z) (l : list A) : list A :=
  match l with
  | [] => []
  | x :: l' => insertBy key x (sortBy key l')
  end.

(** One turn of the loop of [generateRandomCommitTimes]. *)
Definition randomCommitTime (baseDt : Z) (workHoursOnly : bool) : Rand Z :=
  (hour <- (if workHoursOnly then
              r <- random ;; ret (9 + JS.floor (r * 8))
            else
              p <- random ;;
              if JS.Qltb p (Double.nearest (7 # 10)) then
                r <- random ;; ret (9 + JS.floor (r * 8))
              else
                r <- random ;; ret (JS.floor (r * 24))) ;;
   m <- random ;;
   s <- random ;;
   let minute := JS.floor (m * 60) in
   let second := JS.floor (s * 60) in
   ret (setTime baseDt hour minute second))%rand.

Fixpoint randomCommitTimes (n : nat) (baseDt : Z) (workHoursOnly : bool)
    (result : list Z) : Rand (list Z) :=
  match n with
  | O => ret result
  | S n' =>
      (commitTime <- randomCommitTime baseDt workHoursOnly ;;
       randomCommitTimes n' baseDt workHoursOnly (result ++ [commitTime]))%rand
  end.

(** [count] is [None] when the caller computed [NaN]: then neither
    [count < 0] nor [i < count] holds, and the result is empty. *)
Definition generateRandomCommitTimes (baseDate : Z) (count : option Z)
    (workHoursOnly : bool) : Rand (list Z) :=
  match count with
  | None => ret (sortBy (fun t => t) [])
  | Some count =>
      if count <? 0 then throw "Count must be a non-negative number"
      else
        (result <- randomCommitTimes (Z.to_nat count) baseDate workHoursOnly [] ;;
         ret (sortBy (fun t => t) result))%rand
  end.

End DateUtils.

(** ** [shared/src/utils/pattern-utils.ts] *)

Module PatternUtils.

(** The issues [validatePattern] pushes, before they are rendered. *)
Inductive PatternIssue : Type :=
| EmptyPattern
| EmptyRows
| RowLength (rowNumber len firstRowLength : nat)
| InvalidIntensity (value : Q) (row col : nat)
| VeryLarge (rows cols : nat).

Section Rendering.
(** How a template literal prints a number that is not an integer
    below [1e21] in size (the shortest decimal that reads back as the
    same double, in exponent form from [1e21] on). *)
Variable showFraction : Q -> string.

Definition showNumber (q : Q) : string :=
  if JS.isInteger q && (Z.abs (Qfloor q) <? 10 ^ 21)
  then JS.showZ (Qfloor q) else showFraction q.

Definition render (i : PatternIssue) : string :=
  match i with
  | EmptyPattern => "Pattern is empty"
  | EmptyRows => "Pattern has empty rows"
  | RowLength n len first =>
      "Row " ++ JS.showNat n ++ " has different length (" ++ JS.showNat len
      ++ ") than first row (" ++ JS.showNat first ++ ")"
  | InvalidIntensity value row col =>
      "Invalid intensity value " ++ showNumber value ++ " at position ["
      ++ JS.showNat row ++ "," ++ JS.showNat col
      ++ "]. Values must be integers from 0-4."
  | VeryLarge rows cols =>
      "Pattern is very large (" ++ JS.showNat rows ++ " × " ++ JS.showNat cols
      ++ " = " ++ JS.showNat (rows * cols)
      ++ " cells). This may create a lot of commits."
  end.
End Rendering.

(** [!Number.isInteger(value) || value < 0 || value > 4] *)
Definition invalidValue (value : Q) : bool :=
  negb (JS.isInteger value) || JS.Qltb value 0%Q || JS.Qltb 4%Q value.

(** [for (let i = 1; i < pattern.length; i++)] over the rows from [i] on. *)
Fixpoint rowLengthLoop (rows : list (list Q)) (i firstRowLength : nat)
    (issues : list PatternIssue) : list PatternIssue :=
  match rows with
  | [] => issues
  | r :: rest =>
      rowLengthLoop rest (S i) firstRowLength
        (if (List.length r =? firstRowLength)%nat then issues
         else (issues ++ [RowLength (i + 1) (List.length r) firstRowLength])%list)
  end.

(** [for (let col = 0; col < pattern[row].length; col++)] *)
Fixpoint colLoop (cells : list Q) (row col : nat)
    (issues : list PatternIssue) : list PatternIssue :=
  match cells with
  | [] => issues
  | value :: rest =>
      colLoop rest row (S col)
        (if invalidValue value then (issues ++ [InvalidIntensity value row col])%list
         else issues)
  end.

(** [for (let row = 0; row < pattern.length; row++)] *)
Fixpoint rowLoop (rows : list (list Q)) (row : nat)
    (issues : list PatternIssue) : list PatternIssue :=
  match rows with
  | [] => issues
  | r :: rest => rowLoop rest (S row) (colLoop r row 0%nat issues)
  end.

Definition validatePatternIssues (pattern : list (list Q)) : list PatternIssue :=
  let issues := [] in
  if (List.length pattern =? 0)%nat then (issues ++ [EmptyPattern])%list
  else
    let firstRowLength := List.length (nth 0%nat pattern []) in
    if (firstRowLength =? 0)%nat then (issues ++ [EmptyRows])%list
    else
      let issues := rowLengthLoop (tl pattern) 1%nat firstRowLength issues in
      let issues := rowLoop pattern 0%nat issues in
      if (365 <? List.length pattern * firstRowLength)%nat then
        (issues ++ [VeryLarge (List.length pattern) firstRowLength])%list
      else issues.

Definition validatePattern (showFraction : Q -> string)
    (pattern : list (list Q)) : list string :=
  map (render showFraction) (validatePatternIssues pattern).

End PatternUtils.

(** Vocabulary for the statements about the validator. *)
Module PatternSpec.
Import PatternUtils.

(** The value is one of the integers 0, 1, 2, 3, 4. *)
Definition IntegerInRange (value : Q) : Prop :=
  exists z : Z, 0 <= z <= 4 /\ (value == inject_Z z)%Q.

(** The issue is an invalid-value issue for the cell [(row, col)]. *)
Definition atPosition (row col : nat) (i : PatternIssue) : bool :=
  match i with
  | InvalidIntensity _ r c => (r =? row)%nat && (c =? col)%nat
  | _ => false
  end.

Definition countAt (row col : nat) (issues : list PatternIssue) : nat :=
  List.length (filter (atPosition row col) issues).


End PatternSpec.

(** ** [shared/src/utils/scheduler.ts]: the schedule mapper *)

Module Scheduler.
Import Calendar.

Record CommitScheduleOptions : Type := {
  startDate : Z;
  endDate : Z;
  pattern : list (list Q);
  density : option Q;
  randomize : option bool;
  timezone : option string;
  workHoursOnly : option bool;
  avoidWeekends : option bool;
  maxCommitsPerDay : option Z
}.

Record ScheduledCommit : Type := {
  date : Z;
  weight : Q;
  message : string
}.

(** A field left out takes the default of the destructuring. *)
Definition orDefault {A} (o : option A) (d : A) : A :=
  match o with Some a => a | None => d end.

Definition cellMessage (row col : nat) : string :=
  "Commit for pattern cell [" ++ JS.showNat row ++ "," ++ JS.showNat col ++ "]".

(** [pattern[row][col]]; [None] is [undefined]. *)
Definition cellAt (pattern : list (list Q)) (row col : nat) : option Q :=
  nth_error (nth row pattern []) col.

(** [cellValue <= 0]; false on [undefined]. *)
Definition isEmptyCell (cellValue : option Q) : bool :=
  match cellValue with
  | Some v => JS.Qleb v 0%Q
  | None => false
  end.

(** [Math.min(maxCommitsPerDay, Math.ceil(cellValue * density * noise))],
    each product rounded to a double; [None] is the [NaN] of an
    [undefined] cell. *)
Definition commitsForCell (maxCommitsPerDay : Z) (cellValue : option Q)
    (density noise : Q) : option Z :=
  match cellValue with
  | Some v =>
      Some (Z.min maxCommitsPerDay
              (JS.ceil (Double.mul (Double.mul v density) noise)))
  | None => None
  end.

Definition totalDaysOf (startDt endDt : Z) : Z :=
  JS.ceil (inject_Z (endDt - startDt) / inject_Z msPerDay).

Definition daysPerCellOf (totalDays : Z) (rows cols : nat) : Z :=
  Z.max 1 (JS.floor (inject_Z totalDays / inject_Z (Z.of_nat rows * Z.of_nat cols))).

(** The default [0.7] is the double nearest to 7/10. *)
Definition densityOf (options : CommitScheduleOptions) : Q :=
  orDefault (density options) (Double.nearest (7 # 10)).
Definition randomizeOf (options : CommitScheduleOptions) : bool :=
  orDefault (randomize options) true.
Definition workHoursOnlyOf (options : CommitScheduleOptions) : bool :=
  orDefault (workHoursOnly options) false.
Definition avoidWeekendsOf (options : CommitScheduleOptions) : bool :=
  orDefault (avoidWeekends options) true.
Definition maxCommitsPerDayOf (options : CommitScheduleOptions) : Z :=
  orDefault (maxCommitsPerDay options) 5.

Section Mapping.
Variable options : CommitScheduleOptions.
Variables (cols : nat) (totalDays daysPerCell : Z).

(** The body of the inner loop for one cell: [None] is [break],
    [Some commits] the commits the cell adds ([continue] adds none). *)
Definition cellStep (row col : nat) : Rand (option (list ScheduledCommit)) :=
  let cellIndex := Z.of_nat (row * cols + col) in
  if cellIndex * daysPerCell >=? totalDays then ret None
  else
    let cellValue := cellAt (pattern options) row col in
    if isEmptyCell cellValue then ret (Some [])
    else
      let dayOffset := cellIndex * daysPerCell in
      let baseDate := plusDays (startDate options) dayOffset in
      (skip <- (if avoidWeekendsOf options && DateUtils.isWeekend baseDate then
                  r <- random ;; ret (JS.Qltb (Double.nearest (3 # 10)) r)
                else ret false) ;;
       if (skip : bool) then ret (Some [])
       else
         noise <- (if randomizeOf options then
                     r <- random ;; ret (Double.add (1 # 2) r)
                   else ret 1%Q) ;;
         let count := commitsForCell (maxCommitsPerDayOf options) cellValue
                        (densityOf options) noise in
         commitTimes <-
           DateUtils.generateRandomCommitTimes baseDate count
             (workHoursOnlyOf options) ;;
         ret (Some (map (fun commitTime =>
                           {| date := commitTime;
                              weight := orDefault cellValue 0%Q;
                              message := cellMessage row col |})
                        commitTimes)))%rand.

(** [for (let col = ...; col < cols; col++)], [n] columns left. *)
Fixpoint colLoop (n : nat) (row col : nat)
    (scheduledCommits : list ScheduledCommit) : Rand (list ScheduledCommit) :=
  match n with
  | O => ret scheduledCommits
  | S n' =>
      (step <- cellStep row col ;;
       match step with
       | None => ret scheduledCommits
       | Some commits => colLoop n' row (S col) (scheduledCommits ++ commits)
       end)%rand
  end.

(** [for (let row = ...; row < rows; row++)], [n] rows left. *)
Fixpoint rowLoop (n : nat) (row : nat)
    (scheduledCommits : list ScheduledCommit) : Rand (list ScheduledCommit) :=
  match n with
  | O => ret scheduledCommits
  | S n' =>
      (scheduledCommits <- colLoop cols row 0%nat scheduledCommits ;;
       rowLoop n' (S row) scheduledCommits)%rand
  end.
End Mapping.

Definition mapPatternToSchedule (options : CommitScheduleOptions)
    : Rand (list ScheduledCommit) :=
  rethrow "Failed to create commit schedule: "
    (let rows := List.length (pattern options) in
     if (rows =? 0)%nat then throw "Pattern must have at least one row"
     else
       let cols := List.length (nth 0%nat (pattern options) []) in
       if (cols =? 0)%nat then throw "Pattern must have at least one column"
       else
         let totalDays := totalDaysOf (startDate options) (endDate options) in
         if totalDays <? 1 then throw "End date must be after start date"
         else
           let daysPerCell := daysPerCellOf totalDays rows cols in
           (scheduledCommits <-
              rowLoop options cols totalDays daysPerCell rows 0%nat [] ;;
            ret (DateUtils.sortBy date scheduledCommits))%rand).

End Scheduler.

(** Vocabulary for the statements about the mapper. *)
Module MapperSpec.
Import Scheduler.

(** The commit carries the label of a cell inside the date range. *)
Definition fromLiveCell (cols : nat) (totalDays daysPerCell : Z)
    (e : ScheduledCommit) : Prop :=
  exists row col,
    message e = cellMessage row col
    /\ Z.of_nat (row * cols + col) * daysPerCell < totalDays.

(** The commits of the schedule that carry the label of a cell. *)
Definition commitsOfCell (row col : nat) (commits : list ScheduledCommit)
    : list ScheduledCommit :=
  filter (fun e => String.eqb (message e) (cellMessage row col)) commits.

End MapperSpec.

(** ** [shared/src/utils/scheduler.ts]: the authenticity checker *)

Module Authenticity.
Import Calendar.
Import Scheduler.

(** luxon's [toFormat('yyyy-MM-dd')] and [toFormat('yyyy-MM-dd HH:mm:ss')]. *)
Definition formatDay (dt : Z) : string :=
  JS.padStart 4 (year dt) ++ "-" ++ JS.padStart 2 (month dt)
  ++ "-" ++ JS.padStart 2 (day dt).

Definition formatDateTime (dt : Z) : string :=
  formatDay dt ++ " " ++ JS.padStart 2 (hour dt) ++ ":"
  ++ JS.padStart 2 (minute dt) ++ ":" ++ JS.padStart 2 (second dt).

(** The issues the checker pushes, before they are rendered. *)
Inductive AuthIssue : Type :=
| TooManyInDay (count : nat) (day : string)
| SameTime (count : Z) (dateStr : string)
| EqualIntervals (count : nat)
| LateNight (count : nat) (percent : Z).

Definition render (i : AuthIssue) : string :=
  match i with
  | TooManyInDay count day =>
      "Suspicious pattern: " ++ JS.showNat count ++ " commits on " ++ day
      ++ " (too many in one day)"
  | SameTime count dateStr =>
      "Suspicious pattern: " ++ JS.showZ count
      ++ " commits at exactly the same time (" ++ dateStr ++ ")"
  | EqualIntervals count =>
      "Suspicious pattern: " ++ JS.showNat count
      ++ " commits are spaced at exactly equal intervals"
  | LateNight count percent =>
      "Suspicious pattern: " ++ JS.showNat count ++ " commits ("
      ++ JS.showZ percent ++ "%) are between 1-5 AM"
  end.

(** [commitsByDay]: a [Map] keeps its keys in insertion order. *)
Fixpoint pushByDay (dayKey : string) (commit : ScheduledCommit)
    (m : list (string * list ScheduledCommit)) : list (string * list ScheduledCommit) :=
  match m with
  | [] => [(dayKey, [commit])]
  | (k, cs) :: m' =>
      if String.eqb k dayKey then (k, (cs ++ [commit])%list) :: m'
      else (k, cs) :: pushByDay dayKey commit m'
  end.

Definition groupByDay (commits : list ScheduledCommit)
    : list (string * list ScheduledCommit) :=
  fold_left (fun m commit => pushByDay (formatDay (date commit)) commit m) commits [].

(** [commitTimes.set(timeKey, (commitTimes.get(timeKey) || 0) + 1)] *)
Fixpoint bumpTime (timeKey : Z) (m : list (Z * Z)) : list (Z * Z) :=
  match m with
  | [] => [(timeKey, 0 + 1)]
  | (k, n) :: m' =>
      if k =? timeKey then (k, n + 1) :: m' else (k, n) :: bumpTime timeKey m'
  end.

Definition countTimes (commits : list ScheduledCommit) : list (Z * Z) :=
  fold_left (fun m commit => bumpTime (date commit) m) commits [].

(** [intervals.push(commits[i].date.toMillis() - commits[i-1].date.toMillis())]
    for [i] from 1. *)
Fixpoint intervalsOf (millis : list Z) : list Z :=
  match millis with
  | a :: (b :: _) as rest => (b - a) :: intervalsOf rest
  | _ => []
  end.

(** [intervals.every(interval => interval === intervals[0])] *)
Definition allSame (intervals : list Z) : bool :=
  match intervals with
  | [] => true
  | first :: _ => forallb (fun interval => interval =? first) intervals
  end.

Definition isLateNight (c : ScheduledCommit) : bool :=
  (hour (date c) >=? 1) && (hour (date c) <=? 5).

Definition dayIssues (commits : list ScheduledCommit) : list AuthIssue :=
  flat_map (fun '(day, dayCommits) =>
              if (15 <? List.length dayCommits)%nat
              then [TooManyInDay (List.length dayCommits) day] else [])
           (groupByDay commits).

Definition timeIssues (commits : list ScheduledCommit) : list AuthIssue :=
  flat_map (fun '(time, count) =>
              if count >? 1 then [SameTime count (formatDateTime time)] else [])
           (countTimes commits).

Definition spacingIssues (commits : list ScheduledCommit) : list AuthIssue :=
  if (3 <? List.length commits)%nat then
    let intervals := intervalsOf (map date commits) in
    if allSame intervals && (5 <? List.length commits)%nat
    then [EqualIntervals (List.length commits)] else []
  else [].

(** [Math.round(late / total * 100)]: the quotient and the product are
    rounded to doubles, [Math.round] is exact on the double it gets. *)
Definition percentage (late total : nat) : Z :=
  JS.round (Double.mul (Double.div (inject_Z (Z.of_nat late))
                          (inject_Z (Z.of_nat total))) 100).

(** [commits.length * 0.25] is exact. *)
Definition lateNightIssues (commits : list ScheduledCommit) : list AuthIssue :=
  let lateNightCommits := List.length (filter isLateNight commits) in
  if JS.Qltb (inject_Z (Z.of_nat (List.length commits)) * (1 # 4))
             (inject_Z (Z.of_nat lateNightCommits))
  then [LateNight lateNightCommits
          (percentage lateNightCommits (List.length commits))]
  else [].

Definition scheduleIssues (commits : list ScheduledCommit) : list AuthIssue :=
  (dayIssues commits ++ timeIssues commits ++ spacingIssues commits
   ++ lateNightIssues commits)%list.

Definition checkScheduleAuthenticity (commits : list ScheduledCommit) : list string :=
  map render (scheduleIssues commits).

End Authenticity.

(** ** [shared/src/utils/scheduler.ts]: the batched executor

    [processFn] is any operation: called on an item in a state of the
    outside world [W], it settles as fulfilled ([None]) or rejected with an
    error ([Some e]; a synchronous throw is caught by the same [try]) and
    leaves a new state.  The calls of one batch are made in order by
    [batch.map]; their promises settle in an order the code does not fix,
    given here by [settle], a rearrangement of the batch.  A timer is the
    [Sleep] it leaves in the trace of effects.

    The state [W] is threaded through the calls in call order, as for
    operations whose effect is complete when the call returns its promise;
    the effects of operations that run on concurrently are not modelled, and
    nothing is stated about the final state. *)

Module Batch.
Local Open Scope list_scope.

Record BatchResult (E : Type) : Type := {
  succeeded : Z;
  failed : Z;
  errors : list E
}.
Arguments succeeded {E} _.
Arguments failed {E} _.
Arguments errors {E} _.

Inductive Effect (T : Type) : Type :=
| Invoke (item : T)
| Sleep (ms : Z)
| Progress (processed total : Z).
Arguments Invoke {T} item.
Arguments Sleep {T} ms.
Arguments Progress {T} processed total.

(** How the returned promise settles. *)
Inductive Settled (E A : Type) : Type :=
| Fulfilled (a : A)
| Rejected (e : E).
Arguments Fulfilled {E A} a.
Arguments Rejected {E A} e.

Record BatchOptions (E : Type) : Type := {
  batchSize : option Z;
  delayBetweenItems : option Z;
  delayBetweenBatches : option Z;
  (** [Some e] is an [onProgress] that throws [e]. *)
  onProgress : option (Z -> Z -> option E)
}.
Arguments batchSize {E} _.
Arguments delayBetweenItems {E} _.
Arguments delayBetweenBatches {E} _.
Arguments onProgress {E} _.

Definition defaultBatchOptions {E} : BatchOptions E :=
  {| batchSize := None; delayBetweenItems := None;
     delayBetweenBatches := None; onProgress := None |}.

(** [items.slice(from, to)], negative indices counting from the end. *)
Definition slice {T} (items : list T) (from to : Z) : list T :=
  let len := Z.of_nat (List.length items) in
  let k := if from <? 0 then Z.max (len + from) 0 else Z.min from len in
  let final := if to <? 0 then Z.max (len + to) 0 else Z.min to len in
  firstn (Z.to_nat (final - k)) (skipn (Z.to_nat k) items).

Section Executor.
Variables T E W : Type.
Variable processFn : T -> W -> option E * W.
Variable settle : list (nat * option E) -> list (nat * option E).
Variable options : BatchOptions E.

Definition batchSizeOf : Z := Scheduler.orDefault (batchSize options) 10.
Definition delayBetweenItemsOf : Z :=
  Scheduler.orDefault (delayBetweenItems options) 1000.
Definition delayBetweenBatchesOf : Z :=
  Scheduler.orDefault (delayBetweenBatches options) 5000.
Definition onProgressOf : Z -> Z -> option E :=
  Scheduler.orDefault (onProgress options) (fun _ _ => None).

(** The calls [processFn(item)] that [batch.map] makes, in order. *)
Fixpoint dispatch (batch : list T) (w : W) : list (option E) * W :=
  match batch with
  | [] => ([], w)
  | item :: rest =>
      let '(o, w1) := processFn item w in
      let '(os, w2) := dispatch rest w1 in
      (o :: os, w2)
  end.

(** What each callback does once its [await processFn(item)] is over. *)
Fixpoint settleAll (settled : list (nat * option E)) (batchLength : nat)
    (results : BatchResult E) (trace : list (Effect T))
    : BatchResult E * list (Effect T) :=
  match settled with
  | [] => (results, trace)
  | (index, None) :: rest =>
      let results := {| succeeded := succeeded results + 1;
                        failed := failed results;
                        errors := errors results |} in
      settleAll rest batchLength results
        (if Z.of_nat index <? Z.of_nat batchLength - 1
         then trace ++ [Sleep delayBetweenItemsOf] else trace)
  | (index, Some error) :: rest =>
      let results := {| succeeded := succeeded results;
                        failed := failed results + 1;
                        errors := errors results ++ [error] |} in
      settleAll rest batchLength results trace
  end.

Definition indexed (outcomes : list (option E)) : list (nat * option E) :=
  combine (seq 0 (List.length outcomes)) outcomes.

(** The [for] loop over the batches from index [i]; [fuel] bounds the
    number of batches and [None] is a run that needs more. *)
Fixpoint batchLoop (fuel : nat) (items : list T) (i : Z) (w : W)
    (results : BatchResult E) (trace : list (Effect T))
    : option (Settled E (BatchResult E * list (Effect T) * W)) :=
  match fuel with
  | O => None
  | S fuel' =>
      let len := Z.of_nat (List.length items) in
      if i <? len then
        let batch := slice items i (i + batchSizeOf) in
        let '(outcomes, w) := dispatch batch w in
        let '(results, trace) :=
          settleAll (settle (indexed outcomes)) (List.length batch) results
            (trace ++ map Invoke batch) in
        match onProgressOf (Z.min (i + batchSizeOf) len) len with
        | Some e => Some (Rejected e)
        | None =>
            let trace := trace ++ [Progress (Z.min (i + batchSizeOf) len) len] in
            let trace :=
              if i + batchSizeOf <? len
              then trace ++ [Sleep delayBetweenBatchesOf] else trace in
            batchLoop fuel' items (i + batchSizeOf) w results trace
        end
      else Some (Fulfilled (results, trace, w))
  end.

Definition processBatchedCommits (fuel : nat) (items : list T) (w : W)
    : option (Settled E (BatchResult E * list (Effect T) * W)) :=
  let results := {| succeeded := 0; failed := 0; errors := [] |} in
  batchLoop fuel items 0 w results [].
End Executor.

End Batch.

(** Vocabulary for the statements about the executor: of the outcomes of the
    calls, how many are fulfilled and which errors are rejections. *)
Module BatchSpec.

Definition isRejected {E} (o : option E) : bool :=
  match o with Some _ => true | None => false end.

Definition resolvedCount {E} (outcomes : list (option E)) : nat :=
  List.length (filter (fun o => negb (isRejected o)) outcomes).

Fixpoint rejections {E} (outcomes : list (option E)) : list E :=
  match outcomes with
  | [] => []
  | Some e :: rest => e :: rejections rest
  | None :: rest => rejections rest
  end.

(** The outcomes of the operation over the whole list, in call order. *)
Definition outcomesOf {T E W} (processFn : T -> W -> option E * W)
    (items : list T) (w : W) : list (option E) :=
  fst (Batch.dispatch T E W processFn items w).

End BatchSpec.

(** ** Concrete inputs used in the examples *)

Module Scenarios.
Import Calendar.

(** Wednesday 6 March 2024, 17:30. *)
Definition halfPastFive : Z := mkDateTime 2024 3 6 17 30 0 0.

(** Friday 25 December 2020 and the Saturday after it, 10:00. *)
Definition friday : Z := mkDateTime 2020 12 25 10 0 0 0.
Definition saturday : Z := mkDateTime 2020 12 26 10 0 0 0.

Definition avoiding (workHours : bool) : DateCommands.DateAdjustmentOptions :=
  {| DateCommands.avoidWeekends := true;
     DateCommands.workHoursOnly := workHours;
     DateCommands.avoidHolidays := true |}.

End Scenarios.

(** The executor on twelve items, the operation failing on the items at
    indices 2 and 7, batches of five. *)
Module BatchScenario.
Import Batch.

Definition items : list nat := seq 0 12.

Definition failing (item : nat) (w : unit) : option string * unit :=
  (if (item =? 2)%nat || (item =? 7)%nat then Some "operation failed" else None, w).

Definition batchesOfFive : BatchOptions string :=
  {| batchSize := Some 5; delayBetweenItems := None;
     delayBetweenBatches := None; onProgress := None |}.

(** A batch whose promises settle last-first. *)
Definition lastFirst (l : list (nat * option string)) := rev l.

End BatchScenario.

(** Schedules with one commit every hour from 2024-01-01 09:00. *)
Module HourlyScenario.
Import Calendar Scheduler.

Definition commitAt (t : Z) : ScheduledCommit :=
  {| date := t; weight := 1; message := cellMessage 0 0 |}.

Definition hourly (n : nat) : list ScheduledCommit :=
  map (fun i => commitAt (mkDateTime 2024 1 1 9 0 0 0 + Z.of_nat i * (3600 * 1000)))
      (seq 0 n).

End HourlyScenario.

(** The mapper on small grids. *)
Module MapperScenario.
Import Calendar Scheduler.

(** A sequence of values in [0, 1) for [Math.random]. *)
Definition rnd (k : nat) : Q :=
  match (k mod 4)%nat with
  | 0%nat => 1 # 10
  | 1%nat => 1 # 2
  | 2%nat => 9 # 10
  | _ => 1 # 3
  end.

(** A 2 x 2 grid over the two days from Monday 2024-01-01 to 2024-01-03. *)
Definition twoDays : CommitScheduleOptions :=
  {| startDate := mkDateTime 2024 1 1 0 0 0 0;
     endDate := mkDateTime 2024 1 3 0 0 0 0;
     pattern := [[1%Q; 2%Q]; [3%Q; 4%Q]];
     density := None; randomize := None; timezone := None;
     workHoursOnly := None; avoidWeekends := None; maxCommitsPerDay := None |}.

(** One cell, a valid range, and a negative cap. *)
Definition negativeCap : CommitScheduleOptions :=
  {| startDate := mkDateTime 2024 1 1 0 0 0 0;
     endDate := mkDateTime 2024 1 3 0 0 0 0;
     pattern := [[1%Q]];
     density := None; randomize := None; timezone := None;
     workHoursOnly := None; avoidWeekends := None;
     maxCommitsPerDay := Some (-1) |}.

(** One cell of value 3 with the density 0.33333333333333337, the double
    after the one nearest to 1/3, and no noise. *)
Definition thirds : CommitScheduleOptions :=
  {| startDate := mkDateTime 2024 1 1 0 0 0 0;
     endDate := mkDateTime 2024 1 3 0 0 0 0;
     pattern := [[3%Q]];
     density := Some (3002399751580331 # 9007199254740992);
     randomize := Some false; timezone := None;
     workHoursOnly := None; avoidWeekends := None; maxCommitsPerDay := None |}.

(** One cell holding the least positive double, [2^-1074], with the
    density 0.5 and no noise. *)
Definition tinyCell : CommitScheduleOptions :=
  {| startDate := mkDateTime 2024 1 1 0 0 0 0;
     endDate := mkDateTime 2024 1 3 0 0 0 0;
     pattern := [[1 # Z.to_pos (2 ^ 1074)]];
     density := Some (1 # 2);
     randomize := Some false; timezone := None;
     workHoursOnly := None; avoidWeekends := None; maxCommitsPerDay := None |}.

(** The schedule of a run that returns. *)
Definition scheduleOf (options : CommitScheduleOptions) : list ScheduledCommit :=
  match mapPatternToSchedule options rnd 0%nat with
  | Ok (commits, _) => commits
  | Err _ => []
  end.

End MapperScenario.

(** More inputs of the mapper. *)
Module MapperErrors.
Import Calendar Scheduler.

(** A pattern without rows. *)
Definition noRows : CommitScheduleOptions :=
  {| startDate := mkDateTime 2024 1 1 0 0 0 0;
     endDate := mkDateTime 2024 1 3 0 0 0 0;
     pattern := [];
     density := None; randomize := None; timezone := None;
     workHoursOnly := None; avoidWeekends := None; maxCommitsPerDay := None |}.

End MapperErrors.

(** More options for the executor scenario. *)
Module BatchScenarioMore.
Import Batch.

(** The promises of a batch settle in call order. *)
Definition inOrder (l : list (nat * option string)) := l.

Definition batchSizeZero : BatchOptions string :=
  {| batchSize := Some 0; delayBetweenItems := None;
     delayBetweenBatches := None; onProgress := None |}.

End BatchScenarioMore.

(** Schedules for the checks of the authenticity checker. *)
Module CheckerScenario.
Import Calendar Scheduler.

(** One commit a minute from 2024-01-01 10:00. *)
Definition minutely (n : nat) : list ScheduledCommit :=
  map (fun i => HourlyScenario.commitAt
                  (mkDateTime 2024 1 1 10 0 0 0 + Z.of_nat i * 60000))
      (seq 0 n).

(** Two commits at the same millisecond, then one an hour later. *)
Definition collision : list ScheduledCommit :=
  [ HourlyScenario.commitAt (mkDateTime 2024 1 1 10 0 0 0);
    HourlyScenario.commitAt (mkDateTime 2024 1 1 10 0 0 0);
    HourlyScenario.commitAt (mkDateTime 2024 1 1 11 0 0 0) ].

(** [total] commits on the days from 2024-01-01 on, the first [late] of
    them at 03:00 and the others at 10:00. *)
Definition lateShare (late total : nat) : list ScheduledCommit :=
  map (fun i => HourlyScenario.commitAt
                  (mkDateTime 2024 1 (1 + Z.of_nat i)
                     (if (i <? late)%nat then 3 else 10) 0 0 0))
      (seq 0 total).

(** Four commits, [late] of them at 03:00 and the others at 10:00. *)
Definition nightly (late : nat) : list ScheduledCommit :=
  map (fun i => HourlyScenario.commitAt
                  (mkDateTime 2024 1 (1 + Z.of_nat i)
                     (if (i <? late)%nat then 3 else 10) 0 0 0))
      (seq 0 4).

End CheckerScenario.

(** A grid without a positive cell. *)
Module ZeroScenario.
Import Calendar Scheduler.

Definition allZero : CommitScheduleOptions :=
  {| startDate := mkDateTime 2024 1 1 0 0 0 0;
     endDate := mkDateTime 2024 1 8 0 0 0 0;
     pattern := [[0%Q; 0%Q; 0%Q]; [0%Q; 0%Q; 0%Q]];
     density := None; randomize := None; timezone := None;
     workHoursOnly := None; avoidWeekends := None; maxCommitsPerDay := None |}.

End ZeroScenario.

(** ** More vocabulary for the executor: what a trace of effects shows *)

Module BatchTrace.
Import Batch.

(** The items the operation was called on, in call order. *)
Fixpoint invoked {T} (trace : list (Effect T)) : list T :=
  match trace with
  | [] => []
  | Invoke item :: rest => item :: invoked rest
  | _ :: rest => invoked rest
  end.

(** The arguments of the calls of [onProgress], in call order. *)
Fixpoint progressReports {T} (trace : list (Effect T)) : list (Z * Z) :=
  match trace with
  | [] => []
  | Progress processed total :: rest => (processed, total) :: progressReports rest
  | _ :: rest => progressReports rest
  end.

(** The number of batches of [len] items by [b]: [ceil(len / b)]. *)
Definition batchCount (len b : Z) : nat := Z.to_nat ((len + b - 1) / b).

(** The report after batch number [j] (from 0). *)
Definition reportAfter (len b : Z) (j : nat) : Z * Z :=
  (Z.min ((Z.of_nat j + 1) * b) len, len).

End BatchTrace.

(** ** Vocabulary on grids *)

Module PatternShape.

(** A grid with at least one row and one column, all rows as long as the
    first, every cell an integer of 0..4, and at most 365 cells. *)
Definition WellFormed (pattern : list (list Q)) : Prop :=
  pattern <> []
  /\ nth 0%nat pattern [] <> []
  /\ (forall r, In r pattern ->
                List.length r = List.length (nth 0%nat pattern []))
  /\ (forall r v, In r pattern -> In v r -> PatternSpec.IntegerInRange v)
  /\ (List.length pattern * List.length (nth 0%nat pattern []) <= 365)%nat.

(** Some cell of the grid is not an integer of 0..4. *)
Definition HasInvalidCell (pattern : list (list Q)) : Prop :=
  exists r v, In r pattern /\ In v r /\ ~ PatternSpec.IntegerInRange v.

End PatternShape.

(** ** The callers of [validatePattern]

    [graphify-cli/src/commands/commit-command.ts],
    [graphify-cli/src/commands/pattern-command.ts] ([importPattern], from the
    point where the grid has been read) and [backend/src/pattern.service.ts]
    ([createPattern], up to the database call). *)

Module Callers.

(** [s.includes(sub)] *)
Fixpoint includes (sub s : string) : bool :=
  String.prefix sub s
  || match s with
     | EmptyString => false
     | String _ rest => includes sub rest
     end.

(** [issues.some(i => i.includes('Invalid'))] *)
Definition someInvalid (issues : list string) : bool :=
  existsb (includes "Invalid") issues.

(** The default answer of the prompt [Continue anyway?] of the commit
    command and of [Use this pattern anyway?] of the import. *)
Definition continueDefault (issues : list string) : bool :=
  if someInvalid issues then false else true.

(** The validation step of [importPattern]: [confirm] is the answer of the
    user to the prompt, given its default. *)
Definition importPatternValidation (showFraction : Q -> string)
    (isTTY : bool) (confirm : bool -> bool) (patternGrid : list (list Q))
    : result (list (list Q)) :=
  let validationIssues := PatternUtils.validatePattern showFraction patternGrid in
  if (0 <? List.length validationIssues)%nat then
    if isTTY then
      let continueAnyway := confirm (negb (someInvalid validationIssues)) in
      if negb continueAnyway
      then Err "Pattern import aborted due to validation issues"
      else Ok patternGrid
    else if someInvalid validationIssues
    then Err "Pattern has validation errors and cannot be imported in non-interactive mode"
    else Ok patternGrid
  else Ok patternGrid.

(** [issues.join(', ')] *)
Fixpoint join (sep : string) (l : list string) : string :=
  match l with
  | [] => ""
  | [x] => x
  | x :: rest => x ++ sep ++ join sep rest
  end.

(** The two checks of [createPattern] and [updatePattern] before the
    database is touched. *)
Definition createPatternChecks (showFraction : Q -> string)
    (grid : list (list Q)) (rows columns : nat) : result unit :=
  let validationIssues := PatternUtils.validatePattern showFraction grid in
  if (0 <? List.length validationIssues)%nat then
    Err ("Pattern validation failed: " ++ join ", " validationIssues)
  else if negb (List.length grid =? rows)%nat
          || existsb (fun row => negb (List.length row =? columns)%nat) grid
  then Err "Pattern grid dimensions do not match specified rows and columns"
  else Ok tt.

End Callers.

(** ** Vocabulary for the statements about the authenticity checker *)

Module AuthenticitySpec.
Import Scheduler Authenticity.

(** The commits of a calendar day (as [yyyy-MM-dd]), in schedule order. *)
Definition commitsOn (day : string) (commits : list ScheduledCommit)
    : list ScheduledCommit :=
  filter (fun c => String.eqb (formatDay (date c)) day) commits.

(** The commits at a timestamp. *)
Definition commitsAt (time : Z) (commits : list ScheduledCommit)
    : list ScheduledCommit :=
  filter (fun c => date c =? time) commits.

Definition lateNightCount (commits : list ScheduledCommit) : nat :=
  List.length (filter isLateNight commits).

(** A [Map] as the list of its entries in insertion order: the value of a
    key, and the entry set or changed by a function of the old value. *)
Section Maps.
Context {K V : Type} (eqb : K -> K -> bool).

Fixpoint lookup (k : K) (m : list (K * V)) : option V :=
  match m with
  | [] => None
  | (k', v) :: m' => if eqb k' k then Some v else lookup k m'
  end.

Fixpoint upsert (k : K) (f : option V -> V) (m : list (K * V)) : list (K * V) :=
  match m with
  | [] => [(k, f None)]
  | (k', v) :: m' =>
      if eqb k' k then (k', f (Some v)) :: m' else (k', v) :: upsert k f m'
  end.
End Maps.

End AuthenticitySpec.

(** ** More vocabulary for the statements about the mapper *)

Module PlacementSpec.
Import Calendar Scheduler.

(** The time is on the calendar day of [baseDt], keeps its milliseconds,
    and its hour is a work hour when [workHoursOnly]. *)
Definition onDayOf (baseDt : Z) (workHoursOnly : bool) (t : Z) : Prop :=
  dayNumber t = dayNumber baseDt
  /\ millisecond t = millisecond baseDt
  /\ (if workHoursOnly then 9 <= hour t < 17 else 0 <= hour t < 24).

(** Row [row] and column [col] come before [(row', col')] in the order of
    the two loops. *)
Definition before (row col row' col' : nat) : Prop :=
  (row < row')%nat \/ (row = row' /\ (col < col')%nat).

(** No cell has more commits than [cap], and the cells that the loops have
    not reached at [(row, col)] have none. *)
Definition capped (cap : Z) (acc : list ScheduledCommit) (row col : nat) : Prop :=
  forall r c,
    Z.of_nat (List.length (MapperSpec.commitsOfCell r c acc)) <= cap
    /\ (~ before r c row col -> MapperSpec.commitsOfCell r c acc = []).

End PlacementSpec.

(** ** The rest of [graphify-cli/src/utils/date-utils.ts]

    The luxon-based [adjustDateForAuthenticity] (two flags, no holidays)
    and [createDateRange]. *)

Module DateUtilsAdjust.
Import Calendar.

(** luxon's [set({hour, minute})]: the date, the seconds and the
    milliseconds are kept. *)
Definition setHourMinute (dt h m : Z) : Z :=
  dayNumber dt * msPerDay
  + h * msPerHour + m * msPerMinute + timeOfDay dt mod msPerMinute.

(** Saturday goes back to Friday, Sunday on to Monday. *)
Definition offWeekend (avoidWeekends : bool) (dt : Z) : Z :=
  if avoidWeekends && (DateUtils.weekday dt >=? 6) then
    if DateUtils.weekday dt =? 6 then plusDays dt (-1) else plusDays dt 1
  else dt.

(** [date] is [None] for [null] and [undefined]. *)
Definition adjustDateForAuthenticity (date : option Z)
    (avoidWeekends workHoursOnly : bool) : Rand Z :=
  match date with
  | None => throw "Date cannot be null or undefined"
  | Some dt =>
      let adjusted := offWeekend avoidWeekends dt in
      if workHoursOnly then
        let hour := Calendar.hour adjusted in
        if hour <? 9 then
          (r <- random ;;
           s <- random ;;
           ret (setHourMinute adjusted (9 + JS.floor (r * 2)) (JS.floor (s * 60))))%rand
        else if hour >=? 17 then
          (r <- random ;;
           s <- random ;;
           ret (setHourMinute adjusted (14 + JS.floor (r * 3)) (JS.floor (s * 60))))%rand
        else ret adjusted
      else ret adjusted
  end.

(** The loop [for (let i = 0; i <= days; i++)] of [createDateRange], with
    [n] turns left. *)
Fixpoint pushDays (n : nat) (startDt i : Z) (dates : list Z) : list Z :=
  match n with
  | O => dates
  | S n' => pushDays n' startDt (i + 1) (dates ++ [plusDays startDt i])
  end.

(** [endDt.diff(startDt, 'days').days] is the difference in days with its
    fraction. *)
Definition createDateRange (start end_ : Z) : list Z :=
  let days := JS.ceil (inject_Z (end_ - start) / inject_Z msPerDay) in
  pushDays (Z.to_nat (days + 1)) start 0 [].

End DateUtilsAdjust.

(** ** [generateAuthenticCommitDates] of [graphify-cli/src/commands/date.ts] *)

Module AuthenticDates.
Import Calendar DateCommands.

(** [new Date(value)] keeps the integer part of a fractional time value. *)
Definition newDateOfNumber (value : Q) : Z :=
  if JS.Qleb 0 value then JS.floor value else JS.ceil value.

(** The loop over [i < numCommits], with [n] turns left; [fuel] bounds the
    calls of each [adjustDateForAuthenticity]. *)
Fixpoint commitDatesLoop (n fuel : nat) (rand : nat -> Q)
    (options : DateAdjustmentOptions) (startDate dateRange : Z)
    (dates : list Z) (k : nat) : option (list Z * nat) :=
  match n with
  | O => Some (dates, k)
  | S n' =>
      let randomOffset := (rand k * inject_Z dateRange)%Q in
      let randomDate := newDateOfNumber (inject_Z startDate + randomOffset) in
      match adjustDateForAuthenticity fuel rand options randomDate (S k) with
      | None => None
      | Some (adjustedDate, k') =>
          commitDatesLoop n' fuel rand options startDate dateRange
            (dates ++ [adjustedDate]) k'
      end
  end.

(** [numCommits] is a whole number. *)
Definition generateAuthenticCommitDates (fuel : nat) (rand : nat -> Q)
    (numCommits : Z) (startDate endDate : Z) (options : DateAdjustmentOptions)
    (k : nat) : option (result (list Z * nat)) :=
  if numCommits <=? 0 then Some (Ok ([], k))
  else
    let dateRange := endDate - startDate in
    if dateRange <=? 0 then Some (Err "End date must be after start date")
    else
      match commitDatesLoop (Z.to_nat numCommits) fuel rand options
              startDate dateRange [] k with
      | None => None
      | Some (dates, k') => Some (Ok (DateUtils.sortBy (fun t => t) dates, k'))
      end.

End AuthenticDates.

Module AuthenticDatesSpec.
Import Calendar DateCommands.

(** What the adjustment without holidays makes of a time between
    [startDate] and [endDate]: a working day when [avoidWeekends], an hour
    of 9..17 when [workHoursOnly], at most one calendar day outside. *)
Definition adjustedWithin (options : DateAdjustmentOptions)
    (startDate endDate t : Z) : Prop :=
  (avoidWeekends options = true -> isWeekend t = false)
  /\ (workHoursOnly options = true -> 9 <= getHours t <= 17)
  /\ dayNumber startDate - 1 <= dayNumber t <= dayNumber endDate + 1.

End AuthenticDatesSpec.

Module DateScenarios.
Import Calendar.

(** Friday 1 January 2021, 08:00, and the Saturday after it. *)
Definition newYear : Z := mkDateTime 2021 1 1 8 0 0 0.
Definition dayAfterNewYear : Z := mkDateTime 2021 1 2 8 0 0 0.

(** Sunday 10 March 2024, 20:15:30.250. *)
Definition sundayEvening : Z := mkDateTime 2024 3 10 20 15 30 250.

(** Thursday 21 and Thursday 28 November 2024, noon. *)
Definition thirdThursday : Z := mkDateTime 2024 11 21 12 0 0 0.
Definition fourthThursday : Z := mkDateTime 2024 11 28 12 0 0 0.

(** Sunday 4 September of the year 50, noon. *)
Definition septemberOfYear50 : Z := mkDateTime 50 9 4 12 0 0 0.

Definition keepHolidays : DateCommands.DateAdjustmentOptions :=
  {| DateCommands.avoidWeekends := true;
     DateCommands.workHoursOnly := true;
     DateCommands.avoidHolidays := false |}.

End DateScenarios.

(** * Properties *)

(** ** Dates *)

Section DateExamples.
Import Calendar.

Example civil_2020_12_25 :
  civilFromDays (daysFromCivil 2020 12 25) = (2020, 12, 25)
  /\ dayOfWeek (mkDateTime 2020 12 25 10 0 0 0) = 5.
Proof. split; reflexivity. Qed.

Example civil_epoch : civilFromDays 0 = (1970, 1, 1) /\ dayOfWeek 0 = 4.
Proof. split; reflexivity. Qed.

Example holiday_examples :
  DateCommands.isHoliday (mkDateTime 2024 5 27 12 0 0 0) = true
  /\ DateCommands.isHoliday (mkDateTime 2024 9 2 12 0 0 0) = true
  /\ DateCommands.isHoliday (mkDateTime 2023 11 23 12 0 0 0) = true
  /\ DateCommands.isHoliday (mkDateTime 2023 11 24 12 0 0 0) = false.
Proof. repeat split; reflexivity. Qed.
End DateExamples.

Lemma isBusinessHours_utils_iff (date : Z) :
  DateUtils.isBusinessHours date = true <-> 9 <= Calendar.hour date < 17.
Proof.
  unfold DateUtils.isBusinessHours.
  rewrite andb_true_iff, Z.geb_le, Z.ltb_lt. reflexivity.
Qed.

Lemma isBusinessHours_commands_iff (date : Z) :
  DateCommands.isBusinessHours date = true
  <-> 9 <= DateCommands.getHours date <= 17.
Proof.
  unfold DateCommands.isBusinessHours.
  rewrite andb_true_iff, Z.geb_le, Z.leb_le. reflexivity.
Qed.

(** C8. [isBusinessHours] of [utils/date-utils.ts] is true exactly for the
    hours 9..16, but [isBusinessHours] of [commands/date.ts] compares with
    [hour <= 17]: at 17:30 the local hour is 17, outside [9, 17), and the
    function of [commands/date.ts] answers true where the one of
    [utils/date-utils.ts] answers false. *)
Theorem isBusinessHours_commands_true_at_17h :
  let date := Scenarios.halfPastFive in
  DateCommands.getHours date = 17
  /\ DateCommands.isBusinessHours date = true
  /\ DateUtils.isBusinessHours date = false.
Proof. repeat split; reflexivity. Qed.

(** One call of [adjustDateForAuthenticity]. *)
Lemma adjustDateForAuthenticity_step fuel rand options date k :
  DateCommands.adjustDateForAuthenticity (S fuel) rand options date k =
  let '(adjustedDate, k') :=
    DateCommands.shiftHours options rand
      (DateCommands.shiftWeekend options date) k in
  if DateCommands.avoidHolidays options && DateCommands.isHoliday adjustedDate
  then DateCommands.adjustDateForAuthenticity fuel rand options
         (DateCommands.setDate adjustedDate (DateCommands.getDate adjustedDate + 1)) k'
  else Some (adjustedDate, k').
Proof. reflexivity. Qed.

(** Without [avoidHolidays] there is no recursive call. *)
Lemma adjustDateForAuthenticity_no_holidays fuel rand options date k :
  DateCommands.avoidHolidays options = false ->
  exists r, DateCommands.adjustDateForAuthenticity (S fuel) rand options date k = Some r.
Proof.
  intros Hh. rewrite adjustDateForAuthenticity_step.
  destruct (DateCommands.shiftHours _ _ _ _) as [a k'].
  rewrite Hh. simpl. eauto.
Qed.

Section ChristmasOnFriday.
Import Calendar DateCommands.

Import Scenarios.
Variable rand : nat -> Q.
Variable workHours : bool.
Let avoiding := Scenarios.avoiding workHours.

Lemma friday_is_holiday : isHoliday friday = true /\ isWeekend friday = false.
Proof. split; vm_compute; reflexivity. Qed.

Lemma saturday_back_to_friday : shiftWeekend avoiding saturday = friday.
Proof. vm_compute; reflexivity. Qed.

Lemma friday_stays : shiftWeekend avoiding friday = friday.
Proof. vm_compute; reflexivity. Qed.

Lemma friday_hours_kept k : shiftHours avoiding rand friday k = (friday, k).
Proof.
  unfold shiftHours.
  replace (isBusinessHours friday) with true by (vm_compute; reflexivity).
  rewrite andb_false_r. reflexivity.
Qed.

Lemma friday_forward_to_saturday : setDate friday (getDate friday + 1) = saturday.
Proof. vm_compute; reflexivity. Qed.

Lemma saturday_loops fuel k :
  adjustDateForAuthenticity fuel rand avoiding saturday k = None.
Proof.
  induction fuel as [| fuel IH]; [reflexivity |].
  rewrite adjustDateForAuthenticity_step, saturday_back_to_friday,
    friday_hours_kept.
  destruct friday_is_holiday as [-> _]. simpl avoidHolidays. simpl andb.
  rewrite friday_forward_to_saturday. exact IH.
Qed.
End ChristmasOnFriday.

(** C4. [adjustDateForAuthenticity] does not return on Friday 25 December
    2020, 10:00, with [avoidWeekends] and [avoidHolidays]: the holiday step
    moves to Saturday, the recursive call moves Saturday back to the Friday,
    which is the holiday again.  Whatever number of calls is allowed, the run
    needs more. *)
Theorem adjustDateForAuthenticity_diverges_on_friday_holiday :
  forall (rand : nat -> Q) (workHours : bool) (fuel k : nat),
    DateCommands.adjustDateForAuthenticity fuel rand
      (Scenarios.avoiding workHours) Scenarios.friday k = None.
Proof.
  intros rand workHours [| fuel] k; [reflexivity |].
  rewrite adjustDateForAuthenticity_step, friday_stays, friday_hours_kept.
  destruct friday_is_holiday as [-> _].
  cbn [DateCommands.avoidHolidays Scenarios.avoiding andb].
  rewrite friday_forward_to_saturday. apply saturday_loops.
Qed.

(** ** The batched executor *)

Section ExecutorFacts.
Import Batch BatchSpec.
Local Open Scope list_scope.

Variables T E W : Type.
Variable processFn : T -> W -> option E * W.
Variable settle : list (nat * option E) -> list (nat * option E).
Variable options : BatchOptions E.

Hypothesis settle_perm : forall l, Permutation (settle l) l.
Hypothesis batch_positive : 0 < batchSizeOf E options.
Hypothesis progress_quiet : forall p t, onProgressOf E options p t = None.

Let dispatch := dispatch T E W processFn.
Let settleAll := settleAll T E options.
Let batchLoop := batchLoop T E W processFn settle options.

Lemma dispatch_app l1 l2 w :
  dispatch (l1 ++ l2) w =
  (fst (dispatch l1 w) ++ fst (dispatch l2 (snd (dispatch l1 w))),
   snd (dispatch l2 (snd (dispatch l1 w)))).
Proof.
  revert w. induction l1 as [| x l1 IH]; intros w; simpl.
  - destruct (dispatch l2 w); reflexivity.
  - unfold dispatch in *. simpl.
    destruct (processFn x w) as [o w1].
    rewrite IH.
    destruct (Batch.dispatch T E W processFn l1 w1) as [os w2]. simpl.
    reflexivity.
Qed.

Lemma dispatch_length l w : List.length (fst (dispatch l w)) = List.length l.
Proof.
  revert w. induction l as [| x l IH]; intros w; [reflexivity |].
  unfold dispatch in *. simpl.
  destruct (processFn x w) as [o w1]. specialize (IH w1).
  destruct (Batch.dispatch T E W processFn l w1) as [os w2]. simpl in *.
  now rewrite IH.
Qed.

Lemma resolvedCount_app (a b : list (option E)) :
  resolvedCount (a ++ b) = (resolvedCount a + resolvedCount b)%nat.
Proof. unfold resolvedCount. now rewrite filter_app, length_app. Qed.

Lemma rejections_app (a b : list (option E)) :
  rejections (a ++ b) = rejections a ++ rejections b.
Proof.
  induction a as [| [e |] a IH]; simpl; [reflexivity | now rewrite IH | exact IH].
Qed.

Lemma resolved_rejected_length (os : list (option E)) :
  (resolvedCount os + List.length (rejections os) = List.length os)%nat.
Proof.
  unfold resolvedCount.
  induction os as [| [e |] os IH]; simpl in *; lia.
Qed.

Lemma rejections_perm (a b : list (option E)) :
  Permutation a b -> Permutation (rejections a) (rejections b).
Proof.
  induction 1 as [| [e |] a b _ IH | [e1 |] [e2 |] a | a b c _ IH1 _ IH2];
    simpl; auto.
  - apply perm_swap.
  - now transitivity (rejections b).
Qed.

Lemma resolvedCount_perm (a b : list (option E)) :
  Permutation a b -> resolvedCount a = resolvedCount b.
Proof.
  intros H. unfold resolvedCount.
  apply Permutation_length.
  induction H as [| o a b _ IH | o1 o2 a | a b c _ IH1 _ IH2]; simpl; auto.
  - destruct (negb (isRejected o)); auto.
  - destruct (negb (isRejected o1)), (negb (isRejected o2)); auto.
    apply perm_swap.
  - now transitivity (filter (fun o => negb (isRejected o)) b).
Qed.

Lemma indexed_outcomes (os : list (option E)) : map snd (indexed E os) = os.
Proof.
  unfold indexed. generalize 0%nat.
  induction os as [| o os IH]; intros n; simpl; [reflexivity |].
  now rewrite IH.
Qed.

(** The counters after the callbacks of one batch have run. *)
Lemma settleAll_counts settled n results trace :
  let r := fst (settleAll settled n results trace) in
  succeeded r = succeeded results + Z.of_nat (resolvedCount (map snd settled))
  /\ failed r = failed results + Z.of_nat (List.length (rejections (map snd settled)))
  /\ errors r = errors results ++ rejections (map snd settled).
Proof.
  revert results trace.
  induction settled as [| [index [e |]] rest IH]; intros results trace.
  - simpl. rewrite !Z.add_0_r, app_nil_r. auto.
  - specialize (IH {| succeeded := succeeded results;
                      failed := failed results + 1;
                      errors := errors results ++ [e] |} trace).
    unfold settleAll in *. simpl in *.
    destruct IH as (Hs & Hf & He). rewrite Hs, Hf, He.
    unfold resolvedCount. simpl. rewrite <- app_assoc. simpl.
    repeat split; lia.
  - unfold settleAll in *. simpl.
    match goal with
    | |- context [Batch.settleAll T E options rest n ?r ?t] =>
        specialize (IH r t)
    end.
    simpl in IH. destruct IH as (Hs & Hf & He). rewrite Hs, Hf, He.
    unfold resolvedCount. simpl.
    repeat split; lia.
Qed.

Lemma settle_outcomes (os : list (option E)) :
  Permutation (map snd (settle (indexed E os))) os.
Proof.
  rewrite <- (indexed_outcomes os) at 2.
  apply Permutation_map, settle_perm.
Qed.

(** The batch that starts at [i] and what is left after it. *)
Lemma slice_batch (items : list T) (i : Z) :
  0 <= i < Z.of_nat (List.length items) ->
  let b := batchSizeOf E options in
  let rest := skipn (Z.to_nat i) items in
  let m := Z.to_nat (Z.min (i + b) (Z.of_nat (List.length items)) - i) in
  slice items i (i + b) = firstn m rest
  /\ skipn (Z.to_nat (i + b)) items = skipn m rest
  /\ (0 < m)%nat.
Proof.
  intros Hi b rest m. subst rest m. unfold slice. fold b.
  assert (Hb : 0 < b) by exact batch_positive.
  destruct (Z.ltb_spec i 0); [lia |].
  destruct (Z.ltb_spec (i + b) 0); [lia |].
  rewrite (Z.min_l i) by lia.
  repeat split; [| lia].
  rewrite skipn_skipn.
  destruct (Z.le_gt_cases (Z.of_nat (List.length items)) (i + b)).
  - rewrite Z.min_r by lia.
    rewrite !skipn_all2; [reflexivity | lia | lia].
  - rewrite Z.min_l by lia. f_equal. lia.
Qed.

(** The loop from [i] on: it returns, and its counters are those of the
    outcomes of the items from [i] on, called in order. *)
Lemma batchLoop_spec (items : list T) :
  forall fuel i w results trace,
    0 <= i ->
    (0 < fuel)%nat ->
    Z.of_nat (List.length items) - i < Z.of_nat fuel ->
    exists r t w',
      batchLoop fuel items i w results trace = Some (Fulfilled (r, t, w'))
      /\ (let os := fst (dispatch (skipn (Z.to_nat i) items) w) in
          succeeded r = succeeded results + Z.of_nat (resolvedCount os)
          /\ failed r = failed results + Z.of_nat (List.length (rejections os))
          /\ Permutation (errors r) (errors results ++ rejections os)).
Proof.
  induction fuel as [| fuel IH]; intros i w results trace Hi Hpos Hfuel.
  - lia.
  - unfold batchLoop. simpl. fold batchLoop.
    destruct (Z.ltb_spec i (Z.of_nat (List.length items))) as [Hlt | Hge].
    + destruct (slice_batch items i (conj Hi Hlt)) as (Hslice & Hrest & Hm).
      cbv zeta in Hslice, Hrest, Hm.
      set (m := Z.to_nat (Z.min (i + batchSizeOf E options)
                            (Z.of_nat (List.length items)) - i)) in *.
      set (rest := skipn (Z.to_nat i) items) in *.
      rewrite Hslice.
      pose proof (dispatch_app (firstn m rest) (skipn m rest) w) as Happ.
      rewrite firstn_skipn in Happ.
      unfold dispatch in *.
      destruct (Batch.dispatch T E W processFn (firstn m rest) w) as [os1 w1] eqn:Hd1.
      simpl in Happ.
      pose proof (settleAll_counts (settle (indexed E os1))
                    (List.length (firstn m rest)) results
                    (trace ++ map Invoke (firstn m rest))) as Hcounts.
      unfold settleAll in Hcounts.
      destruct (Batch.settleAll T E options (settle (indexed E os1))
                  (List.length (firstn m rest)) results
                  (trace ++ map Invoke (firstn m rest))) as [results1 trace1].
      cbv zeta in Hcounts. simpl fst in Hcounts.
      destruct Hcounts as (Hs & Hf & He).
      rewrite progress_quiet.
      match goal with
      | |- context [batchLoop fuel items _ w1 results1 ?t] =>
          destruct (IH (i + batchSizeOf E options) w1 results1 t)
            as (r & t' & w' & Hrun & Hs' & Hf' & He')
      end; [lia | lia | lia |].
      exists r, t', w'. split; [exact Hrun |].
      cbv zeta in *. rewrite Hrest in Hs', Hf', He'.
      rewrite Happ. simpl fst.
      rewrite resolvedCount_app, rejections_app, length_app.
      pose proof (settle_outcomes os1) as Hp.
      rewrite (resolvedCount_perm _ _ Hp) in Hs.
      pose proof (rejections_perm _ _ Hp) as Hrp.
      rewrite (Permutation_length Hrp) in Hf.
      repeat split; [lia | lia |].
      rewrite He'. rewrite He. rewrite <- app_assoc.
      apply Permutation_app_head, Permutation_app_tail. exact Hrp.
    + exists results, trace, w. split; [reflexivity |].
      cbv zeta. rewrite skipn_all2 by lia. simpl.
      unfold resolvedCount. simpl. rewrite app_nil_r.
      repeat split; [lia | lia | reflexivity].
Qed.
End ExecutorFacts.

(** Why the batch size has to be positive: with [batchSize = 0] the index
    never moves, and on a list that is not empty the loop never ends. *)
Lemma batchLoop_zero_batch_size_diverges
    (T E W : Type) (processFn : T -> W -> option E * W)
    (settle : list (nat * option E) -> list (nat * option E))
    (options : Batch.BatchOptions E) (items : list T) :
  (forall l, Permutation (settle l) l) ->
  Batch.batchSizeOf E options = 0 ->
  (forall p t, Batch.onProgressOf E options p t = None) ->
  items <> [] ->
  forall fuel w results trace,
    Batch.batchLoop T E W processFn settle options fuel items 0 w results trace
    = None.
Proof.
  intros Hperm Hzero Hquiet Hitems.
  induction fuel as [| fuel IH]; intros w results trace; [reflexivity |].
  cbn [Batch.batchLoop]. rewrite Hzero.
  destruct (Z.ltb_spec 0 (Z.of_nat (List.length items))) as [_ | Hlen];
    [| destruct items; [contradiction | simpl in Hlen; lia]].
  replace (Batch.slice items 0 (0 + 0)) with (@nil T)
    by (unfold Batch.slice; simpl; now rewrite Z.sub_diag).
  cbn [Batch.dispatch Batch.indexed List.length seq combine].
  rewrite (Permutation_nil (Permutation_sym (Hperm []))).
  cbn [Batch.settleAll]. rewrite Hquiet. apply IH.
Qed.

(** C3. Whatever the items and the operation, and in whatever order the
    promises of a batch settle, [processBatchedCommits] (with a positive
    [batchSize] and an [onProgress] that does not throw) is fulfilled: given
    fuel for its batches it returns a result whose [succeeded] and [failed]
    add up to the number of items and whose [errors] has [failed] entries;
    [succeeded] counts the fulfilled calls and [errors] holds the errors of
    the rejected ones.  In particular, with 12 items, [batchSize] 5 and an
    operation rejecting exactly the calls at indices 2 and 7, the result has
    [succeeded] 10, [failed] 2 and two [errors]. *)
Theorem processBatchedCommits_partial_failure :
  forall (T E W : Type) (processFn : T -> W -> option E * W)
         (settle : list (nat * option E) -> list (nat * option E))
         (options : Batch.BatchOptions E) (items : list T) (w : W) (fuel : nat),
    (forall l, Permutation (settle l) l) ->
    0 < Batch.batchSizeOf E options ->
    (forall p t, Batch.onProgressOf E options p t = None) ->
    (List.length items < fuel)%nat ->
    exists r trace w',
      Batch.processBatchedCommits T E W processFn settle options fuel items w
      = Some (Batch.Fulfilled (r, trace, w'))
      /\ Batch.succeeded r + Batch.failed r = Z.of_nat (List.length items)
      /\ Z.of_nat (List.length (Batch.errors r)) = Batch.failed r
      /\ Batch.succeeded r
         = Z.of_nat (BatchSpec.resolvedCount (BatchSpec.outcomesOf processFn items w))
      /\ Permutation (Batch.errors r)
           (BatchSpec.rejections (BatchSpec.outcomesOf processFn items w))
      /\ (List.length items = 12%nat ->
          Batch.batchSize options = Some 5 ->
          map BatchSpec.isRejected (BatchSpec.outcomesOf processFn items w)
          = [false; false; true; false; false; false;
             false; true; false; false; false; false] ->
          Batch.succeeded r = 10 /\ Batch.failed r = 2
          /\ List.length (Batch.errors r) = 2%nat).
Proof.
  intros T E W processFn settle options items w fuel Hperm Hb Hquiet Hfuel.
  destruct (batchLoop_spec T E W processFn settle options Hperm Hb Hquiet
              items fuel 0 w
              {| Batch.succeeded := 0; Batch.failed := 0; Batch.errors := [] |} [])
    as (r & t & w' & Hrun & Hs & Hf & He); [lia | lia | lia |].
  cbv zeta in Hs, Hf, He. simpl in Hs, Hf, He.
  fold (BatchSpec.outcomesOf processFn items w) in Hs, Hf, He.
  set (os := BatchSpec.outcomesOf processFn items w) in *.
  assert (Hlen : List.length os = List.length items)
    by apply dispatch_length.
  pose proof (resolved_rejected_length E os) as Hsum.
  pose proof (Permutation_length He) as Hel.
  exists r, t, w'. split; [exact Hrun |].
  split; [lia |]. split; [lia |]. split; [lia |]. split; [exact He |].
  intros H12 _ Hmap.
  assert (Hrej : List.length (BatchSpec.rejections os) = 2%nat).
  { clear - Hmap. revert Hmap. generalize os. clear os. intros os Hmap.
    do 12 (destruct os as [| [?|] os]; try discriminate Hmap).
    destruct os; [reflexivity | discriminate Hmap]. }
  lia.
Qed.

Lemma processBatchedCommits_partial_failure_witness :
  exists r trace w',
    Batch.processBatchedCommits nat string unit BatchScenario.failing
      BatchScenario.lastFirst BatchScenario.batchesOfFive 13
      BatchScenario.items tt
    = Some (Batch.Fulfilled (r, trace, w'))
    /\ Batch.succeeded r = 10 /\ Batch.failed r = 2
    /\ List.length (Batch.errors r) = 2%nat.
Proof.
  destruct (processBatchedCommits_partial_failure nat string unit
              BatchScenario.failing BatchScenario.lastFirst
              BatchScenario.batchesOfFive BatchScenario.items tt 13)
    as (r & trace & w' & Hrun & _ & _ & _ & _ & Hcase).
  - intros l. symmetry. apply Permutation_rev.
  - reflexivity.
  - reflexivity.
  - simpl. lia.
  - exists r, trace, w'. split; [exact Hrun |].
    apply Hcase; reflexivity.
Defined.

(** C10. On an empty list [processBatchedCommits] returns at once
    [{succeeded: 0, failed: 0, errors: []}]: the trace of effects is empty
    (no call of the operation, no [onProgress], no timer) and the state of
    the outside world is the one it started in. *)
Theorem processBatchedCommits_empty :
  forall (T E W : Type) (processFn : T -> W -> option E * W)
         (settle : list (nat * option E) -> list (nat * option E))
         (options : Batch.BatchOptions E) (w : W) (fuel : nat),
    Batch.processBatchedCommits T E W processFn settle options (S fuel) [] w
    = Some (Batch.Fulfilled
              ({| Batch.succeeded := 0; Batch.failed := 0; Batch.errors := [] |},
               [], w)).
Proof. reflexivity. Qed.

(** ** The authenticity checker *)

Section TextFacts.
Import Text.

Lemma lastChar_app (s t : string) :
  t <> "" -> lastChar (s ++ t) = lastChar t.
Proof.
  intros Ht. induction s as [| c s IH]; [reflexivity |].
  simpl. rewrite IH.
  destruct (s ++ t) eqn:Hst; [| reflexivity].
  destruct s; simpl in Hst; [contradiction | discriminate].
Qed.

Lemma chars_app (s t : string) : chars (s ++ t) = (chars s ++ chars t)%list.
Proof. induction s as [| c s IH]; simpl; [reflexivity | now rewrite IH]. Qed.

Lemma chars_inj (s t : string) : chars s = chars t -> s = t.
Proof.
  revert t. induction s as [| c s IH]; intros [| d t] H; simpl in H;
    try discriminate; [reflexivity |].
  injection H as -> H. f_equal. now apply IH.
Qed.
End TextFacts.

Section AuthenticityFacts.
Import Scheduler Authenticity.

(** The last character tells the equal-intervals issue from the others. *)
Lemma render_lastChar (i : AuthIssue) :
  Text.lastChar (render i) =
  match i with
  | TooManyInDay _ _ | SameTime _ _ => Some ")"%char
  | EqualIntervals _ => Some "s"%char
  | LateNight _ _ => Some "M"%char
  end.
Proof.
  destruct i; unfold render;
    repeat (rewrite lastChar_app;
            [| try discriminate;
               match goal with
               | |- (?a ++ ?b)%string <> _ =>
                   destruct a; simpl; discriminate
               end]);
    reflexivity.
Qed.

Lemma render_EqualIntervals_inv (i : AuthIssue) (n : nat) :
  render i = render (EqualIntervals n) -> exists m, i = EqualIntervals m.
Proof.
  intros H. apply (f_equal Text.lastChar) in H.
  rewrite !render_lastChar in H.
  destruct i; try discriminate. eauto.
Qed.

Lemma dayIssues_kind commits i :
  In i (dayIssues commits) -> exists c d, i = TooManyInDay c d.
Proof.
  unfold dayIssues. rewrite in_flat_map.
  intros ([d cs] & _ & Hin).
  destruct (15 <? List.length cs)%nat; simpl in Hin; [| contradiction].
  destruct Hin as [<- | []]. eauto.
Qed.

Lemma timeIssues_kind commits i :
  In i (timeIssues commits) -> exists c d, i = SameTime c d.
Proof.
  unfold timeIssues. rewrite in_flat_map.
  intros ([t c] & _ & Hin).
  destruct (c >? 1); simpl in Hin; [| contradiction].
  destruct Hin as [<- | []]. eauto.
Qed.

Lemma lateNightIssues_kind commits i :
  In i (lateNightIssues commits) -> exists c p, i = LateNight c p.
Proof.
  unfold lateNightIssues.
  destruct (JS.Qltb _ _); simpl; [| contradiction].
  intros [<- | []]. eauto.
Qed.

(** Every interval is the difference of two neighbours. *)
Lemma intervalsOf_In (millis : list Z) (x : Z) :
  In x (intervalsOf millis) ->
  exists i a b,
    nth_error millis i = Some a /\ nth_error millis (S i) = Some b /\ x = b - a.
Proof.
  induction millis as [| a [| b rest] IH]; simpl; try contradiction.
  intros [<- | Hin].
  - exists 0%nat, a, b. auto.
  - destruct (IH Hin) as (i & a' & b' & Ha & Hb & Hx).
    exists (S i), a', b'. auto.
Qed.

Lemma allSame_of_constant (intervals : list Z) (gap : Z) :
  (forall x, In x intervals -> x = gap) -> allSame intervals = true.
Proof.
  intros H. destruct intervals as [| first rest]; [reflexivity |].
  unfold allSame. apply forallb_forall. intros x Hx.
  rewrite (H x Hx), (H first (or_introl eq_refl)). apply Z.eqb_refl.
Qed.
End AuthenticityFacts.

(** C6. With more than 5 commits whose consecutive gaps (in milliseconds)
    are all the same, the result of [checkScheduleAuthenticity] contains the
    equal-intervals issue; with 5 commits or fewer it contains no
    equal-intervals issue, whatever the gaps. *)
Theorem checkScheduleAuthenticity_uniform_spacing :
  forall commits : list Scheduler.ScheduledCommit,
    ((5 < List.length commits)%nat ->
     (exists gap, forall i a b,
         nth_error commits i = Some a ->
         nth_error commits (S i) = Some b ->
         Scheduler.date b - Scheduler.date a = gap) ->
     In (Authenticity.render (Authenticity.EqualIntervals (List.length commits)))
        (Authenticity.checkScheduleAuthenticity commits))
    /\ ((List.length commits <= 5)%nat ->
        forall n, ~ In (Authenticity.render (Authenticity.EqualIntervals n))
                       (Authenticity.checkScheduleAuthenticity commits)).
Proof.
  intros commits. split.
  - intros Hlen [gap Hgap].
    unfold Authenticity.checkScheduleAuthenticity. apply in_map.
    unfold Authenticity.scheduleIssues.
    apply in_or_app; right. apply in_or_app; right. apply in_or_app; left.
    unfold Authenticity.spacingIssues.
    destruct (Nat.ltb_spec 3 (List.length commits)); [| lia].
    destruct (Nat.ltb_spec 5 (List.length commits)); [| lia].
    rewrite (allSame_of_constant _ gap); [left; reflexivity |].
    intros x Hx.
    destruct (intervalsOf_In _ _ Hx) as (i & a & b & Ha & Hb & ->).
    rewrite nth_error_map in Ha, Hb.
    destruct (nth_error commits i) as [ca |] eqn:Hca; [| discriminate].
    destruct (nth_error commits (S i)) as [cb |] eqn:Hcb; [| discriminate].
    simpl in Ha, Hb. injection Ha as <-. injection Hb as <-.
    now apply (Hgap i).
  - intros Hlen n Hin.
    unfold Authenticity.checkScheduleAuthenticity in Hin.
    apply in_map_iff in Hin. destruct Hin as (i & Hrender & Hin).
    destruct (render_EqualIntervals_inv _ _ Hrender) as [m ->].
    unfold Authenticity.scheduleIssues in Hin.
    repeat (apply in_app_or in Hin; destruct Hin as [Hin | Hin]).
    + destruct (dayIssues_kind _ _ Hin) as (c & d & H); discriminate.
    + destruct (timeIssues_kind _ _ Hin) as (c & d & H); discriminate.
    + unfold Authenticity.spacingIssues in Hin.
      destruct (Nat.ltb_spec 5 (List.length commits)); [lia |].
      rewrite andb_false_r in Hin.
      destruct (3 <? List.length commits)%nat; contradiction.
    + destruct (lateNightIssues_kind _ _ Hin) as (c & p & H); discriminate.
Qed.

Lemma checkScheduleAuthenticity_uniform_spacing_witness :
  In "Suspicious pattern: 6 commits are spaced at exactly equal intervals"
     (Authenticity.checkScheduleAuthenticity (HourlyScenario.hourly 6))
  /\ ~ In "Suspicious pattern: 5 commits are spaced at exactly equal intervals"
         (Authenticity.checkScheduleAuthenticity (HourlyScenario.hourly 5)).
Proof.
  split.
  - apply (proj1 (checkScheduleAuthenticity_uniform_spacing (HourlyScenario.hourly 6))).
    + simpl. lia.
    + exists 3600000. intros i a b Ha Hb.
      do 5 (destruct i as [| i];
            [vm_compute in Ha, Hb; injection Ha as <-; injection Hb as <-;
             reflexivity |]).
      destruct i; discriminate.
  - apply (proj2 (checkScheduleAuthenticity_uniform_spacing (HourlyScenario.hourly 5))
             (Nat.le_refl 5) 5%nat).
Defined.

(** ** The pattern validator *)

Section NumberFacts.

Lemma Qltb_true (a b : Q) : JS.Qltb a b = true <-> (a < b)%Q.
Proof.
  unfold JS.Qltb. rewrite negb_true_iff.
  split.
  - intros H. apply Qnot_le_lt. intros Hle.
    apply Qle_bool_iff in Hle. congruence.
  - intros H. destruct (Qle_bool b a) eqn:E; [| reflexivity].
    apply Qle_bool_iff in E. exfalso. exact (Qlt_not_le _ _ H E).
Qed.

Lemma Qltb_false (a b : Q) : JS.Qltb a b = false <-> (b <= a)%Q.
Proof.
  unfold JS.Qltb. rewrite negb_false_iff. apply Qle_bool_iff.
Qed.

Lemma Qleb_true (a b : Q) : JS.Qleb a b = true <-> (a <= b)%Q.
Proof. apply Qle_bool_iff. Qed.

Lemma isInteger_true (q : Q) :
  JS.isInteger q = true <-> exists z, (q == inject_Z z)%Q.
Proof.
  unfold JS.isInteger. rewrite Qeq_bool_iff. split.
  - intros H. eauto.
  - intros [z Hz]. rewrite Hz at 1.
    rewrite (Qfloor_comp _ _ Hz), Qfloor_Z. reflexivity.
Qed.

End NumberFacts.

Section ValidatorFacts.
Import PatternUtils PatternSpec.
Local Open Scope nat_scope.
Local Open Scope list_scope.

Lemma invalidValue_spec (value : Q) :
  invalidValue value = false <-> IntegerInRange value.
Proof.
  unfold invalidValue, IntegerInRange.
  rewrite !orb_false_iff, negb_false_iff, isInteger_true, !Qltb_false.
  split.
  - intros [[[z Hz] H0] H4]. exists z. split; [| exact Hz].
    rewrite Hz in H0, H4.
    change 0%Q with (inject_Z 0) in H0. change 4%Q with (inject_Z 4) in H4.
    rewrite <- Zle_Qle in H0, H4. lia.
  - intros (z & [H0 H4] & Hz). repeat split; [eauto | |]; rewrite Hz.
    + change 0%Q with (inject_Z 0). now rewrite <- Zle_Qle.
    + change 4%Q with (inject_Z 4). now rewrite <- Zle_Qle.
Qed.

Lemma colLoop_app cells row col issues :
  colLoop cells row col issues = issues ++ colLoop cells row col [].
Proof.
  revert col issues. induction cells as [| v rest IH]; intros col issues; simpl.
  - now rewrite app_nil_r.
  - rewrite IH. rewrite (IH _ (if invalidValue v then _ else _)).
    destruct (invalidValue v); simpl; [now rewrite <- app_assoc | reflexivity].
Qed.

Lemma rowLoop_app rows row issues :
  rowLoop rows row issues = issues ++ rowLoop rows row [].
Proof.
  revert row issues. induction rows as [| r rest IH]; intros row issues; simpl.
  - now rewrite app_nil_r.
  - rewrite IH, (IH _ (colLoop r row 0 [])), (colLoop_app r row 0 issues).
    now rewrite app_assoc.
Qed.

Lemma rowLengthLoop_kind rows i first issues x :
  In x (rowLengthLoop rows i first issues) ->
  In x issues \/ exists n len, x = RowLength n len first.
Proof.
  revert i issues. induction rows as [| r rest IH]; intros i issues; simpl.
  - auto.
  - intros H. apply IH in H. destruct H as [H | H]; [| auto].
    destruct (List.length r =? first); [auto |].
    apply in_app_or in H. destruct H as [H | [<- | []]]; eauto.
Qed.

Lemma countAt_app row col a b :
  countAt row col (a ++ b) = countAt row col a + countAt row col b.
Proof. unfold countAt. now rewrite filter_app, length_app. Qed.

Lemma countAt_none row col issues :
  (forall x, In x issues -> atPosition row col x = false) ->
  countAt row col issues = 0.
Proof.
  intros H. unfold countAt.
  induction issues as [| x issues IH]; [reflexivity |].
  simpl. rewrite (H x (or_introl eq_refl)). apply IH.
  intros y Hy. apply H. now right.
Qed.

(** The issues of one row, from column [c0]. *)
Lemma colLoop_count cells row c0 r c :
  countAt r c (colLoop cells row c0 []) =
  if (r =? row) && (c0 <=? c) then
    match nth_error cells (c - c0) with
    | Some v => if invalidValue v then 1 else 0
    | None => 0
    end
  else 0.
Proof.
  revert c0. induction cells as [| v rest IH]; intros c0.
  - cbn [colLoop]. unfold countAt. cbn [filter List.length].
    destruct ((r =? row) && (c0 <=? c)); [| reflexivity].
    now destruct (c - c0).
  - cbn [colLoop]. rewrite colLoop_app, countAt_app, IH. clear IH.
    assert (Hone :
      countAt r c (if invalidValue v then [] ++ [InvalidIntensity v row c0] else [])
      = if invalidValue v && ((row =? r) && (c0 =? c)) then 1 else 0).
    { destruct (invalidValue v); unfold countAt; cbn;
        [destruct ((row =? r) && (c0 =? c)) |]; reflexivity. }
    rewrite Hone. clear Hone.
    rewrite (Nat.eqb_sym row r).
    destruct (Nat.eqb_spec r row) as [-> | Hr]; cbn [andb];
      [| rewrite andb_false_r; reflexivity].
    destruct (Nat.leb_spec c0 c) as [Hle | Hgt].
    + destruct (Nat.eq_dec c0 c) as [-> | Hne].
      * rewrite Nat.eqb_refl, Nat.sub_diag, andb_true_r. cbn [nth_error].
        destruct (Nat.leb_spec (S c) c); [lia |].
        destruct (invalidValue v); reflexivity.
      * destruct (Nat.eqb_spec c0 c); [contradiction |].
        destruct (Nat.leb_spec (S c0) c); [| lia].
        rewrite andb_false_r.
        replace (c - c0) with (S (c - S c0)) by lia. reflexivity.
    + destruct (Nat.eqb_spec c0 c); [lia |].
      destruct (Nat.leb_spec (S c0) c); [lia |].
      now rewrite andb_false_r.
Qed.

Lemma rowLoop_count rows r0 r c :
  countAt r c (rowLoop rows r0 []) =
  if r0 <=? r then
    match nth_error rows (r - r0) with
    | Some cells =>
        match nth_error cells c with
        | Some v => if invalidValue v then 1 else 0
        | None => 0
        end
    | None => 0
    end
  else 0.
Proof.
  revert r0. induction rows as [| cells rest IH]; intros r0.
  - cbn [rowLoop]. unfold countAt. cbn [filter List.length].
    destruct (r0 <=? r); [| reflexivity]. now destruct (r - r0).
  - cbn [rowLoop]. rewrite rowLoop_app, countAt_app, IH, colLoop_count. clear IH.
    change (0 <=? c) with true. rewrite andb_true_r, Nat.sub_0_r.
    destruct (Nat.leb_spec r0 r) as [Hle | Hgt].
    + destruct (Nat.eq_dec r r0) as [-> | Hne].
      * rewrite Nat.eqb_refl, Nat.sub_diag. cbn [nth_error].
        destruct (Nat.leb_spec (S r0) r0); [lia |].
        destruct (nth_error cells c) as [v |]; [destruct (invalidValue v) |];
          reflexivity.
      * destruct (Nat.eqb_spec r r0); [contradiction |].
        destruct (Nat.leb_spec (S r0) r); [| lia].
        replace (r - r0) with (S (r - S r0)) by lia. reflexivity.
    + destruct (Nat.eqb_spec r r0); [lia |].
      destruct (Nat.leb_spec (S r0) r); [lia | reflexivity].
Qed.

Lemma cellAt_nth_error (pattern : list (list Q)) (row col : nat) :
  Scheduler.cellAt pattern row col =
  match nth_error pattern row with
  | Some cells => nth_error cells col
  | None => None
  end.
Proof.
  unfold Scheduler.cellAt.
  destruct (nth_error pattern row) as [cells |] eqn:E.
  - now rewrite (nth_error_nth _ _ _ E).
  - apply nth_error_None in E. rewrite nth_overflow by exact E.
    now destruct col.
Qed.

(** The invalid-value issues of a grid that passes the structural checks:
    one for each cell with an invalid value, none for the others. *)
Lemma validatePatternIssues_count pattern row col :
  pattern <> [] -> nth 0 pattern [] <> [] ->
  countAt row col (validatePatternIssues pattern) =
  match Scheduler.cellAt pattern row col with
  | Some v => if invalidValue v then 1 else 0
  | None => 0
  end.
Proof.
  intros Hrows Hcols. unfold validatePatternIssues.
  destruct (Nat.eqb_spec (List.length pattern) 0) as [H0 | _];
    [destruct pattern; [contradiction | discriminate] |].
  destruct (Nat.eqb_spec (List.length (nth 0 pattern [])) 0) as [H0 | _];
    [destruct (nth 0 pattern []); [contradiction | discriminate] |].
  set (lengthIssues := rowLengthLoop (tl pattern) 1 _ []).
  assert (Hlen : countAt row col lengthIssues = 0).
  { apply countAt_none. intros x Hx. subst lengthIssues.
    apply rowLengthLoop_kind in Hx.
    destruct Hx as [[] | (n & len & ->)]. reflexivity. }
  assert (Hmain : countAt row col (rowLoop pattern 0 lengthIssues) =
                  match Scheduler.cellAt pattern row col with
                  | Some v => if invalidValue v then 1 else 0
                  | None => 0
                  end).
  { rewrite rowLoop_app, countAt_app, Hlen, rowLoop_count, cellAt_nth_error.
    change (0 <=? row) with true. cbn [plus]. rewrite Nat.sub_0_r.
    destruct (nth_error pattern row); reflexivity. }
  destruct (365 <? _); [| exact Hmain].
  rewrite countAt_app, Hmain. unfold countAt. cbn. lia.
Qed.

(** Every invalid-value issue carries the value of the cell it names. *)
Lemma colLoop_In cells row c0 v r c :
  In (InvalidIntensity v r c) (colLoop cells row c0 []) ->
  r = row /\ c0 <= c /\ nth_error cells (c - c0) = Some v.
Proof.
  revert c0. induction cells as [| x rest IH]; intros c0; cbn [colLoop].
  - intros [].
  - rewrite colLoop_app. intros H. apply in_app_or in H. destruct H as [H | H].
    + destruct (invalidValue x); [| destruct H].
      destruct H as [H | []]. injection H as -> -> ->.
      rewrite Nat.sub_diag. auto.
    + apply IH in H. destruct H as (-> & Hle & Hnth).
      repeat split; [lia |].
      replace (c - c0) with (S (c - S c0)) by lia. exact Hnth.
Qed.

Lemma rowLoop_In rows r0 v r c :
  In (InvalidIntensity v r c) (rowLoop rows r0 []) ->
  exists cells, r0 <= r /\ nth_error rows (r - r0) = Some cells
                /\ nth_error cells c = Some v.
Proof.
  revert r0. induction rows as [| cells rest IH]; intros r0; cbn [rowLoop].
  - intros [].
  - rewrite rowLoop_app. intros H. apply in_app_or in H. destruct H as [H | H].
    + apply colLoop_In in H. destruct H as (-> & _ & Hnth).
      exists cells. rewrite Nat.sub_diag, Nat.sub_0_r in *. auto.
    + apply IH in H. destruct H as (cs & Hle & Hrow & Hcell).
      exists cs. repeat split; [lia | | exact Hcell].
      replace (r - r0) with (S (r - S r0)) by lia. exact Hrow.
Qed.

Lemma validatePatternIssues_In pattern v row col :
  In (InvalidIntensity v row col) (validatePatternIssues pattern) ->
  Scheduler.cellAt pattern row col = Some v.
Proof.
  unfold validatePatternIssues.
  destruct (List.length pattern =? 0).
  { intros [H | []]; discriminate. }
  destruct (List.length (nth 0 pattern []) =? 0).
  { intros [H | []]; discriminate. }
  intros H.
  assert (Hin : In (InvalidIntensity v row col)
                  (rowLoop pattern 0
                     (rowLengthLoop (tl pattern) 1
                        (List.length (nth 0 pattern [])) []))).
  { destruct (365 <? _); [| exact H].
    apply in_app_or in H. destruct H as [H | [H | []]];
      [exact H | discriminate]. }
  clear H. rewrite rowLoop_app in Hin. apply in_app_or in Hin.
  destruct Hin as [Hin | Hin].
  - apply rowLengthLoop_kind in Hin.
    destruct Hin as [[] | (n & len & Hx)]. discriminate.
  - apply rowLoop_In in Hin. destruct Hin as (cells & _ & Hrow & Hcell).
    rewrite Nat.sub_0_r in Hrow.
    now rewrite cellAt_nth_error, Hrow.
Qed.

Lemma countAt_positive_In row col issues :
  0 < countAt row col issues ->
  exists v, In (InvalidIntensity v row col) issues.
Proof.
  unfold countAt. induction issues as [| x issues IH]; cbn [filter].
  - cbn. lia.
  - destruct (atPosition row col x) eqn:E.
    + intros _. destruct x; try discriminate E.
      cbn in E. apply andb_true_iff in E. destruct E as [Er Ec].
      apply Nat.eqb_eq in Er, Ec. subst. exists value. now left.
    + intros H. destruct (IH H) as [v Hv]. exists v. now right.
Qed.
End ValidatorFacts.



(** ** The schedule mapper *)

Section RandFacts.
Context {A B : Type}.

Lemma bind_Ok (m : Rand A) (f : A -> Rand B) rand k b k' :
  bind m f rand k = Ok (b, k') ->
  exists a k1, m rand k = Ok (a, k1) /\ f a rand k1 = Ok (b, k').
Proof.
  unfold bind. destruct (m rand k) as [[a k1] | msg]; [eauto | discriminate].
Qed.

Lemma bind_Ok_intro (m : Rand A) (f : A -> Rand B) rand k a k1 :
  m rand k = Ok (a, k1) -> bind m f rand k = f a rand k1.
Proof. unfold bind. now intros ->. Qed.

Lemma bind_Err_intro (m : Rand A) (f : A -> Rand B) rand k msg :
  m rand k = Err msg -> bind m f rand k = Err msg.
Proof. unfold bind. now intros ->. Qed.

Lemma rethrow_Ok (prefix : string) (m : Rand A) rand k x :
  rethrow prefix m rand k = Ok x <-> m rand k = Ok x.
Proof.
  unfold rethrow. destruct (m rand k); split; intros H;
    try discriminate; exact H.
Qed.

Lemma rethrow_Err (prefix : string) (m : Rand A) rand k :
  (exists msg, rethrow prefix m rand k = Err msg)
  <-> (exists msg, m rand k = Err msg).
Proof.
  unfold rethrow. destruct (m rand k); split; intros [msg' H];
    try discriminate; eauto.
Qed.
End RandFacts.

Section SortFacts.
Import DateUtils.
Context {A : Type} (key : A -> Z).

Let ordered (a b : A) : Prop := key a <= key b.

Lemma insertBy_perm x l : Permutation (insertBy key x l) (x :: l).
Proof.
  induction l as [| y l IH]; simpl; [reflexivity |].
  destruct (key x <=? key y); [reflexivity |].
  rewrite IH. apply perm_swap.
Qed.

Lemma sortBy_perm l : Permutation (sortBy key l) l.
Proof.
  induction l as [| x l IH]; simpl; [reflexivity |].
  rewrite insertBy_perm. now apply perm_skip.
Qed.

Lemma insertBy_HdRel a x l :
  ordered a x -> HdRel ordered a l -> HdRel ordered a (insertBy key x l).
Proof.
  intros Hax Hal. destruct l as [| y l]; simpl.
  - now constructor.
  - destruct (key x <=? key y); constructor; [exact Hax |].
    now inversion Hal.
Qed.

Lemma insertBy_sorted x l :
  Sorted ordered l -> Sorted ordered (insertBy key x l).
Proof.
  induction 1 as [| y l Hl IH Hhd]; simpl.
  - repeat constructor.
  - destruct (Z.leb_spec (key x) (key y)) as [Hle | Hgt].
    + constructor; [now constructor | now constructor].
    + constructor; [exact IH |].
      apply insertBy_HdRel; [unfold ordered; lia | exact Hhd].
Qed.

Lemma sortBy_sorted l : Sorted ordered (sortBy key l).
Proof.
  induction l as [| x l IH]; simpl; [constructor | now apply insertBy_sorted].
Qed.

Lemma sorted_adjacent l :
  Sorted ordered l ->
  forall i a b,
    nth_error l i = Some a -> nth_error l (S i) = Some b -> key a <= key b.
Proof.
  induction 1 as [| x l Hl IH Hhd]; intros i a b Ha Hb.
  - destruct i; discriminate.
  - destruct i as [| i].
    + simpl in Ha, Hb. injection Ha as <-.
      destruct l as [| y l]; [discriminate |].
      simpl in Hb. injection Hb as <-. now inversion Hhd.
    + exact (IH i a b Ha Hb).
Qed.
End SortFacts.

Section MapperShape.
Import Scheduler.

(** A run that returns went through the three checks and the sort. *)
Lemma mapPatternToSchedule_Ok options rand k commits k' :
  mapPatternToSchedule options rand k = Ok (commits, k') ->
  let rows := List.length (pattern options) in
  let cols := List.length (nth 0%nat (pattern options) []) in
  let totalDays := totalDaysOf (startDate options) (endDate options) in
  rows <> 0%nat /\ cols <> 0%nat /\ 1 <= totalDays
  /\ exists scheduledCommits,
      rowLoop options cols totalDays (daysPerCellOf totalDays rows cols)
        rows 0%nat [] rand k = Ok (scheduledCommits, k')
      /\ commits = DateUtils.sortBy date scheduledCommits.
Proof.
  intros H. unfold mapPatternToSchedule in H. apply rethrow_Ok in H.
  cbv zeta.
  destruct (Nat.eqb_spec (List.length (pattern options)) 0); [discriminate |].
  destruct (Nat.eqb_spec (List.length (nth 0%nat (pattern options) [])) 0);
    [discriminate |].
  destruct (Z.ltb_spec (totalDaysOf (startDate options) (endDate options)) 1);
    [discriminate |].
  apply bind_Ok in H. destruct H as (l & k1 & Hloop & Hret).
  unfold ret in Hret. injection Hret as <- <-.
  repeat split; try assumption. eauto.
Qed.
End MapperShape.

(** C1. Whenever [mapPatternToSchedule] returns, the commits it returns are
    in ascending order of timestamp: each commit is no later than the next
    one. *)
Theorem mapPatternToSchedule_sorted :
  forall (options : Scheduler.CommitScheduleOptions) (rand : nat -> Q)
         (k k' : nat) (commits : list Scheduler.ScheduledCommit),
    Scheduler.mapPatternToSchedule options rand k = Ok (commits, k') ->
    forall i a b,
      nth_error commits i = Some a ->
      nth_error commits (S i) = Some b ->
      Scheduler.date a <= Scheduler.date b.
Proof.
  intros options rand k k' commits H.
  apply mapPatternToSchedule_Ok in H.
  destruct H as (_ & _ & _ & l & _ & ->).
  apply sorted_adjacent, sortBy_sorted.
Qed.

Lemma mapPatternToSchedule_sorted_witness :
  Scheduler.mapPatternToSchedule MapperScenario.twoDays MapperScenario.rnd 0%nat
  = Ok (MapperScenario.scheduleOf MapperScenario.twoDays, 14%nat)
  /\ List.length (MapperScenario.scheduleOf MapperScenario.twoDays) = 3%nat
  /\ forall i a b,
      nth_error (MapperScenario.scheduleOf MapperScenario.twoDays) i = Some a ->
      nth_error (MapperScenario.scheduleOf MapperScenario.twoDays) (S i) = Some b ->
      Scheduler.date a <= Scheduler.date b.
Proof.
  assert (H : Scheduler.mapPatternToSchedule MapperScenario.twoDays MapperScenario.rnd 0%nat
              = Ok (MapperScenario.scheduleOf MapperScenario.twoDays, 14%nat))
    by (vm_compute; reflexivity).
  split; [exact H |]. split; [vm_compute; reflexivity |].
  exact (mapPatternToSchedule_sorted _ _ _ _ _ H).
Defined.

Section ShowNatFacts.
Import Text.
Local Open Scope list_scope.

Lemma string_of_uint_plain (d : Decimal.uint) :
  Forall plain (chars (NilEmpty.string_of_uint d)).
Proof.
  induction d; simpl; constructor; try assumption;
    split; discriminate.
Qed.

Lemma showNat_plain (n : nat) : Forall plain (chars (JS.showNat n)).
Proof.
  unfold JS.showNat, NilZero.string_of_uint.
  destruct (Nat.to_uint n); try apply string_of_uint_plain.
  simpl. constructor; [split; discriminate | constructor].
Qed.

Lemma showNat_parse (n : nat) :
  option_map Nat.of_uint (NilZero.uint_of_string (JS.showNat n)) = Some n.
Proof.
  unfold JS.showNat.
  pose proof (DecimalNat.Unsigned.of_to n) as Hn.
  destruct (Nat.to_uint n) eqn:E;
    try (rewrite NilZero.usu by discriminate; simpl option_map; now f_equal).
  simpl in *. now f_equal.
Qed.

Lemma showNat_inj (n m : nat) : JS.showNat n = JS.showNat m -> n = m.
Proof.
  intros H. pose proof (showNat_parse n) as Hn.
  rewrite H, showNat_parse in Hn. now injection Hn.
Qed.

(** Two texts cut at the first separator agree on both sides. *)
Lemma split_at_separator (sep : ascii) (l1 l2 t1 t2 : list ascii) :
  Forall (fun c => c <> sep) l1 ->
  Forall (fun c => c <> sep) l2 ->
  l1 ++ sep :: t1 = l2 ++ sep :: t2 ->
  l1 = l2 /\ t1 = t2.
Proof.
  intros H1. revert l2.
  induction H1 as [| c l1 Hc _ IH]; intros l2 H2 Heq.
  - destruct H2 as [| d l2 Hd _]; simpl in Heq.
    + injection Heq as ->. auto.
    + injection Heq as -> _. contradiction.
  - destruct H2 as [| d l2 Hd H2]; simpl in Heq.
    + injection Heq as <- _. contradiction.
    + injection Heq as <- Heq. destruct (IH l2 H2 Heq) as [-> ->]. auto.
Qed.

Lemma append_inv_head (p a b : string) : (p ++ a = p ++ b)%string -> a = b.
Proof.
  induction p as [| c p IH]; simpl; [auto |].
  intros H. injection H as H. auto.
Qed.

(** A cell label determines its cell. *)
Lemma cellMessage_inj (row col row' col' : nat) :
  Scheduler.cellMessage row col = Scheduler.cellMessage row' col' ->
  row = row' /\ col = col'.
Proof.
  unfold Scheduler.cellMessage. intros H.
  apply append_inv_head in H.
  apply (f_equal chars) in H. rewrite !chars_app in H. simpl in H.
  apply (split_at_separator ","%char) in H.
  - destruct H as [Hrow Hcol].
    apply chars_inj, showNat_inj in Hrow.
    apply (split_at_separator "]"%char) in Hcol.
    + destruct Hcol as [Hcol _]. apply chars_inj, showNat_inj in Hcol. auto.
    + eapply Forall_impl; [| apply showNat_plain]. intros c [_ Hc]. exact Hc.
    + eapply Forall_impl; [| apply showNat_plain]. intros c [_ Hc]. exact Hc.
  - eapply Forall_impl; [| apply showNat_plain]. intros c [Hc _]. exact Hc.
  - eapply Forall_impl; [| apply showNat_plain]. intros c [Hc _]. exact Hc.
Qed.
End ShowNatFacts.

Section Truncation.
Import Scheduler MapperSpec.

Variable options : CommitScheduleOptions.
Variables (cols : nat) (totalDays daysPerCell : Z).

Let live := fromLiveCell cols totalDays daysPerCell.
Let cellStep := cellStep options cols totalDays daysPerCell.
Let colLoop := colLoop options cols totalDays daysPerCell.
Let rowLoop := rowLoop options cols totalDays daysPerCell.

(** A cell beyond the date range ends the row: no error, no commit, no
    random number read. *)
Lemma cellStep_break row col rand k :
  totalDays <= Z.of_nat (row * cols + col) * daysPerCell ->
  cellStep row col rand k = Ok (None, k).
Proof.
  intros H. unfold cellStep, Scheduler.cellStep.
  destruct (Z.geb_spec (Z.of_nat (row * cols + col) * daysPerCell) totalDays);
    [reflexivity | lia].
Qed.

Lemma cellStep_live row col rand k commits k' :
  cellStep row col rand k = Ok (Some commits, k') -> Forall live commits.
Proof.
  unfold cellStep, Scheduler.cellStep.
  destruct (Z.geb_spec (Z.of_nat (row * cols + col) * daysPerCell) totalDays)
    as [Hout | Hin]; [discriminate |].
  destruct (isEmptyCell _).
  { intros H. injection H as <- _. constructor. }
  intros H. apply bind_Ok in H. destruct H as ([|] & k1 & _ & H).
  { injection H as <- _. constructor. }
  apply bind_Ok in H. destruct H as (noise & k2 & _ & H).
  apply bind_Ok in H. destruct H as (times & k3 & _ & H).
  injection H as <- _.
  apply Forall_forall. intros e He. apply in_map_iff in He.
  destruct He as (t & <- & _). exists row, col. split; [reflexivity | exact Hin].
Qed.

Lemma colLoop_live n row : forall col acc rand k res k',
  Forall live acc ->
  colLoop n row col acc rand k = Ok (res, k') -> Forall live res.
Proof.
  induction n as [| n IH]; intros col acc rand k res k' Hacc H.
  - injection H as <- _. exact Hacc.
  - unfold colLoop in *. cbn [Scheduler.colLoop] in H.
    apply bind_Ok in H. destruct H as ([commits |] & k1 & Hstep & H).
    + refine (IH _ _ _ _ _ _ _ H).
      apply Forall_app. split; [exact Hacc |].
      exact (cellStep_live _ _ _ _ _ _ Hstep).
    + injection H as <- _. exact Hacc.
Qed.

Lemma rowLoop_live n : forall row acc rand k res k',
  Forall live acc ->
  rowLoop n row acc rand k = Ok (res, k') -> Forall live res.
Proof.
  induction n as [| n IH]; intros row acc rand k res k' Hacc H.
  - injection H as <- _. exact Hacc.
  - unfold rowLoop in *. cbn [Scheduler.rowLoop] in H.
    apply bind_Ok in H. destruct H as (acc1 & k1 & Hrow & H).
    apply (IH _ _ _ _ _ _ (colLoop_live _ _ _ _ _ _ _ _ Hacc Hrow) H).
Qed.
End Truncation.

(** C2. Whenever [mapPatternToSchedule] returns, no commit of the schedule
    comes from a cell whose row-major index [idx] has
    [idx * daysPerCell >= totalDays], in whatever row the cell lies: no
    commit carries the label of such a cell, and the loop body on such a
    cell only leaves the row (no error, no commit, no random number). *)
Theorem mapPatternToSchedule_truncates :
  forall (options : Scheduler.CommitScheduleOptions) (rand : nat -> Q)
         (k k' : nat) (commits : list Scheduler.ScheduledCommit),
    Scheduler.mapPatternToSchedule options rand k = Ok (commits, k') ->
    let rows := List.length (Scheduler.pattern options) in
    let cols := List.length (nth 0%nat (Scheduler.pattern options) []) in
    let totalDays :=
      Scheduler.totalDaysOf (Scheduler.startDate options) (Scheduler.endDate options) in
    let daysPerCell := Scheduler.daysPerCellOf totalDays rows cols in
    forall row col,
      Z.of_nat (row * cols + col) * daysPerCell >= totalDays ->
      (forall e, In e commits ->
                 Scheduler.message e <> Scheduler.cellMessage row col)
      /\ MapperSpec.commitsOfCell row col commits = []
      /\ (forall rand' j,
             Scheduler.cellStep options cols totalDays daysPerCell row col rand' j
             = Ok (None, j)).
Proof.
  intros options rand k k' commits H rows cols totalDays daysPerCell row col Hout.
  apply mapPatternToSchedule_Ok in H.
  destruct H as (_ & _ & _ & l & Hloop & ->).
  fold rows cols totalDays daysPerCell in Hloop.
  pose proof (rowLoop_live options cols totalDays daysPerCell rows 0%nat []
                rand k l k' (Forall_nil _) Hloop) as Hlive.
  assert (Hnone : forall e, In e (DateUtils.sortBy Scheduler.date l) ->
                            Scheduler.message e <> Scheduler.cellMessage row col).
  { intros e He Hmsg.
    apply (Permutation_in _ (sortBy_perm Scheduler.date l)) in He.
    rewrite Forall_forall in Hlive.
    destruct (Hlive e He) as (r & c & Hlabel & Hin).
    rewrite Hmsg in Hlabel. apply cellMessage_inj in Hlabel.
    destruct Hlabel as [-> ->]. lia. }
  split; [exact Hnone |]. split.
  - unfold MapperSpec.commitsOfCell.
    induction (DateUtils.sortBy Scheduler.date l) as [| e rest IH];
      [reflexivity |].
    simpl. destruct (String.eqb_spec (Scheduler.message e)
                       (Scheduler.cellMessage row col)) as [Heq | _].
    + exfalso. exact (Hnone e (or_introl eq_refl) Heq).
    + apply IH. intros e' He'. apply Hnone. now right.
  - intros rand' j. apply cellStep_break. lia.
Qed.

Lemma mapPatternToSchedule_truncates_witness :
  Scheduler.mapPatternToSchedule MapperScenario.twoDays MapperScenario.rnd 0%nat
  = Ok (MapperScenario.scheduleOf MapperScenario.twoDays, 14%nat)
  /\ (forall e, In e (MapperScenario.scheduleOf MapperScenario.twoDays) ->
                Scheduler.message e <> "Commit for pattern cell [1,0]")
  /\ MapperSpec.commitsOfCell 1 0 (MapperScenario.scheduleOf MapperScenario.twoDays) = [].
Proof.
  assert (H : Scheduler.mapPatternToSchedule MapperScenario.twoDays MapperScenario.rnd 0%nat
              = Ok (MapperScenario.scheduleOf MapperScenario.twoDays, 14%nat))
    by (vm_compute; reflexivity).
  split; [exact H |].
  destruct (mapPatternToSchedule_truncates _ _ _ _ _ H 1%nat 0%nat) as (Hnone & Hcell & _).
  - vm_compute. discriminate.
  - split; [exact Hnone | exact Hcell].
Defined.

Section GenerationFacts.
Import DateUtils.

Lemma randomCommitTime_Ok baseDt workHoursOnly rand k :
  exists t k', randomCommitTime baseDt workHoursOnly rand k = Ok (t, k').
Proof.
  unfold randomCommitTime, bind, random, ret.
  destruct workHoursOnly; [eauto |].
  destruct (JS.Qltb (rand k) (Double.nearest (7 # 10))); eauto.
Qed.

(** The loop of [generateRandomCommitTimes] does not throw and pushes one
    time per turn. *)
Lemma randomCommitTimes_Ok n baseDt workHoursOnly : forall result rand k,
  exists times k',
    randomCommitTimes n baseDt workHoursOnly result rand k = Ok (times, k')
    /\ List.length times = (List.length result + n)%nat.
Proof.
  induction n as [| n IH]; intros result rand k.
  - exists result, k. split; [reflexivity | lia].
  - cbn [randomCommitTimes].
    destruct (randomCommitTime_Ok baseDt workHoursOnly rand k) as (t & k1 & Ht).
    rewrite (bind_Ok_intro _ _ _ _ _ _ Ht).
    destruct (IH (result ++ [t])%list rand k1) as (times & k' & Hrun & Hlen).
    exists times, k'. split; [exact Hrun |].
    rewrite Hlen, length_app. simpl. lia.
Qed.

Lemma generateRandomCommitTimes_count baseDate count workHoursOnly rand k :
  0 <= count ->
  exists times k',
    generateRandomCommitTimes baseDate (Some count) workHoursOnly rand k
    = Ok (times, k')
    /\ Z.of_nat (List.length times) = count.
Proof.
  intros Hcount. unfold generateRandomCommitTimes.
  destruct (Z.ltb_spec count 0); [lia |].
  destruct (randomCommitTimes_Ok (Z.to_nat count) baseDate workHoursOnly [] rand k)
    as (times & k' & Hrun & Hlen).
  rewrite (bind_Ok_intro _ _ _ _ _ _ Hrun).
  exists (sortBy (fun t => t) times), k'. split; [reflexivity |].
  rewrite (Permutation_length (sortBy_perm _ times)), Hlen. simpl. lia.
Qed.

Lemma generateRandomCommitTimes_negative baseDate count workHoursOnly rand k :
  count < 0 ->
  generateRandomCommitTimes baseDate (Some count) workHoursOnly rand k
  = Err "Count must be a non-negative number".
Proof.
  intros Hcount. unfold generateRandomCommitTimes.
  destruct (Z.ltb_spec count 0); [reflexivity | lia].
Qed.
End GenerationFacts.

(** Rounding to a double keeps the sign, and does not leave the interval
    from 1/2 to 3/2. *)
Section DoubleFacts.
Import Double.

Lemma nearestEven_lower (A N D : Z) : 0 < D -> A * D <= N -> A <= nearestEven N D.
Proof.
intros HD H. unfold nearestEven. cbv zeta.
assert (A <= N / D) by (apply Z.div_le_lower_bound; lia).
destruct (2 * (N mod D) <? D); [lia |].
destruct (D <? 2 * (N mod D)); [lia |].
destruct (Z.even (N / D)); lia.
Qed.

Lemma nearestEven_upper (B N D : Z) : 0 < D -> N <= B * D -> nearestEven N D <= B.
Proof.
intros HD H. unfold nearestEven. cbv zeta.
pose proof (Z.div_mod N D ltac:(lia)) as Hdm.
pose proof (Z.mod_pos_bound N D HD) as Hr.
assert (Hle : N / D <= B) by (apply Z.div_le_upper_bound; lia).
destruct (Z.ltb_spec (2 * (N mod D)) D); [lia |].
assert (N / D < B) by nia.
destruct (D <? 2 * (N mod D)); [lia |].
destruct (Z.even (N / D)); lia.
Qed.

Lemma ofMantissa_nonneg (m e : Z) : 0 <= m -> (0 <= ofMantissa m e)%Q.
Proof.
intros Hm. unfold ofMantissa.
destruct (0 <=? e) eqn:He.
- rewrite <- (Zle_Qle 0). apply Z.leb_le in He.
  apply Z.mul_nonneg_nonneg; [exact Hm | apply Z.pow_nonneg; lia].
- unfold Qle. simpl. lia.
Qed.

Lemma scaled_positive (n d e : Z) :
0 < n -> 0 < d -> 0 < fst (scaled n d e) /\ 0 < snd (scaled n d e).
Proof.
intros Hn Hd. unfold scaled.
destruct (Z.leb_spec 0 e); cbn [fst snd].
- split; [exact Hn |]. apply Z.mul_pos_pos; [exact Hd | apply Z.pow_pos_nonneg; lia].
- split; [| exact Hd]. apply Z.mul_pos_pos; [exact Hn | apply Z.pow_pos_nonneg; lia].
Qed.

Lemma nearestOfPositive_nonneg (n d : Z) :
0 < n -> 0 < d -> (0 <= nearestOfPositive n d)%Q.
Proof.
intros Hn Hd. unfold nearestOfPositive. cbv zeta.
apply ofMantissa_nonneg.
match goal with
| |- 0 <= nearestEven (fst (scaled n d ?e)) (snd (scaled n d ?e)) =>
    destruct (scaled_positive n d e Hn Hd) as [HN HD]
end.
apply nearestEven_lower; lia.
Qed.

Lemma nearest_nonneg (q : Q) : (0 <= q)%Q -> (0 <= nearest q)%Q.
Proof.
destruct q as [n d]. unfold nearest, Qle. cbn [Qnum Qden].
destruct n as [| p | p]; intros H.
- discriminate.
- change (0 * QDen (nearestOfPositive (Z.pos p) (Z.pos d)) <= Qnum (nearestOfPositive (Z.pos p) (Z.pos d)) * 1)
    with (0 <= nearestOfPositive (Z.pos p) (Z.pos d))%Q.
  apply nearestOfPositive_nonneg; lia.
- lia.
Qed.

(** Rounding does not leave the interval from 1/2 to 3/2. *)
Lemma nearestOfPositive_half_range (n d : Z) :
0 < n -> 0 < d -> d <= 2 * n -> 2 * n <= 3 * d ->
((1 # 2) <= nearestOfPositive n d <= (3 # 2))%Q.
Proof.
intros Hn Hd Hlo Hhi.
pose proof (Z.log2_spec n Hn) as [Hn1 Hn2].
pose proof (Z.log2_spec d Hd) as [Hd1 Hd2].
pose proof (Z.log2_nonneg n) as Hln. pose proof (Z.log2_nonneg d) as Hld.
assert (Hk : -1 <= Z.log2 n - Z.log2 d <= 1).
{ split.
  - destruct (Z.le_gt_cases (Z.log2 d) (Z.log2 n + 1)) as [| Hgt]; [lia |].
    assert (2 ^ (Z.succ (Z.log2 n) + 1) <= 2 ^ Z.log2 d)
      by (apply Z.pow_le_mono_r; lia).
    rewrite Z.pow_add_r in H by lia. change (2 ^ 1) with 2 in H. lia.
  - destruct (Z.le_gt_cases (Z.log2 n) (Z.log2 d + 1)) as [| Hgt]; [lia |].
    assert (2 ^ (Z.succ (Z.log2 d) + 1) <= 2 ^ Z.log2 n)
      by (apply Z.pow_le_mono_r; lia).
    rewrite Z.pow_add_r in H by lia. change (2 ^ 1) with 2 in H. lia. }
unfold nearestOfPositive. cbv zeta.
set (e0 := Z.max minExponent (Z.log2 n - Z.log2 d - precision)).
assert (He0 : e0 = -54 \/ e0 = -53 \/ e0 = -52)
  by (subst e0; unfold minExponent, precision; lia).
set (e := if 2 ^ precision <=? fst (scaled n d e0) / snd (scaled n d e0)
          then e0 + 1 else e0).
assert (He : e = -54 \/ e = -53 \/ e = -52 \/ e = -51)
  by (subst e; destruct (_ <=? _); lia).
clearbody e. clear e0 He0 Hk.
assert (Hcase : forall s : Z,
           0 < s -> e = - s ->
           forall p : Z, 2 * p = 2 ^ s ->
           ((1 # 2) <= ofMantissa (nearestEven (fst (scaled n d e))
                                     (snd (scaled n d e))) e <= (3 # 2))%Q).
{ intros s Hs -> p Hp.
  unfold scaled, ofMantissa.
  destruct (Z.leb_spec 0 (- s)); [lia |]. cbn [fst snd].
  rewrite Z.opp_involutive.
  pose proof (nearestEven_lower p (n * 2 ^ s) d Hd ltac:(nia)) as Hlow.
  pose proof (nearestEven_upper (3 * p) (n * 2 ^ s) d Hd ltac:(nia)) as Hup.
  assert (Hpos : 0 < 2 ^ s) by (apply Z.pow_pos_nonneg; lia).
  unfold Qle. cbn [Qnum Qden]. rewrite Z2Pos.id by exact Hpos. lia. }
destruct He as [He | [He | [He | He]]].
- apply (Hcase 54 ltac:(lia) He (2 ^ 53)). reflexivity.
- apply (Hcase 53 ltac:(lia) He (2 ^ 52)). reflexivity.
- apply (Hcase 52 ltac:(lia) He (2 ^ 51)). reflexivity.
- apply (Hcase 51 ltac:(lia) He (2 ^ 50)). reflexivity.
Qed.

Lemma nearest_half_range (q : Q) :
((1 # 2) <= q <= (3 # 2))%Q -> ((1 # 2) <= nearest q <= (3 # 2))%Q.
Proof.
destruct q as [n d]. unfold nearest, Qle. cbn [Qnum Qden].
intros [Hlo Hhi].
destruct n as [| p | p]; try lia.
apply nearestOfPositive_half_range; lia.
Qed.
End DoubleFacts.

(** The rounding on known doubles: [0.1 + 0.2] is [0.30000000000000004]
    (1351079888211149 / 2^52), [0.7] is 3152519739159347 / 2^52,
    [23 / 40 * 100] is [57.49999999999999], half of the least positive
    number is zero. *)
Example double_examples :
  (Double.add (Double.nearest (1 # 10)) (Double.nearest (2 # 10))
   == 1351079888211149 # 4503599627370496)%Q
  /\ (Double.nearest (7 # 10) == 3152519739159347 # 4503599627370496)%Q
  /\ JS.floor (Double.mul (Double.div 23 40) 100) = 57
  /\ (Double.mul (1 # Z.to_pos (2 ^ 1074)) (1 # 2) == 0)%Q.
Proof. repeat split; vm_compute; reflexivity. Qed.

Section CeilingFacts.

Lemma ceil_positive (q : Q) : (0 < q)%Q -> 1 <= JS.ceil q.
Proof.
  intros Hq. unfold JS.ceil.
  pose proof (Qle_ceiling q) as Hc.
  assert (H : (inject_Z 0 < inject_Z (Qceiling q))%Q)
    by (eapply Qlt_le_trans; [exact Hq | exact Hc]).
  rewrite <- Zlt_Qlt in H. lia.
Qed.

Lemma ceil_positive_inv (q : Q) : 1 <= JS.ceil q -> (0 < q)%Q.
Proof.
  intros H. unfold JS.ceil in H.
  eapply Qle_lt_trans; [| apply Qceiling_lt].
  rewrite <- (Zle_Qle 0). lia.
Qed.

Lemma ceil_nonneg (q : Q) : (0 <= q)%Q -> 0 <= JS.ceil q.
Proof.
  intros Hq. unfold JS.ceil.
  pose proof (Qle_ceiling q) as Hc.
  assert (H : (inject_Z 0 <= inject_Z (Qceiling q))%Q)
    by (eapply Qle_trans; [exact Hq | exact Hc]).
  now rewrite <- Zle_Qle in H.
Qed.

Lemma noise_range (r : Q) :
  (0 <= r < 1)%Q -> ((1 # 2) <= Double.add (1 # 2) r <= (3 # 2))%Q.
Proof.
  intros [H0 H1]. apply nearest_half_range. split.
  - rewrite <- (Qplus_0_r (1 # 2)) at 1. apply Qplus_le_r. exact H0.
  - setoid_replace (3 # 2)%Q with ((1 # 2) + 1)%Q by reflexivity.
    apply Qplus_le_r. apply Qlt_le_weak. exact H1.
Qed.

End CeilingFacts.

Section CellFacts.
Import Calendar Scheduler.

Variable options : CommitScheduleOptions.
Variables (cols : nat) (totalDays daysPerCell : Z).

(** The loop body on a cell inside the date range with a positive value:
    the weekend draw, the noise draw, then the generation. *)
Lemma cellStep_eval row col rand k v :
  Z.of_nat (row * cols + col) * daysPerCell < totalDays ->
  cellAt (pattern options) row col = Some v ->
  (0 < v)%Q ->
  let baseDate :=
    plusDays (startDate options) (Z.of_nat (row * cols + col) * daysPerCell) in
  let weekend := avoidWeekendsOf options && DateUtils.isWeekend baseDate in
  let k1 := if weekend then S k else k in
  let noise := if randomizeOf options then Double.add (1 # 2) (rand k1) else 1%Q in
  let k2 := if randomizeOf options then S k1 else k1 in
  let count :=
    Z.min (maxCommitsPerDayOf options)
          (JS.ceil (Double.mul (Double.mul v (densityOf options)) noise)) in
  cellStep options cols totalDays daysPerCell row col rand k =
  if weekend && JS.Qltb (Double.nearest (3 # 10)) (rand k) then Ok (Some [], k1)
  else
    match DateUtils.generateRandomCommitTimes baseDate (Some count)
            (workHoursOnlyOf options) rand k2 with
    | Ok (times, k3) =>
        Ok (Some (map (fun t => {| date := t; weight := v;
                                   message := cellMessage row col |}) times), k3)
    | Err msg => Err msg
    end.
Proof.
  intros Hin Hcell Hv. cbv zeta. unfold cellStep.
  destruct (Z.geb_spec (Z.of_nat (row * cols + col) * daysPerCell) totalDays);
    [lia |].
  rewrite Hcell. unfold isEmptyCell.
  destruct (JS.Qleb v 0) eqn:Hle.
  { apply Qleb_true in Hle. exfalso. exact (Qlt_not_le _ _ Hv Hle). }
  unfold commitsForCell, orDefault, bind, random, ret.
  destruct (avoidWeekendsOf options && DateUtils.isWeekend _); cbn [andb].
  - destruct (JS.Qltb (Double.nearest (3 # 10)) (rand k)); [reflexivity |].
    destruct (randomizeOf options);
      destruct (DateUtils.generateRandomCommitTimes _ _ _ _ _) as [[times k3] | msg];
      reflexivity.
  - destruct (randomizeOf options);
      destruct (DateUtils.generateRandomCommitTimes _ _ _ _ _) as [[times k3] | msg];
      reflexivity.
Qed.
End CellFacts.

(** C5 (amended). For a cell inside the date range with a positive value
    that the weekend draw does not skip, the loop body generates exactly
    [min(maxCommitsPerDay, ceil(cellValue * density * noise))] commits, the
    two products being the rounded ones of double arithmetic; [noise] is 1
    without [randomize] and the double nearest to [0.5 + Math.random()] with
    it, a value from 0.5 to 1.5.  A negative count makes
    [generateRandomCommitTimes] throw.  The count is at most the cap, and
    with a cap of at least 1 it is at least 1 exactly when the rounded
    product is positive; with a density that is not negative the product is
    not negative. *)
Theorem cellStep_commit_count :
  forall (options : Scheduler.CommitScheduleOptions)
         (cols : nat) (totalDays daysPerCell : Z) (row col : nat)
         (rand : nat -> Q) (k : nat) (v : Q),
    (forall n, 0 <= rand n < 1)%Q ->
    Z.of_nat (row * cols + col) * daysPerCell < totalDays ->
    Scheduler.cellAt (Scheduler.pattern options) row col = Some v ->
    (0 < v)%Q ->
    let baseDate :=
      Calendar.plusDays (Scheduler.startDate options)
        (Z.of_nat (row * cols + col) * daysPerCell) in
    let weekend :=
      Scheduler.avoidWeekendsOf options && DateUtils.isWeekend baseDate in
    let k1 := if weekend then S k else k in
    let noise :=
      if Scheduler.randomizeOf options then Double.add (1 # 2) (rand k1)
      else 1%Q in
    let product :=
      Double.mul (Double.mul v (Scheduler.densityOf options)) noise in
    let count := Z.min (Scheduler.maxCommitsPerDayOf options) (JS.ceil product) in
    weekend && JS.Qltb (Double.nearest (3 # 10)) (rand k) = false ->
    ((1 # 2) <= noise <= (3 # 2))%Q
    /\ (0 <= count ->
        exists commits k',
          Scheduler.cellStep options cols totalDays daysPerCell row col rand k
          = Ok (Some commits, k')
          /\ Z.of_nat (List.length commits) = count
          /\ Forall (fun e => Scheduler.weight e = v
                              /\ Scheduler.message e = Scheduler.cellMessage row col)
                    commits)
    /\ (count < 0 ->
        Scheduler.cellStep options cols totalDays daysPerCell row col rand k
        = Err "Count must be a non-negative number")
    /\ count <= Scheduler.maxCommitsPerDayOf options
    /\ (1 <= Scheduler.maxCommitsPerDayOf options ->
        (1 <= count <-> (0 < product)%Q))
    /\ ((0 <= Scheduler.densityOf options)%Q -> (0 <= product)%Q).
Proof.
  intros options cols totalDays daysPerCell row col rand k v Hrand Hin Hcell Hv
         baseDate weekend k1 noise product count Hkeep.
  pose proof (cellStep_eval options cols totalDays daysPerCell row col rand k v
                Hin Hcell Hv) as Heval.
  cbv zeta in Heval. fold baseDate weekend k1 noise in Heval.
  fold product in Heval. fold count in Heval.
  fold baseDate weekend in Heval. rewrite Hkeep in Heval.
  assert (Hnoise : ((1 # 2) <= noise <= (3 # 2))%Q).
  { subst noise. destruct (Scheduler.randomizeOf options).
    - apply noise_range, Hrand.
    - split; discriminate. }
  split; [exact Hnoise |]. split; [| split; [| split; [| split]]].
  - intros Hcount.
    destruct (generateRandomCommitTimes_count baseDate count
                (Scheduler.workHoursOnlyOf options) rand
                (if Scheduler.randomizeOf options then S k1 else k1) Hcount)
      as (times & k3 & Hgen & Hlen).
    rewrite Hgen in Heval.
    eexists _, k3. split; [exact Heval |]. split.
    + now rewrite length_map.
    + apply Forall_forall. intros e He. apply in_map_iff in He.
      destruct He as (t & <- & _). split; reflexivity.
  - intros Hcount.
    rewrite (generateRandomCommitTimes_negative _ _ _ _ _ Hcount) in Heval.
    exact Heval.
  - apply Z.le_min_l.
  - intros Hcap. subst count. split.
    + intros H. apply ceil_positive_inv. lia.
    + intros H. apply Z.min_glb; [exact Hcap | apply ceil_positive, H].
  - intros Hd. subst product. unfold Double.mul.
    apply nearest_nonneg. apply Qmult_le_0_compat.
    + apply nearest_nonneg.
      apply Qmult_le_0_compat; [apply Qlt_le_weak, Hv | exact Hd].
    + eapply Qle_trans; [| exact (proj1 Hnoise)]. discriminate.
Qed.

(** C5, as first stated, does not hold.  With a cell value of 3, a density
    of 0.33333333333333337 and no noise the product is 1 in double
    arithmetic and one commit is generated, where the product of the three
    numbers is above 1 and its [ceil] is 2.  With the least positive number
    as cell value and a density of 0.5 the product is rounded to zero and
    no commit is generated, although the value, the density and the cap
    are positive.  With [Math.random()] at its largest value, [1 - 2^-53],
    the noise [0.5 + Math.random()] is rounded to 1.5 itself. *)
Lemma cellStep_count_differs_from_real_formula :
  (let options := MapperScenario.thirds in
   (exists commits k',
       Scheduler.cellStep options 1%nat 2 2 0%nat 0%nat MapperScenario.rnd 0%nat
       = Ok (Some commits, k')
       /\ List.length commits = 1%nat)
   /\ Z.min (Scheduler.maxCommitsPerDayOf options)
            (JS.ceil (3 * Scheduler.densityOf options * 1)) = 2)
  /\ (let options := MapperScenario.tinyCell in
      Scheduler.cellAt (Scheduler.pattern options) 0%nat 0%nat
      = Some (1 # Z.to_pos (2 ^ 1074))
      /\ (0 < Scheduler.densityOf options)%Q
      /\ 1 <= Scheduler.maxCommitsPerDayOf options
      /\ Scheduler.cellStep options 1%nat 2 2 0%nat 0%nat MapperScenario.rnd 0%nat
         = Ok (Some [], 0%nat))
  /\ (let r := (9007199254740991 # 9007199254740992)%Q in
      (0 <= r < 1)%Q /\ (Double.add (1 # 2) r == 3 # 2)%Q).
Proof.
  cbv zeta. split; [split | split].
  - eexists _, _. split; vm_compute; reflexivity.
  - vm_compute. reflexivity.
  - split; [vm_compute; reflexivity |].
    split; [vm_compute; reflexivity |].
    split; [vm_compute; discriminate | vm_compute; reflexivity].
  - split; [split; [discriminate | reflexivity] |].
    vm_compute. reflexivity.
Qed.

Lemma rnd_range : forall n, (0 <= MapperScenario.rnd n < 1)%Q.
Proof.
  intros n. unfold MapperScenario.rnd.
  destruct (n mod 4)%nat as [| [| [| m]]]; split;
    solve [discriminate | reflexivity].
Qed.

Lemma cellStep_commit_count_witness :
  exists commits k',
    Scheduler.cellStep MapperScenario.twoDays 2%nat 2 1 0%nat 1%nat
      MapperScenario.rnd 0%nat
    = Ok (Some commits, k')
    /\ Z.of_nat (List.length commits) = 1
    /\ Forall (fun e => Scheduler.weight e = 2%Q
                        /\ Scheduler.message e = "Commit for pattern cell [0,1]")
              commits.
Proof.
  destruct (cellStep_commit_count MapperScenario.twoDays 2%nat 2 1 0%nat 1%nat
              MapperScenario.rnd 0%nat 2%Q rnd_range)
    as (_ & Hgen & _ & _).
  - reflexivity.
  - reflexivity.
  - reflexivity.
  - vm_compute. reflexivity.
  - apply Hgen. vm_compute. discriminate.
Defined.

Section Totality.
Import Calendar Scheduler.

Variable options : CommitScheduleOptions.
Variables (cols : nat) (totalDays daysPerCell : Z).
Variable rand : nat -> Q.

Hypothesis cap_nonneg : 0 <= maxCommitsPerDayOf options.
Hypothesis density_nonneg : (0 <= densityOf options)%Q.
Hypothesis rand_nonneg : forall n, (0 <= rand n)%Q.

Lemma noise_nonneg k :
  (0 <= (if randomizeOf options then Double.add (1 # 2) (rand k) else 1))%Q.
Proof.
  destruct (randomizeOf options); [| discriminate].
  apply nearest_nonneg.
  apply Qle_trans with (1 # 2)%Q; [discriminate |].
  rewrite <- (Qplus_0_r (1 # 2)) at 1. apply Qplus_le_r, rand_nonneg.
Qed.

(** With a cap and a density that are not negative, the loop body never
    throws. *)
Lemma cellStep_total row col k :
  exists step k',
    cellStep options cols totalDays daysPerCell row col rand k = Ok (step, k').
Proof.
  destruct (Z.le_gt_cases totalDays (Z.of_nat (row * cols + col) * daysPerCell))
    as [Hout | Hin].
  { rewrite cellStep_break by exact Hout. eauto. }
  destruct (cellAt (pattern options) row col) as [v |] eqn:Hcell.
  - destruct (Qlt_le_dec 0 v) as [Hv | Hv].
    + rewrite (cellStep_eval options cols totalDays daysPerCell row col rand k v
                 Hin Hcell Hv).
      cbv zeta. destruct (_ && JS.Qltb _ _); [eauto |].
      match goal with
      | |- context [DateUtils.generateRandomCommitTimes ?d (Some ?c) ?w rand ?j] =>
          destruct (generateRandomCommitTimes_count d c w rand j)
            as (times & k3 & Hgen & _)
      end.
      * apply Z.min_glb; [exact cap_nonneg |].
        apply ceil_nonneg. unfold Double.mul.
        apply nearest_nonneg. apply Qmult_le_0_compat; [| apply noise_nonneg].
        apply nearest_nonneg.
        apply Qmult_le_0_compat;
          [apply Qlt_le_weak, Hv | exact density_nonneg].
      * rewrite Hgen. eauto.
    + unfold cellStep.
      destruct (Z.geb_spec (Z.of_nat (row * cols + col) * daysPerCell) totalDays);
        [lia |].
      rewrite Hcell. unfold isEmptyCell.
      apply Qleb_true in Hv. rewrite Hv. unfold ret. eauto.
  - unfold cellStep.
    destruct (Z.geb_spec (Z.of_nat (row * cols + col) * daysPerCell) totalDays);
      [lia |].
    rewrite Hcell. unfold isEmptyCell, commitsForCell, bind, random, ret.
    destruct (avoidWeekendsOf options && DateUtils.isWeekend _);
      [destruct (JS.Qltb (Double.nearest (3 # 10)) (rand k)) |];
      destruct (randomizeOf options); cbn; eauto.
Qed.

Lemma colLoop_total n row : forall col acc k,
  exists res k',
    colLoop options cols totalDays daysPerCell n row col acc rand k = Ok (res, k').
Proof.
  induction n as [| n IH]; intros col acc k.
  - cbn. unfold ret. eauto.
  - cbn [colLoop].
    destruct (cellStep_total row col k) as ([commits |] & k1 & Hstep);
      rewrite (bind_Ok_intro _ _ _ _ _ _ Hstep).
    + apply IH.
    + unfold ret. eauto.
Qed.

Lemma rowLoop_total n : forall row acc k,
  exists res k',
    rowLoop options cols totalDays daysPerCell n row acc rand k = Ok (res, k').
Proof.
  induction n as [| n IH]; intros row acc k.
  - cbn. unfold ret. eauto.
  - cbn [rowLoop].
    destruct (colLoop_total cols row 0%nat acc k) as (acc1 & k1 & Hrow).
    rewrite (bind_Ok_intro _ _ _ _ _ _ Hrow). apply IH.
Qed.
End Totality.

(** C7, as first stated, does not hold: with [maxCommitsPerDay = -1] on a
    one-cell pattern over a valid range none of the three input errors is
    present, and [mapPatternToSchedule] still fails, on the check
    [count < 0] of [generateRandomCommitTimes]. *)
Lemma mapPatternToSchedule_fails_on_negative_cap :
  let options := MapperScenario.negativeCap in
  let rows := List.length (Scheduler.pattern options) in
  let cols := List.length (nth 0%nat (Scheduler.pattern options) []) in
  let totalDays :=
    Scheduler.totalDaysOf (Scheduler.startDate options) (Scheduler.endDate options) in
  Scheduler.mapPatternToSchedule options MapperScenario.rnd 0%nat
  = Err "Failed to create commit schedule: Count must be a non-negative number"
  /\ ~ ((exists msg,
            Scheduler.mapPatternToSchedule options MapperScenario.rnd 0%nat = Err msg)
        <-> (rows = 0%nat \/ cols = 0%nat \/ totalDays < 1)).
Proof.
  cbv zeta. split; [vm_compute; reflexivity |].
  intros [Hfail _].
  destruct Hfail as [H | [H | H]].
  - eexists. vm_compute. reflexivity.
  - discriminate H.
  - discriminate H.
  - vm_compute in H. discriminate H.
Qed.

(** C7 (amended). [mapPatternToSchedule] fails with an error, and so returns
    no commits at all, when the pattern has zero rows, when its first row has
    zero columns, and when [ceil(daysBetween(startDate, endDate)) < 1]; with a
    [maxCommitsPerDay] and a [density] that are not negative these are exactly
    the cases in which it fails. *)
Theorem mapPatternToSchedule_fails_fast :
  forall (options : Scheduler.CommitScheduleOptions) (rand : nat -> Q) (k : nat),
    let rows := List.length (Scheduler.pattern options) in
    let cols := List.length (nth 0%nat (Scheduler.pattern options) []) in
    let totalDays :=
      Scheduler.totalDaysOf (Scheduler.startDate options) (Scheduler.endDate options) in
    (rows = 0%nat \/ cols = 0%nat \/ totalDays < 1 ->
     exists msg, Scheduler.mapPatternToSchedule options rand k = Err msg)
    /\ (0 <= Scheduler.maxCommitsPerDayOf options ->
        (0 <= Scheduler.densityOf options)%Q ->
        (forall n, (0 <= rand n)%Q) ->
        ((exists msg, Scheduler.mapPatternToSchedule options rand k = Err msg)
         <-> (rows = 0%nat \/ cols = 0%nat \/ totalDays < 1))).
Proof.
  intros options rand k rows cols totalDays.
  assert (Hfail : rows = 0%nat \/ cols = 0%nat \/ totalDays < 1 ->
                  exists msg, Scheduler.mapPatternToSchedule options rand k = Err msg).
  { intros Hcase. unfold Scheduler.mapPatternToSchedule.
    apply rethrow_Err. fold rows cols totalDays. unfold throw.
    destruct (Nat.eqb_spec rows 0); [eauto |].
    destruct (Nat.eqb_spec cols 0); [eauto |].
    destruct (Z.ltb_spec totalDays 1); [eauto | lia]. }
  split; [exact Hfail |].
  intros Hcap Hdensity Hrand. split; [| exact Hfail].
  intros [msg Herr].
  destruct (Nat.eq_dec rows 0) as [| Hrows]; [auto |].
  destruct (Nat.eq_dec cols 0) as [| Hcols]; [auto |].
  destruct (Z.lt_ge_cases totalDays 1) as [| Hdays]; [auto |].
  exfalso. revert Herr. unfold Scheduler.mapPatternToSchedule, rethrow.
  fold rows cols totalDays.
  destruct (Nat.eqb_spec rows 0); [contradiction |].
  destruct (Nat.eqb_spec cols 0); [contradiction |].
  destruct (Z.ltb_spec totalDays 1); [lia |].
  destruct (rowLoop_total options cols totalDays
              (Scheduler.daysPerCellOf totalDays rows cols) rand
              Hcap Hdensity Hrand rows 0%nat [] k) as (res & k' & Hloop).
  rewrite (bind_Ok_intro _ _ _ _ _ _ Hloop). discriminate.
Qed.

Lemma mapPatternToSchedule_fails_fast_witness :
  (exists msg,
      Scheduler.mapPatternToSchedule MapperErrors.noRows MapperScenario.rnd 0%nat
      = Err msg)
  /\ ~ (exists msg,
           Scheduler.mapPatternToSchedule MapperScenario.twoDays MapperScenario.rnd 0%nat
           = Err msg).
Proof.
  split.
  - apply (proj1 (mapPatternToSchedule_fails_fast MapperErrors.noRows
                    MapperScenario.rnd 0%nat)).
    left. reflexivity.
  - intros Herr.
    apply (proj2 (mapPatternToSchedule_fails_fast MapperScenario.twoDays
                    MapperScenario.rnd 0%nat)) in Herr.
    + destruct Herr as [H | [H | H]];
        [discriminate H | discriminate H | vm_compute in H; discriminate H].
    + vm_compute. discriminate.
    + vm_compute. discriminate.
    + intros n. apply rnd_range.
Defined.

(** ** More on the batched executor *)

Section ExecutorTrace.
Import Batch BatchSpec BatchTrace.
Local Open Scope list_scope.

Variables T E W : Type.
Variable processFn : T -> W -> option E * W.
Variable settle : list (nat * option E) -> list (nat * option E).
Variable options : BatchOptions E.

Hypothesis batch_positive : 0 < batchSizeOf E options.
Hypothesis progress_quiet : forall p t, onProgressOf E options p t = None.

Let dispatch := dispatch T E W processFn.
Let batchLoop := batchLoop T E W processFn settle options.

Lemma invoked_app (a b : list (Effect T)) : invoked (a ++ b) = invoked a ++ invoked b.
Proof.
  induction a as [| [item | ms | p t] a IH]; simpl; [reflexivity | | |];
    now rewrite IH.
Qed.

Lemma progressReports_app (a b : list (Effect T)) :
  progressReports (a ++ b) = progressReports a ++ progressReports b.
Proof.
  induction a as [| [item | ms | p t] a IH]; simpl; [reflexivity | | |];
    now rewrite IH.
Qed.

Lemma invoked_map_Invoke (l : list T) : invoked (map Invoke l) = l.
Proof. induction l as [| x l IH]; simpl; [reflexivity | now rewrite IH]. Qed.

Lemma progressReports_map_Invoke (l : list T) :
  progressReports (map (@Invoke T) l) = [].
Proof. induction l as [| x l IH]; simpl; [reflexivity | exact IH]. Qed.

(** The callbacks of a batch only add timers to the trace. *)
Lemma settleAll_trace settled n results trace :
  let t := snd (settleAll T E options settled n results trace) in
  invoked t = invoked trace /\ progressReports t = progressReports trace.
Proof.
  revert results trace.
  induction settled as [| [index [e |]] rest IH]; intros results trace; cbn.
  - auto.
  - apply IH.
  - match goal with
    | |- context [settleAll T E options rest n ?r ?t] =>
        destruct (IH r t) as [Hi Hp]
    end.
    cbv zeta in Hi, Hp. rewrite Hi, Hp.
    destruct (Z.of_nat index <? Z.of_nat n - 1); [| auto].
    rewrite invoked_app, progressReports_app. simpl. now rewrite !app_nil_r.
Qed.

Lemma batchCount_step (len b i : Z) :
  0 < b -> i < len ->
  batchCount (len - i) b = S (batchCount (len - (i + b)) b).
Proof.
  intros Hb Hi. unfold batchCount.
  replace (len - i + b - 1) with (len - (i + b) + b - 1 + 1 * b) by lia.
  rewrite Z.div_add by lia.
  assert (0 <= (len - (i + b) + b - 1) / b)
    by (apply Z.div_pos; lia).
  lia.
Qed.

Lemma batchCount_done (len b i : Z) :
  0 < b -> len <= i -> batchCount (len - i) b = 0%nat.
Proof.
  intros Hb Hi. unfold batchCount.
  assert ((len - i + b - 1) / b <= 0); [| lia].
  apply Z.lt_succ_r. apply Z.div_lt_upper_bound; lia.
Qed.

(** The loop from index [i]: the operation is called on the remaining
    items, in order, each once; [onProgress] is called after each batch. *)
Lemma batchLoop_trace (items : list T) :
  forall fuel i w results trace,
    0 <= i ->
    (0 < fuel)%nat ->
    Z.of_nat (List.length items) - i < Z.of_nat fuel ->
    exists r t w',
      batchLoop fuel items i w results trace = Some (Fulfilled (r, t, w'))
      /\ invoked t = invoked trace ++ skipn (Z.to_nat i) items
      /\ w' = snd (dispatch (skipn (Z.to_nat i) items) w)
      /\ progressReports t
         = progressReports trace
           ++ map (fun j => (Z.min (i + (Z.of_nat j + 1) * batchSizeOf E options)
                                   (Z.of_nat (List.length items)),
                             Z.of_nat (List.length items)))
                  (seq 0 (batchCount (Z.of_nat (List.length items) - i)
                            (batchSizeOf E options))).
Proof.
  set (b := batchSizeOf E options) in *.
  set (len := Z.of_nat (List.length items)).
  induction fuel as [| fuel IH]; intros i w results trace Hi Hpos Hfuel.
  - lia.
  - unfold batchLoop. simpl. fold batchLoop. fold b len.
    destruct (Z.ltb_spec i len) as [Hlt | Hge].
    + destruct (slice_batch T E options batch_positive items i (conj Hi Hlt))
        as (Hslice & Hrest & Hm).
      cbv zeta in Hslice, Hrest, Hm. fold b len in Hslice, Hrest, Hm.
      set (m := Z.to_nat (Z.min (i + b) len - i)) in *.
      set (rest := skipn (Z.to_nat i) items) in *.
      rewrite Hslice.
      pose proof (dispatch_app T E W processFn (firstn m rest) (skipn m rest) w)
        as Happ.
      rewrite firstn_skipn in Happ.
      unfold dispatch in *.
      destruct (Batch.dispatch T E W processFn (firstn m rest) w) as [os1 w1] eqn:Hd1.
      simpl in Happ.
      pose proof (settleAll_trace (settle (indexed E os1))
                    (List.length (firstn m rest)) results
                    (trace ++ map Invoke (firstn m rest))) as Htrace.
      destruct (Batch.settleAll T E options (settle (indexed E os1))
                  (List.length (firstn m rest)) results
                  (trace ++ map Invoke (firstn m rest))) as [results1 trace1].
      cbv zeta in Htrace. simpl snd in Htrace. destruct Htrace as [Hinv Hprog].
      rewrite progress_quiet.
      match goal with
      | |- context [batchLoop fuel items _ w1 results1 ?t] =>
          destruct (IH (i + b) w1 results1 t)
            as (r & t' & w' & Hrun & Hinv' & Hw' & Hprog')
      end; [lia | lia | lia |].
      exists r, t', w'. split; [exact Hrun |].
      rewrite Hrest in Hinv', Hw'.
      split; [| split].
      * rewrite Hinv'.
        destruct (i + b <? len);
          rewrite ?invoked_app; simpl; rewrite ?app_nil_r;
          rewrite Hinv, invoked_app, invoked_map_Invoke, <- app_assoc;
          now rewrite firstn_skipn.
      * rewrite Hw', Happ. reflexivity.
      * rewrite Hprog'.
        rewrite (batchCount_step len b i batch_positive Hlt).
        rewrite <- cons_seq, <- seq_shift, map_cons, map_map.
        assert (Hhere : progressReports
                  (if i + b <? len
                   then (trace1 ++ [Progress (Z.min (i + b) len) len])
                        ++ [Sleep (delayBetweenBatchesOf E options)]
                   else trace1 ++ [Progress (Z.min (i + b) len) len])
                = progressReports trace ++ [(Z.min (i + b) len, len)]).
        { destruct (i + b <? len);
            rewrite ?progressReports_app; simpl; rewrite ?app_nil_r;
            rewrite Hprog, progressReports_app, progressReports_map_Invoke;
            now rewrite app_nil_r. }
        rewrite Hhere, <- app_assoc. cbn [app]. f_equal. f_equal.
        -- f_equal. f_equal. lia.
        -- apply map_ext. intros j. f_equal. f_equal. lia.
    + exists results, trace, w. split; [reflexivity |].
      rewrite (batchCount_done len b i batch_positive Hge).
      rewrite skipn_all2 by (fold len; lia). simpl. rewrite !app_nil_r. auto.
Qed.
End ExecutorTrace.

Section ExecutorOrder.
Import Batch BatchSpec.
Local Open Scope list_scope.

Variables T E W : Type.
Variable processFn : T -> W -> option E * W.
Variable settle : list (nat * option E) -> list (nat * option E).
Variable options : BatchOptions E.

Hypothesis settle_in_order : forall l, settle l = l.
Hypothesis batch_positive : 0 < batchSizeOf E options.
Hypothesis progress_quiet : forall p t, onProgressOf E options p t = None.

(** When the promises settle in call order, the errors are collected in
    call order. *)
Lemma batchLoop_errors_in_order (items : list T) :
  forall fuel i w results trace,
    0 <= i ->
    (0 < fuel)%nat ->
    Z.of_nat (List.length items) - i < Z.of_nat fuel ->
    exists r t w',
      batchLoop T E W processFn settle options fuel items i w results trace
      = Some (Fulfilled (r, t, w'))
      /\ errors r
         = errors results
           ++ rejections (fst (dispatch T E W processFn
                                 (skipn (Z.to_nat i) items) w)).
Proof.
  induction fuel as [| fuel IH]; intros i w results trace Hi Hpos Hfuel.
  - lia.
  - cbn [batchLoop].
    destruct (Z.ltb_spec i (Z.of_nat (List.length items))) as [Hlt | Hge].
    + destruct (slice_batch T E options batch_positive items i (conj Hi Hlt))
        as (Hslice & Hrest & Hm).
      cbv zeta in Hslice, Hrest, Hm.
      set (m := Z.to_nat (Z.min (i + batchSizeOf E options)
                            (Z.of_nat (List.length items)) - i)) in *.
      set (rest := skipn (Z.to_nat i) items) in *.
      rewrite Hslice.
      pose proof (dispatch_app T E W processFn (firstn m rest) (skipn m rest) w)
        as Happ.
      rewrite firstn_skipn in Happ.
      destruct (dispatch T E W processFn (firstn m rest) w) as [os1 w1] eqn:Hd1.
      simpl in Happ.
      pose proof (settleAll_counts T E options (settle (indexed E os1))
                    (List.length (firstn m rest)) results
                    (trace ++ map Invoke (firstn m rest))) as Hcounts.
      destruct (settleAll T E options (settle (indexed E os1))
                  (List.length (firstn m rest)) results
                  (trace ++ map Invoke (firstn m rest))) as [results1 trace1].
      cbv zeta in Hcounts. simpl fst in Hcounts.
      destruct Hcounts as (_ & _ & He).
      rewrite settle_in_order, indexed_outcomes in He.
      rewrite progress_quiet.
      match goal with
      | |- context [batchLoop T E W processFn settle options fuel items _ w1 results1 ?t] =>
          destruct (IH (i + batchSizeOf E options) w1 results1 t)
            as (r & t' & w' & Hrun & He')
      end; [lia | lia | lia |].
      exists r, t', w'. split; [exact Hrun |].
      rewrite He', Hrest, He, Happ. simpl fst.
      now rewrite rejections_app, app_assoc.
    + exists results, trace, w. split; [reflexivity |].
      rewrite skipn_all2 by lia. simpl. now rewrite app_nil_r.
Qed.
End ExecutorOrder.

Lemma batchCount_covers (len b : Z) :
  0 < b -> 0 < len ->
  (0 < BatchTrace.batchCount len b)%nat
  /\ len <= Z.of_nat (BatchTrace.batchCount len b) * b.
Proof.
  intros Hb Hlen. unfold BatchTrace.batchCount.
  pose proof (Z.div_mod (len + b - 1) b ltac:(lia)) as Hdm.
  pose proof (Z.mod_pos_bound (len + b - 1) b Hb) as Hr.
  assert (Hq : 0 < (len + b - 1) / b).
  { apply Z.div_str_pos. lia. }
  split; [lia |].
  rewrite Z2Nat.id by lia. nia.
Qed.



(** X2. Under the same conditions [onProgress] is called exactly once per
    batch, [ceil(n / batchSize)] times in all, call number [j] (from 0) with
    [(min((j + 1) * batchSize, n), n)]; for a non-empty list the last call is
    [onProgress(n, n)]. *)
Theorem processBatchedCommits_progress_reports :
  forall (T E W : Type) (processFn : T -> W -> option E * W)
         (settle : list (nat * option E) -> list (nat * option E))
         (options : Batch.BatchOptions E) (items : list T) (w : W) (fuel : nat),
    0 < Batch.batchSizeOf E options ->
    (forall p t, Batch.onProgressOf E options p t = None) ->
    (List.length items < fuel)%nat ->
    let n := Z.of_nat (List.length items) in
    let b := Batch.batchSizeOf E options in
    exists r trace w',
      Batch.processBatchedCommits T E W processFn settle options fuel items w
      = Some (Batch.Fulfilled (r, trace, w'))
      /\ BatchTrace.progressReports trace
         = map (BatchTrace.reportAfter n b) (seq 0 (BatchTrace.batchCount n b))
      /\ (items <> [] -> last (BatchTrace.progressReports trace) (0, 0) = (n, n)).
Proof.
  intros T E W processFn settle options items w fuel Hb Hquiet Hfuel n b.
  destruct (batchLoop_trace T E W processFn settle options Hb Hquiet items fuel 0 w
              {| Batch.succeeded := 0; Batch.failed := 0; Batch.errors := [] |} [])
    as (r & t & w' & Hrun & _ & _ & Hprog); [lia | lia | lia |].
  fold n b in Hprog. rewrite Z.sub_0_r in Hprog. cbn [BatchTrace.progressReports app] in Hprog.
  assert (Hreports : BatchTrace.progressReports t
                     = map (BatchTrace.reportAfter n b)
                           (seq 0 (BatchTrace.batchCount n b))).
  { rewrite Hprog. apply map_ext. intros j. unfold BatchTrace.reportAfter.
    now rewrite Z.add_0_l. }
  exists r, t, w'. split; [exact Hrun |]. split; [exact Hreports |].
  intros Hitems. rewrite Hreports.
  assert (Hn : 0 < n).
  { subst n. destruct items; [contradiction | simpl; lia]. }
  destruct (batchCount_covers n b Hb Hn) as [Hpos Hcover].
  destruct (BatchTrace.batchCount n b) as [| c]; [lia |].
  rewrite seq_S, map_app. cbn [map]. rewrite last_last.
  unfold BatchTrace.reportAfter. cbn [plus].
  f_equal. apply Z.min_r. lia.
Qed.

Lemma processBatchedCommits_progress_reports_witness :
  exists r trace w',
    Batch.processBatchedCommits nat string unit BatchScenario.failing
      BatchScenario.lastFirst BatchScenario.batchesOfFive 13
      BatchScenario.items tt
    = Some (Batch.Fulfilled (r, trace, w'))
    /\ BatchTrace.progressReports trace = [(5, 12); (10, 12); (12, 12)].
Proof.
  destruct (processBatchedCommits_progress_reports nat string unit
              BatchScenario.failing BatchScenario.lastFirst
              BatchScenario.batchesOfFive BatchScenario.items tt 13)
    as (r & trace & w' & Hrun & Hreports & _).
  - reflexivity.
  - reflexivity.
  - simpl. lia.
  - exists r, trace, w'. split; [exact Hrun | exact Hreports].
Defined.

(** X3. When the promises of each batch settle in call order, [errors] holds
    the errors of the rejected calls in the order of the items. *)
Theorem processBatchedCommits_errors_in_call_order :
  forall (T E W : Type) (processFn : T -> W -> option E * W)
         (settle : list (nat * option E) -> list (nat * option E))
         (options : Batch.BatchOptions E) (items : list T) (w : W) (fuel : nat),
    (forall l, settle l = l) ->
    0 < Batch.batchSizeOf E options ->
    (forall p t, Batch.onProgressOf E options p t = None) ->
    (List.length items < fuel)%nat ->
    exists r trace w',
      Batch.processBatchedCommits T E W processFn settle options fuel items w
      = Some (Batch.Fulfilled (r, trace, w'))
      /\ Batch.errors r
         = BatchSpec.rejections (BatchSpec.outcomesOf processFn items w).
Proof.
  intros T E W processFn settle options items w fuel Hid Hb Hquiet Hfuel.
  destruct (batchLoop_errors_in_order T E W processFn settle options Hid Hb Hquiet
              items fuel 0 w
              {| Batch.succeeded := 0; Batch.failed := 0; Batch.errors := [] |} [])
    as (r & t & w' & Hrun & He); [lia | lia | lia |].
  exists r, t, w'. split; [exact Hrun | exact He].
Qed.

Lemma processBatchedCommits_errors_in_call_order_witness :
  exists r trace w',
    Batch.processBatchedCommits nat string unit BatchScenario.failing
      BatchScenarioMore.inOrder BatchScenario.batchesOfFive 13
      BatchScenario.items tt
    = Some (Batch.Fulfilled (r, trace, w'))
    /\ Batch.errors r = ["operation failed"; "operation failed"].
Proof.
  destruct (processBatchedCommits_errors_in_call_order nat string unit
              BatchScenario.failing BatchScenarioMore.inOrder
              BatchScenario.batchesOfFive BatchScenario.items tt 13)
    as (r & trace & w' & Hrun & He).
  - reflexivity.
  - reflexivity.
  - reflexivity.
  - simpl. lia.
  - exists r, trace, w'. split; [exact Hrun | exact He].
Defined.

(** The loop from an index that is not positive, with a batch size that is
    not positive: the index never reaches the length. *)
Lemma batchLoop_stuck
    (T E W : Type) (processFn : T -> W -> option E * W)
    (settle : list (nat * option E) -> list (nat * option E))
    (options : Batch.BatchOptions E) (items : list T) :
  Batch.batchSizeOf E options <= 0 ->
  (forall p t, Batch.onProgressOf E options p t = None) ->
  items <> [] ->
  forall fuel i w results trace,
    i <= 0 ->
    Batch.batchLoop T E W processFn settle options fuel items i w results trace
    = None.
Proof.
  intros Hb Hquiet Hitems.
  induction fuel as [| fuel IH]; intros i w results trace Hi; [reflexivity |].
  cbn [Batch.batchLoop].
  destruct (Z.ltb_spec i (Z.of_nat (List.length items))) as [_ | Hlen];
    [| destruct items; [contradiction | simpl in Hlen; lia]].
  destruct (Batch.dispatch _ _ _ _ _ _) as [outcomes w1].
  destruct (Batch.settleAll _ _ _ _ _ _ _) as [results1 trace1].
  rewrite Hquiet. apply IH. lia.
Qed.

(** X4. With a [batchSize] of zero or less and a list that is not empty,
    [processBatchedCommits] never returns: the loop index never reaches the
    length of the list. *)
Theorem processBatchedCommits_nonpositive_batch_size_never_returns :
  forall (T E W : Type) (processFn : T -> W -> option E * W)
         (settle : list (nat * option E) -> list (nat * option E))
         (options : Batch.BatchOptions E) (items : list T) (w : W) (fuel : nat),
    Batch.batchSizeOf E options <= 0 ->
    (forall p t, Batch.onProgressOf E options p t = None) ->
    items <> [] ->
    Batch.processBatchedCommits T E W processFn settle options fuel items w = None.
Proof.
  intros T E W processFn settle options items w fuel Hb Hquiet Hitems.
  unfold Batch.processBatchedCommits.
  apply batchLoop_stuck; [assumption | assumption | assumption | lia].
Qed.

Lemma processBatchedCommits_nonpositive_batch_size_never_returns_witness :
  Batch.processBatchedCommits nat string unit BatchScenario.failing
    BatchScenario.lastFirst BatchScenarioMore.batchSizeZero 1000
    BatchScenario.items tt = None.
Proof.
  apply processBatchedCommits_nonpositive_batch_size_never_returns.
  - vm_compute. discriminate.
  - reflexivity.
  - discriminate.
Defined.

(** ** More on the pattern validator and its callers *)

Section ValidatorShape.
Import PatternUtils PatternSpec PatternShape.
Local Open Scope nat_scope.
Local Open Scope list_scope.

Lemma rowLengthLoop_app rows i first issues :
  rowLengthLoop rows i first issues = issues ++ rowLengthLoop rows i first [].
Proof.
  revert i issues. induction rows as [| r rest IH]; intros i issues; simpl.
  - now rewrite app_nil_r.
  - rewrite IH.
    rewrite (IH _ (if List.length r =? first then []
                   else [] ++ [RowLength (i + 1) (List.length r) first])).
    destruct (List.length r =? first); simpl; [reflexivity |].
    now rewrite <- app_assoc.
Qed.

(** The row-length issues: one for each row after the first whose length
    differs, numbered from 1. *)
Lemma rowLengthLoop_In rows i first n len first' :
  In (RowLength n len first') (rowLengthLoop rows i first []) <->
  first' = first
  /\ exists j r, nth_error rows j = Some r /\ n = i + j + 1
                 /\ len = List.length r /\ len <> first.
Proof.
  revert i. induction rows as [| r rest IH]; intros i; cbn [rowLengthLoop].
  - split; [intros [] | intros (_ & j & r & H & _)]. now destruct j.
  - rewrite rowLengthLoop_app, in_app_iff, IH. split.
    + intros [H | (-> & j & r' & Hj & -> & -> & Hne)].
      * destruct (Nat.eqb_spec (List.length r) first) as [| Hne];
          [destruct H |].
        destruct H as [H | []]. injection H as <- <- <-.
        split; [reflexivity |]. exists 0, r. repeat split; [lia | exact Hne].
      * split; [reflexivity |]. exists (S j), r'.
        repeat split; [exact Hj | lia | exact Hne].
    + intros (-> & [| j] & r' & Hj & -> & -> & Hne).
      * injection Hj as <-. left.
        destruct (Nat.eqb_spec (List.length r) first); [contradiction |].
        left. f_equal. lia.
      * right. split; [reflexivity |]. exists j, r'.
        repeat split; [exact Hj | lia | exact Hne].
Qed.

Lemma rowLengthLoop_nil rows i first :
  rowLengthLoop rows i first [] = [] <->
  Forall (fun r => List.length r = first) rows.
Proof.
  revert i. induction rows as [| r rest IH]; intros i; cbn [rowLengthLoop].
  - split; [constructor | reflexivity].
  - rewrite rowLengthLoop_app.
    destruct (Nat.eqb_spec (List.length r) first) as [Heq | Hne].
    + cbn [app]. rewrite IH. split; [now constructor | now inversion 1].
    + split; [discriminate |]. inversion 1. contradiction.
Qed.

Lemma colLoop_nil cells row col :
  colLoop cells row col [] = [] <->
  Forall (fun v => invalidValue v = false) cells.
Proof.
  revert col. induction cells as [| v rest IH]; intros col; cbn [colLoop].
  - split; [constructor | reflexivity].
  - rewrite colLoop_app. destruct (invalidValue v) eqn:E.
    + split; [discriminate |]. inversion 1. congruence.
    + cbn [app]. rewrite IH. split; [now constructor | now inversion 1].
Qed.

Lemma rowLoop_nil rows row :
  rowLoop rows row [] = [] <->
  Forall (Forall (fun v => invalidValue v = false)) rows.
Proof.
  revert row. induction rows as [| r rest IH]; intros row; cbn [rowLoop].
  - split; [constructor | reflexivity].
  - rewrite rowLoop_app. split.
    + intros H. apply app_eq_nil in H. destruct H as [Hr Hrest].
      constructor; [now apply colLoop_nil in Hr | now apply IH in Hrest].
    + inversion 1 as [| ? ? Hr Hrest]; subst.
      apply colLoop_nil with (row := row) (col := 0) in Hr.
      apply IH with (row := S row) in Hrest. now rewrite Hr, Hrest.
Qed.

Lemma validatePatternIssues_nil_iff pattern :
  validatePatternIssues pattern = [] <-> WellFormed pattern.
Proof.
  unfold validatePatternIssues, WellFormed.
  destruct pattern as [| first rest].
  { cbn. split; [discriminate | intros [H _]; contradiction]. }
  cbn [List.length Nat.eqb nth tl].
  destruct first as [| v0 first].
  { cbn. split; [discriminate | intros (_ & H & _); contradiction]. }
  set (row0 := v0 :: first). cbn [List.length Nat.eqb].
  fold (List.length row0).
  rewrite rowLoop_app.
  split.
  - intros H.
    assert (Hparts : rowLengthLoop rest 1 (List.length row0) [] = []
                     /\ rowLoop (row0 :: rest) 0 [] = []
                     /\ (365 <? S (List.length rest) * List.length row0) = false).
    { destruct (365 <? _).
      - apply app_eq_nil in H. destruct H as [_ H]. discriminate.
      - apply app_eq_nil in H. tauto. }
    destruct Hparts as (Hlen & Hcells & Hsize).
    apply rowLengthLoop_nil in Hlen. apply rowLoop_nil in Hcells.
    apply Nat.ltb_ge in Hsize.
    rewrite Forall_forall in Hlen, Hcells.
    repeat split; try discriminate.
    + intros r [<- | Hr]; [reflexivity | now apply Hlen].
    + intros r v Hr Hv. apply invalidValue_spec.
      pose proof (Hcells r Hr) as Hrow. rewrite Forall_forall in Hrow.
      now apply Hrow.
    + exact Hsize.
  - intros (_ & _ & Hlen & Hcells & Hsize).
    assert (H1 : rowLengthLoop rest 1 (List.length row0) [] = []).
    { apply rowLengthLoop_nil, Forall_forall. intros r Hr.
      apply Hlen. now right. }
    assert (H2 : rowLoop (row0 :: rest) 0 [] = []).
    { apply rowLoop_nil, Forall_forall. intros r Hr.
      apply Forall_forall. intros v Hv. apply invalidValue_spec.
      now apply (Hcells r v). }
    rewrite H1, H2.
    destruct (Nat.ltb_spec 365 (S (List.length rest) * List.length row0));
      [lia | reflexivity].
Qed.
End ValidatorShape.

Lemma validatePattern_no_issue_iff_well_formed_aux
    (showFraction : Q -> string) (pattern : list (list Q)) :
  PatternUtils.validatePattern showFraction pattern = []
  <-> PatternShape.WellFormed pattern.
Proof.
  rewrite <- validatePatternIssues_nil_iff.
  unfold PatternUtils.validatePattern.
  destruct (PatternUtils.validatePatternIssues pattern); simpl;
    split; intros H; try reflexivity; discriminate.
Qed.

(** X5. [validatePattern] returns no issue exactly for the grids that have a
    row and a column, all rows of the length of the first, every cell an
    integer of 0..4, and at most 365 cells. *)
Theorem validatePattern_no_issue_iff_well_formed :
  forall (showFraction : Q -> string) (pattern : list (list Q)),
    PatternUtils.validatePattern showFraction pattern = []
    <-> PatternShape.WellFormed pattern.
Proof.
  intros showFraction pattern.
  apply validatePattern_no_issue_iff_well_formed_aux.
Qed.

(** X6. For a grid with a row and a column, [validatePattern] reports a row
    of a different length exactly for the rows after the first whose length
    is not that of the first row, under the row's number counted from 1 and
    with both lengths. *)
Theorem validatePattern_row_length_issues :
  forall (pattern : list (list Q)) (n len first : nat),
    pattern <> [] ->
    nth 0%nat pattern [] <> [] ->
    (In (PatternUtils.RowLength n len first)
        (PatternUtils.validatePatternIssues pattern)
     <-> first = List.length (nth 0%nat pattern [])
         /\ exists i r, (1 <= i)%nat /\ n = (i + 1)%nat
                        /\ nth_error pattern i = Some r
                        /\ len = List.length r /\ len <> first).
Proof.
  intros pattern n len first Hrows Hcols.
  unfold PatternUtils.validatePatternIssues.
  destruct pattern as [| row0 rest]; [contradiction |].
  cbn [List.length Nat.eqb nth tl] in *.
  destruct (Nat.eqb_spec (List.length row0) 0) as [H0 | _];
    [destruct row0; [contradiction | discriminate] |].
  assert (Hmid : In (PatternUtils.RowLength n len first)
                    (PatternUtils.rowLoop (row0 :: rest) 0
                       (PatternUtils.rowLengthLoop rest 1 (List.length row0) []))
                 <-> In (PatternUtils.RowLength n len first)
                        (PatternUtils.rowLengthLoop rest 1 (List.length row0) [])).
  { rewrite rowLoop_app, in_app_iff. split; [| auto].
    intros [H | H]; [exact H |].
    exfalso. clear - H. revert H. generalize 0%nat.
    induction (row0 :: rest) as [| r rows IH]; intros k; cbn [PatternUtils.rowLoop].
    - intros [].
    - rewrite rowLoop_app, in_app_iff. intros [H | H]; [| exact (IH _ H)].
      clear - H. revert H. generalize 0%nat.
      induction r as [| v r IHr]; intros c; cbn [PatternUtils.colLoop].
      + intros [].
      + rewrite colLoop_app, in_app_iff. intros [H | H]; [| exact (IHr _ H)].
        destruct (PatternUtils.invalidValue v); [| destruct H].
        destruct H as [H | []]. discriminate. }
  assert (Hall : In (PatternUtils.RowLength n len first)
                    (if (365 <? S (List.length rest) * List.length row0)%nat
                     then (PatternUtils.rowLoop (row0 :: rest) 0
                             (PatternUtils.rowLengthLoop rest 1 (List.length row0) [])
                           ++ [PatternUtils.VeryLarge (S (List.length rest))
                                 (List.length row0)])%list
                     else PatternUtils.rowLoop (row0 :: rest) 0
                            (PatternUtils.rowLengthLoop rest 1 (List.length row0) []))
                 <-> In (PatternUtils.RowLength n len first)
                        (PatternUtils.rowLengthLoop rest 1 (List.length row0) [])).
  { rewrite <- Hmid. destruct (365 <? _)%nat; [| reflexivity].
    rewrite in_app_iff. split; [| auto].
    intros [H | [H | []]]; [exact H | discriminate]. }
  rewrite Hall, rowLengthLoop_In. split.
  - intros (-> & j & r & Hj & -> & -> & Hne). split; [reflexivity |].
    exists (S j), r.
    split; [lia |]. split; [lia |]. split; [exact Hj |].
    split; [reflexivity | exact Hne].
  - intros (-> & [| i] & r & Hi & -> & Hnth & -> & Hne); [lia |].
    split; [reflexivity |]. exists i, r.
    split; [exact Hnth |]. split; [lia |]. split; [reflexivity | exact Hne].
Qed.

Lemma validatePattern_row_length_issues_witness :
  In (PatternUtils.RowLength 2 1 2)
     (PatternUtils.validatePatternIssues [[1%Q; 2%Q]; [3%Q]])
  /\ In "Row 2 has different length (1) than first row (2)"
        (PatternUtils.validatePattern (fun _ => "") [[1%Q; 2%Q]; [3%Q]]).
Proof.
  assert (H : In (PatternUtils.RowLength 2 1 2)
                 (PatternUtils.validatePatternIssues [[1%Q; 2%Q]; [3%Q]])).
  { apply validatePattern_row_length_issues.
    - discriminate.
    - discriminate.
    - split; [reflexivity |]. exists 1%nat, [3%Q].
      repeat split; [lia | discriminate]. }
  split; [exact H |].
  exact (in_map (PatternUtils.render (fun _ => "")) _ _ H).
Defined.

Section IncludesFacts.
Import Text Callers.
Local Open Scope list_scope.

Lemma prefix_app (sub t : string) : String.prefix sub (sub ++ t)%string = true.
Proof.
  induction sub as [| c sub IH]; simpl; [now destruct t |].
  destruct (ascii_dec c c); [exact IH | contradiction].
Qed.

Lemma includes_prefix (sub s : string) :
  String.prefix sub s = true -> includes sub s = true.
Proof. destruct s; simpl; intros ->; reflexivity. Qed.

Lemma includes_app_l (sub t : string) : includes sub (sub ++ t)%string = true.
Proof. apply includes_prefix, prefix_app. Qed.

(** A text that includes [Invalid] has a capital I. *)
Lemma includes_Invalid_char (s : string) :
  includes "Invalid" s = true -> In "I"%char (chars s).
Proof.
  induction s as [| c s IH]; cbn [includes String.prefix chars].
  - discriminate.
  - intros H. apply orb_true_iff in H. destruct H as [H | H].
    + destruct (ascii_dec "I" c) as [<- | _]; [now left | discriminate H].
    + right. now apply IH.
Qed.

Lemma string_of_uint_digits (d : Decimal.uint) :
  Forall Text.digit (chars (NilEmpty.string_of_uint d)).
Proof.
  induction d; simpl; constructor; try assumption; unfold Text.digit; simpl; tauto.
Qed.

Lemma showNat_digits (n : nat) : Forall Text.digit (chars (JS.showNat n)).
Proof.
  unfold JS.showNat, NilZero.string_of_uint.
  destruct (Nat.to_uint n); try apply string_of_uint_digits.
  simpl. constructor; [unfold Text.digit; simpl; tauto | constructor].
Qed.

Lemma showNat_no_I (n : nat) : ~ In "I"%char (chars (JS.showNat n)).
Proof.
  intros H. pose proof (showNat_digits n) as Hd.
  rewrite Forall_forall in Hd. specialize (Hd _ H).
  unfold Text.digit in Hd. simpl in Hd.
  repeat (destruct Hd as [Hd | Hd]; [discriminate Hd |]). exact Hd.
Qed.
End IncludesFacts.

Section CriticalIssues.
Import PatternUtils PatternSpec PatternShape Callers.
Local Open Scope list_scope.

Variable showFraction : Q -> string.

(** Only the text of an invalid-value issue includes [Invalid]. *)
Lemma render_includes_Invalid (i : PatternIssue) :
  includes "Invalid" (render showFraction i) = true
  <-> exists v row col, i = InvalidIntensity v row col.
Proof.
  split.
  - intros H. destruct i as [| | n len first | v row col | rows cols];
      [| | | eauto |];
      exfalso; apply includes_Invalid_char in H; unfold render in H;
      rewrite ?chars_app, ?in_app_iff in H; simpl in H;
      repeat match goal with
             | H : _ \/ _ |- _ => destruct H as [H | H]
             | H : In _ (Text.chars (JS.showNat _)) |- _ =>
                 exact (showNat_no_I _ H)
             | H : _ = _ |- _ => discriminate H
             | H : False |- _ => exact H
             end.
  - intros (v & row & col & ->). apply includes_prefix. reflexivity.
Qed.

Lemma someInvalid_render (issues : list PatternIssue) :
  someInvalid (map (render showFraction) issues) = true
  <-> exists v row col, In (InvalidIntensity v row col) issues.
Proof.
  unfold someInvalid. rewrite existsb_exists. split.
  - intros (s & Hs & Hinc). apply in_map_iff in Hs.
    destruct Hs as (i & <- & Hi).
    apply render_includes_Invalid in Hinc.
    destruct Hinc as (v & row & col & ->). eauto.
  - intros (v & row & col & Hin).
    exists (render showFraction (InvalidIntensity v row col)).
    split; [now apply in_map |].
    apply render_includes_Invalid. eauto.
Qed.

Lemma In_countAt issues v row col :
  In (InvalidIntensity v row col) issues -> (0 < countAt row col issues)%nat.
Proof.
  unfold countAt. induction issues as [| x issues IH]; [intros [] |].
  intros [-> | H]; cbn [filter].
  - cbn [atPosition]. rewrite !Nat.eqb_refl. simpl. lia.
  - specialize (IH H). destruct (atPosition row col x); simpl; lia.
Qed.

Lemma invalid_issue_iff_invalid_cell (pattern : list (list Q)) :
  pattern <> [] -> nth 0%nat pattern [] <> [] ->
  ((exists v row col, In (InvalidIntensity v row col) (validatePatternIssues pattern))
   <-> HasInvalidCell pattern).
Proof.
  intros Hrows Hcols. split.
  - intros (v & row & col & Hin).
    pose proof (validatePatternIssues_In _ _ _ _ Hin) as Hcell.
    pose proof (In_countAt _ _ _ _ Hin) as Hcount.
    rewrite validatePatternIssues_count in Hcount by assumption.
    rewrite Hcell in Hcount.
    rewrite cellAt_nth_error in Hcell.
    destruct (nth_error pattern row) as [cells |] eqn:Hrow; [| discriminate].
    exists cells, v. split; [exact (nth_error_In _ _ Hrow) |].
    split; [exact (nth_error_In _ _ Hcell) |].
    intros Hok. apply invalidValue_spec in Hok. rewrite Hok in Hcount. lia.
  - intros (cells & v & Hcells & Hv & Hbad).
    apply In_nth_error in Hcells, Hv.
    destruct Hcells as [row Hrow]. destruct Hv as [col Hcol].
    assert (Hcell : Scheduler.cellAt pattern row col = Some v)
      by now rewrite cellAt_nth_error, Hrow.
    destruct (countAt_positive_In row col (validatePatternIssues pattern))
      as [v' Hv'].
    + rewrite validatePatternIssues_count by assumption. rewrite Hcell.
      destruct (invalidValue v) eqn:E; [lia |].
      apply invalidValue_spec in E. contradiction.
    + eauto.
Qed.

Lemma someInvalid_validatePattern (pattern : list (list Q)) :
  someInvalid (validatePattern showFraction pattern) = true
  <-> pattern <> [] /\ nth 0%nat pattern [] <> [] /\ HasInvalidCell pattern.
Proof.
  unfold validatePattern. rewrite someInvalid_render.
  destruct pattern as [| row0 rest].
  { cbn. split.
    - intros (v & row & col & [H | []]). discriminate.
    - intros [H _]. contradiction. }
  destruct row0 as [| v0 row0].
  { cbn. split.
    - intros (v & row & col & [H | []]). discriminate.
    - intros (_ & H & _). contradiction. }
  rewrite invalid_issue_iff_invalid_cell by discriminate.
  split; [intros H; repeat split; try discriminate; exact H | tauto].
Qed.
End CriticalIssues.

(** X7. The callers of [validatePattern] find an issue that includes
    [Invalid] exactly when the grid has a row and a column and some cell that
    is not an integer of 0..4: this is when the prompt of the commit command
    defaults to not continuing, and when [importPattern] refuses the grid
    outside a terminal.  An empty grid, rows of different lengths or an
    oversized grid alone are imported. *)
Theorem importPattern_refuses_iff_invalid_cell :
  forall (showFraction : Q -> string) (confirm : bool -> bool)
         (patternGrid : list (list Q)),
    let critical :=
      patternGrid <> [] /\ nth 0%nat patternGrid [] <> []
      /\ PatternShape.HasInvalidCell patternGrid in
    (Callers.continueDefault (PatternUtils.validatePattern showFraction patternGrid)
     = false <-> critical)
    /\ ((exists msg,
            Callers.importPatternValidation showFraction false confirm patternGrid
            = Err msg) <-> critical)
    /\ (~ critical ->
        Callers.importPatternValidation showFraction false confirm patternGrid
        = Ok patternGrid).
Proof.
  intros showFraction confirm patternGrid critical.
  pose proof (someInvalid_validatePattern showFraction patternGrid) as Hsome.
  fold critical in Hsome.
  unfold Callers.continueDefault, Callers.importPatternValidation.
  destruct (Callers.someInvalid (PatternUtils.validatePattern showFraction patternGrid))
    eqn:E.
  - assert (Hc : critical) by now apply Hsome.
    assert (Hlen : (0 <? List.length
                           (PatternUtils.validatePattern showFraction patternGrid))%nat
                   = true).
    { destruct (PatternUtils.validatePattern showFraction patternGrid);
        [discriminate E | reflexivity]. }
    rewrite Hlen. split; [tauto |]. split; [| contradiction].
    split; [auto | eauto].
  - assert (Hc : ~ critical) by (intros Hc; apply Hsome in Hc; discriminate).
    split; [split; [discriminate | contradiction] |].
    destruct (0 <? _)%nat; (split; [| reflexivity]);
      (split; [intros [msg H]; discriminate H | contradiction]).
Qed.

Lemma importPattern_refuses_iff_invalid_cell_witness :
  Callers.importPatternValidation (fun _ => "") false (fun d => d) [] = Ok []
  /\ Callers.importPatternValidation (fun _ => "") false (fun d => d)
       [[1%Q; 2%Q]; [3%Q]] = Ok [[1%Q; 2%Q]; [3%Q]].
Proof.
  split.
  - apply (proj2 (proj2 (importPattern_refuses_iff_invalid_cell
                           (fun _ => "") (fun d => d) []))).
    intros [H _]. now apply H.
  - apply (proj2 (proj2 (importPattern_refuses_iff_invalid_cell
                           (fun _ => "") (fun d => d) [[1%Q; 2%Q]; [3%Q]]))).
    intros (_ & _ & cells & v & Hcells & Hv & Hbad). apply Hbad.
    apply invalidValue_spec.
    destruct Hcells as [<- | [<- | []]].
    + destruct Hv as [<- | [<- | []]]; reflexivity.
    + destruct Hv as [<- | []]; reflexivity.
Defined.

(** X8. [createPattern] and [updatePattern] of the backend pass their two
    checks exactly for a grid that is well formed (a row and a column,
    rectangular, cells integers of 0..4, at most 365 cells) and has the
    declared numbers of rows and columns; they throw otherwise. *)
Theorem createPattern_accepts_iff :
  forall (showFraction : Q -> string) (grid : list (list Q)) (rows columns : nat),
    Callers.createPatternChecks showFraction grid rows columns = Ok tt
    <-> PatternShape.WellFormed grid
        /\ List.length grid = rows
        /\ (forall r, In r grid -> List.length r = columns).
Proof.
  intros showFraction grid rows columns.
  unfold Callers.createPatternChecks.
  pose proof (validatePattern_no_issue_iff_well_formed_aux showFraction grid) as Hwf.
  destruct (PatternUtils.validatePattern showFraction grid) as [| issue issues].
  - assert (Hok : PatternShape.WellFormed grid) by now apply Hwf.
    cbn [List.length Nat.ltb Nat.leb].
    destruct (Nat.eqb_spec (List.length grid) rows) as [Hr | Hr]; cbn [negb orb].
    + destruct (existsb _ grid) eqn:Hex.
      * split; [discriminate |]. intros (_ & _ & Hcols).
        apply existsb_exists in Hex. destruct Hex as (r & Hin & Hne).
        rewrite (Hcols r Hin), Nat.eqb_refl in Hne. discriminate.
      * split; [| reflexivity]. intros _.
        split; [exact Hok |]. split; [exact Hr |].
        intros r Hin. destruct (Nat.eqb_spec (List.length r) columns) as [| Hne];
          [assumption |].
        assert (existsb (fun row => negb (List.length row =? columns)%nat) grid = true).
        { apply existsb_exists. exists r. split; [exact Hin |].
          now apply negb_true_iff, Nat.eqb_neq. }
        congruence.
    + split; [discriminate | intros (_ & H & _); contradiction].
  - split; [discriminate |]. intros (Hok & _). apply Hwf in Hok. discriminate.
Qed.

(** ** More on the authenticity checker *)

Section MapFacts.
Import AuthenticitySpec.
Context {K V : Type} (eqb : K -> K -> bool).
Hypothesis eqb_spec : forall a b, reflect (a = b) (eqb a b).

Lemma lookup_upsert k f (m : list (K * V)) k' :
  lookup eqb k' (upsert eqb k f m) =
  if eqb k k' then Some (f (lookup eqb k m)) else lookup eqb k' m.
Proof.
  induction m as [| [k0 v0] m IH]; simpl.
  - destruct (eqb_spec k k'); reflexivity.
  - destruct (eqb_spec k0 k) as [-> | Hne]; simpl.
    + destruct (eqb_spec k k'); reflexivity.
    + rewrite IH. destruct (eqb_spec k0 k') as [-> | Hne'].
      * destruct (eqb_spec k k'); [congruence | reflexivity].
      * reflexivity.
Qed.

Lemma upsert_keys k f (m : list (K * V)) k' :
  In k' (map fst (upsert eqb k f m)) <-> k' = k \/ In k' (map fst m).
Proof.
  induction m as [| [k0 v0] m IH]; simpl.
  - intuition.
  - destruct (eqb_spec k0 k) as [-> | Hne]; simpl.
    + intuition.
    + rewrite IH. intuition.
Qed.

Lemma upsert_NoDup k f (m : list (K * V)) :
  NoDup (map fst m) -> NoDup (map fst (upsert eqb k f m)).
Proof.
  induction m as [| [k0 v0] m IH]; simpl; intros H.
  - constructor; [intros [] | constructor].
  - inversion H as [| ? ? Hnotin Hnodup]; subst.
    destruct (eqb_spec k0 k) as [-> | Hne]; simpl.
    + now constructor.
    + constructor; [| now apply IH].
      rewrite upsert_keys. intros [-> | Hin]; [congruence | contradiction].
Qed.

Lemma In_lookup (m : list (K * V)) k v :
  NoDup (map fst m) -> (In (k, v) m <-> lookup eqb k m = Some v).
Proof.
  induction m as [| [k0 v0] m IH]; simpl; intros H.
  - split; [intros [] | discriminate].
  - inversion H as [| ? ? Hnotin Hnodup]; subst.
    destruct (eqb_spec k0 k) as [-> | Hne].
    + split.
      * intros [Heq | Hin]; [now injection Heq as -> |].
        exfalso. apply Hnotin. apply (in_map fst) in Hin. exact Hin.
      * intros Heq. injection Heq as ->. now left.
    + rewrite <- (IH Hnodup). split; [| auto].
      intros [Heq | Hin]; [injection Heq as -> ->; congruence | exact Hin].
Qed.
End MapFacts.

Section GroupFacts.
Import Scheduler Authenticity AuthenticitySpec.
Local Open Scope list_scope.

Lemma string_eqb_reflect (a b : string) : reflect (a = b) (String.eqb a b).
Proof. apply String.eqb_spec. Qed.

Lemma Z_eqb_reflect (a b : Z) : reflect (a = b) (a =? b).
Proof. apply Z.eqb_spec. Qed.

Lemma pushByDay_upsert dayKey commit m :
  pushByDay dayKey commit m =
  upsert String.eqb dayKey
    (fun o => match o with Some cs => cs ++ [commit] | None => [commit] end) m.
Proof.
  induction m as [| [k cs] m IH]; simpl; [reflexivity |].
  destruct (String.eqb k dayKey); [reflexivity | now rewrite IH].
Qed.

Lemma bumpTime_upsert timeKey m :
  bumpTime timeKey m =
  upsert Z.eqb timeKey
    (fun o => match o with Some n => n + 1 | None => 0 + 1 end) m.
Proof.
  induction m as [| [k n] m IH]; simpl; [reflexivity |].
  destruct (k =? timeKey); [reflexivity | now rewrite IH].
Qed.

Lemma fold_left_snoc {A B} (f : A -> B -> A) (l : list B) (x : B) (a : A) :
  fold_left f (l ++ [x]) a = f (fold_left f l a) x.
Proof. now rewrite fold_left_app. Qed.

(** The groups of the days: each day that has commits, with its commits. *)
Lemma groupByDay_spec (commits : list ScheduledCommit) :
  NoDup (map fst (groupByDay commits))
  /\ forall day,
      lookup String.eqb day (groupByDay commits) =
      match commitsOn day commits with
      | [] => None
      | cs => Some cs
      end.
Proof.
  unfold groupByDay.
  induction commits as [| c commits IH] using rev_ind.
  - split; [constructor | reflexivity].
  - destruct IH as [Hnodup Hlookup].
    rewrite fold_left_snoc, pushByDay_upsert. split.
    + now apply (upsert_NoDup String.eqb string_eqb_reflect).
    + intros day.
      rewrite (lookup_upsert String.eqb string_eqb_reflect), !Hlookup.
      unfold commitsOn. rewrite filter_app. cbn [filter].
      destruct (String.eqb_spec (formatDay (date c)) day) as [-> | Hne].
      * destruct (filter _ commits); reflexivity.
      * rewrite app_nil_r. reflexivity.
Qed.

(** The counts of the timestamps. *)
Lemma countTimes_spec (commits : list ScheduledCommit) :
  NoDup (map fst (countTimes commits))
  /\ forall time,
      lookup Z.eqb time (countTimes commits) =
      match commitsAt time commits with
      | [] => None
      | cs => Some (Z.of_nat (List.length cs))
      end.
Proof.
  unfold countTimes.
  induction commits as [| c commits IH] using rev_ind.
  - split; [constructor | reflexivity].
  - destruct IH as [Hnodup Hlookup].
    rewrite fold_left_snoc, bumpTime_upsert. split.
    + now apply (upsert_NoDup Z.eqb Z_eqb_reflect).
    + intros time.
      rewrite (lookup_upsert Z.eqb Z_eqb_reflect), !Hlookup.
      unfold commitsAt. rewrite filter_app. cbn [filter].
      destruct (Z.eqb_spec (date c) time) as [-> | Hne].
      * destruct (filter _ commits) as [| c0 cs]; cbn [app List.length];
          [reflexivity |].
        rewrite length_app. cbn [List.length]. f_equal. lia.
      * rewrite app_nil_r. reflexivity.
Qed.

Lemma spacingIssues_kind commits i :
  In i (spacingIssues commits) -> exists n, i = EqualIntervals n.
Proof.
  unfold spacingIssues.
  destruct (3 <? List.length commits)%nat; [| intros []].
  destruct (allSame _ && _); [| intros []].
  intros [<- | []]. eauto.
Qed.
End GroupFacts.

(** X9. [checkScheduleAuthenticity] reports a day as having too many commits
    exactly when more than 15 commits of the schedule fall on that calendar
    day, and the issue gives their number and the day. *)
Theorem checkScheduleAuthenticity_daily_burst :
  forall (commits : list Scheduler.ScheduledCommit) (count : nat) (day : string),
    (In (Authenticity.TooManyInDay count day) (Authenticity.scheduleIssues commits)
     <-> count = List.length (AuthenticitySpec.commitsOn day commits)
         /\ (15 < count)%nat)
    /\ ((15 < List.length (AuthenticitySpec.commitsOn day commits))%nat ->
        In ("Suspicious pattern: "
            ++ JS.showNat (List.length (AuthenticitySpec.commitsOn day commits))
            ++ " commits on " ++ day ++ " (too many in one day)")
           (Authenticity.checkScheduleAuthenticity commits)).
Proof.
  intros commits count day.
  destruct (groupByDay_spec commits) as [Hnodup Hlookup].
  assert (Hiff : forall count,
             In (Authenticity.TooManyInDay count day)
                (Authenticity.scheduleIssues commits)
             <-> count = List.length (AuthenticitySpec.commitsOn day commits)
                 /\ (15 < count)%nat).
  { clear count. intros count. unfold Authenticity.scheduleIssues. rewrite !in_app_iff. split.
    - intros [H | [H | [H | H]]].
      + unfold Authenticity.dayIssues in H. apply in_flat_map in H.
        destruct H as ([d cs] & Hin & H).
        destruct (Nat.ltb_spec 15 (List.length cs)); [| destruct H].
        destruct H as [H | []]. injection H as <- <-.
        apply (In_lookup String.eqb string_eqb_reflect _ _ _ Hnodup) in Hin.
        rewrite Hlookup in Hin.
        destruct (AuthenticitySpec.commitsOn d commits); [discriminate |].
        injection Hin as <-. auto.
      + destruct (timeIssues_kind _ _ H) as (c & d & Hk). discriminate.
      + destruct (spacingIssues_kind _ _ H) as (n & Hk). discriminate.
      + destruct (lateNightIssues_kind _ _ H) as (c & p & Hk). discriminate.
    - intros [-> Hmany]. left.
      unfold Authenticity.dayIssues. apply in_flat_map.
      exists (day, AuthenticitySpec.commitsOn day commits). split.
      + apply (In_lookup String.eqb string_eqb_reflect _ _ _ Hnodup).
        rewrite Hlookup.
        destruct (AuthenticitySpec.commitsOn day commits); [simpl in Hmany; lia |].
        reflexivity.
      + destruct (Nat.ltb_spec 15
                    (List.length (AuthenticitySpec.commitsOn day commits)));
          [now left | lia]. }
  split; [apply Hiff |].
  intros Hmany. unfold Authenticity.checkScheduleAuthenticity.
  change (In (Authenticity.render
                (Authenticity.TooManyInDay
                   (List.length (AuthenticitySpec.commitsOn day commits)) day))
             (map Authenticity.render (Authenticity.scheduleIssues commits))).
  apply in_map, Hiff. auto.
Qed.

Lemma checkScheduleAuthenticity_daily_burst_witness :
  In "Suspicious pattern: 16 commits on 2024-01-01 (too many in one day)"
     (Authenticity.checkScheduleAuthenticity (CheckerScenario.minutely 16)).
Proof.
  apply (proj2 (checkScheduleAuthenticity_daily_burst
                  (CheckerScenario.minutely 16) 16 "2024-01-01")).
  vm_compute. lia.
Defined.

(** X10. [checkScheduleAuthenticity] reports commits at exactly the same
    time exactly for the timestamps that two or more commits of the schedule
    share, with the number of these commits and the formatted time. *)
Theorem checkScheduleAuthenticity_same_time :
  forall (commits : list Scheduler.ScheduledCommit) (count : Z) (dateStr : string),
    In (Authenticity.SameTime count dateStr) (Authenticity.scheduleIssues commits)
    <-> exists time,
          dateStr = Authenticity.formatDateTime time
          /\ count = Z.of_nat (List.length (AuthenticitySpec.commitsAt time commits))
          /\ 1 < count.
Proof.
  intros commits count dateStr.
  destruct (countTimes_spec commits) as [Hnodup Hlookup].
  unfold Authenticity.scheduleIssues. rewrite !in_app_iff. split.
  - intros [H | [H | [H | H]]].
    + destruct (dayIssues_kind _ _ H) as (c & d & Hk). discriminate.
    + unfold Authenticity.timeIssues in H. apply in_flat_map in H.
      destruct H as ([t c] & Hin & H).
      destruct (Z.gtb_spec c 1); [| destruct H].
      destruct H as [H | []]. injection H as <- <-.
      apply (In_lookup Z.eqb Z_eqb_reflect _ _ _ Hnodup) in Hin.
      rewrite Hlookup in Hin.
      destruct (AuthenticitySpec.commitsAt t commits) eqn:E; [discriminate |].
      injection Hin as <-. exists t. rewrite E. repeat split. lia.
    + destruct (spacingIssues_kind _ _ H) as (n & Hk). discriminate.
    + destruct (lateNightIssues_kind _ _ H) as (c & p & Hk). discriminate.
  - intros (time & -> & -> & Hmany). right. left.
    unfold Authenticity.timeIssues. apply in_flat_map.
    exists (time, Z.of_nat (List.length (AuthenticitySpec.commitsAt time commits))).
    split.
    + apply (In_lookup Z.eqb Z_eqb_reflect _ _ _ Hnodup).
      rewrite Hlookup.
      destruct (AuthenticitySpec.commitsAt time commits); [simpl in Hmany; lia |].
      reflexivity.
    + destruct (Z.gtb_spec
                  (Z.of_nat (List.length (AuthenticitySpec.commitsAt time commits))) 1);
        [now left | lia].
Qed.

Lemma checkScheduleAuthenticity_same_time_witness :
  In "Suspicious pattern: 2 commits at exactly the same time (2024-01-01 10:00:00)"
     (Authenticity.checkScheduleAuthenticity CheckerScenario.collision).
Proof.
  change (In (Authenticity.render (Authenticity.SameTime 2 "2024-01-01 10:00:00"))
             (map Authenticity.render
                (Authenticity.scheduleIssues CheckerScenario.collision))).
  apply in_map.
  apply (proj2 (checkScheduleAuthenticity_same_time CheckerScenario.collision
                  2 "2024-01-01 10:00:00")).
  exists (Calendar.mkDateTime 2024 1 1 10 0 0 0).
  split; [vm_compute; reflexivity |]. split; [vm_compute; reflexivity | lia].
Defined.

Section LateNightFacts.
Import Scheduler Authenticity AuthenticitySpec.

Lemma quarter_lt (total late : nat) :
  JS.Qltb (inject_Z (Z.of_nat total) * (1 # 4)) (inject_Z (Z.of_nat late)) = true
  <-> (total < 4 * late)%nat.
Proof.
  rewrite Qltb_true. unfold Qlt, Qmult, inject_Z. simpl Qnum. simpl Qden.
  lia.
Qed.
End LateNightFacts.

(** X11. [checkScheduleAuthenticity] reports late-night activity exactly when
    the commits whose hour is 1, 2, 3, 4 or 5 are strictly more than a
    quarter of the schedule; the issue gives their number and the percentage
    [Math.round(late / total * 100)] of double arithmetic, and its text is
    in the result.  When they are a quarter or less, no text of the result
    ends as the late-night text does.  An empty schedule has no issue at
    all. *)
Theorem checkScheduleAuthenticity_late_night :
  forall (commits : list Scheduler.ScheduledCommit) (count : nat) (percent : Z),
    let late := AuthenticitySpec.lateNightCount commits in
    let total := List.length commits in
    (In (Authenticity.LateNight count percent) (Authenticity.scheduleIssues commits)
     <-> count = late
         /\ (total < 4 * count)%nat
         /\ percent = Authenticity.percentage count total)
    /\ ((total < 4 * late)%nat ->
        In ("Suspicious pattern: " ++ JS.showNat late ++ " commits ("
            ++ JS.showZ (Authenticity.percentage late total)
            ++ "%) are between 1-5 AM")
           (Authenticity.checkScheduleAuthenticity commits))
    /\ ((4 * late <= total)%nat ->
        forall s, In s (Authenticity.checkScheduleAuthenticity commits) ->
                  Text.lastChar s <> Some "M"%char)
    /\ Authenticity.checkScheduleAuthenticity [] = [].
Proof.
  intros commits count percent late total.
  assert (Hiff : forall count percent,
             In (Authenticity.LateNight count percent)
                (Authenticity.scheduleIssues commits)
             <-> count = late
                 /\ (total < 4 * count)%nat
                 /\ percent = Authenticity.percentage count total).
  { clear count percent. intros count percent.
    unfold Authenticity.scheduleIssues. rewrite !in_app_iff. split.
    - intros [H | [H | [H | H]]].
      + destruct (dayIssues_kind _ _ H) as (c & d & Hk). discriminate.
      + destruct (timeIssues_kind _ _ H) as (c & d & Hk). discriminate.
      + destruct (spacingIssues_kind _ _ H) as (n & Hk). discriminate.
      + unfold Authenticity.lateNightIssues in H. cbv zeta in H.
        destruct (JS.Qltb _ _) eqn:E; [| destruct H].
        destruct H as [H | []]. injection H as <- <-.
        apply quarter_lt in E. auto.
    - intros (-> & Hmany & ->). right. right. right.
      unfold Authenticity.lateNightIssues. cbv zeta.
      apply quarter_lt in Hmany. subst late total.
      unfold AuthenticitySpec.lateNightCount in *.
      rewrite Hmany. now left. }
  split; [apply Hiff |]. split; [| split; [| reflexivity]].
  - intros Hmany. unfold Authenticity.checkScheduleAuthenticity.
    apply in_map_iff.
    exists (Authenticity.LateNight late (Authenticity.percentage late total)).
    split; [reflexivity |]. apply Hiff. auto.
  - intros Hfew s Hs Hlast.
    unfold Authenticity.checkScheduleAuthenticity in Hs.
    apply in_map_iff in Hs. destruct Hs as (i & <- & Hi).
    rewrite render_lastChar in Hlast.
    destruct i as [c d | c d | c | c p]; try discriminate.
    apply Hiff in Hi. destruct Hi as (-> & Hmany & _). lia.
Qed.

Lemma checkScheduleAuthenticity_late_night_witness :
  In "Suspicious pattern: 23 commits (57%) are between 1-5 AM"
     (Authenticity.checkScheduleAuthenticity (CheckerScenario.lateShare 23 40))
  /\ ~ In (Authenticity.LateNight 1 25)
          (Authenticity.scheduleIssues (CheckerScenario.nightly 1)).
Proof.
  split.
  - pose proof (proj1 (proj2 (checkScheduleAuthenticity_late_night
                                (CheckerScenario.lateShare 23 40) 0%nat 0)))
      as H.
    cbv zeta in H.
    assert (Hmany : (List.length (CheckerScenario.lateShare 23 40)
                     < 4 * AuthenticitySpec.lateNightCount
                           (CheckerScenario.lateShare 23 40))%nat)
      by (vm_compute; lia).
    specialize (H Hmany). vm_compute in H. vm_compute. exact H.
  - intros H.
    pose proof (proj1 (proj1 (checkScheduleAuthenticity_late_night
                                (CheckerScenario.nightly 1) 1 25)) H) as H'.
    destruct H' as (_ & H' & _). vm_compute in H'. lia.
Defined.

(** ** More on the random commit times and the schedule mapper *)

Section RandomRange.

(** [Math.floor(Math.random() * n)] is one of [0 .. n-1]. *)
Lemma floor_scale (r : Q) (n : Z) :
  (0 <= r < 1)%Q -> 0 < n -> 0 <= JS.floor (r * inject_Z n) < n.
Proof.
  intros [H0 H1] Hn. unfold JS.floor.
  assert (Hn' : (0 < inject_Z n)%Q) by (now rewrite (Zlt_Qlt 0 n) in Hn).
  split.
  - change 0 with (Qfloor 0). apply Qfloor_resp_le.
    apply Qmult_le_0_compat; [exact H0 | now apply Qlt_le_weak].
  - rewrite Zlt_Qlt.
    eapply Qle_lt_trans; [apply Qfloor_le |].
    rewrite <- (Qmult_1_l (inject_Z n)) at 2.
    apply Qmult_lt_r; assumption.
Qed.

Lemma setTime_fields (dt h m s : Z) :
  0 <= h < 24 -> 0 <= m < 60 -> 0 <= s < 60 ->
  Calendar.dayNumber (DateUtils.setTime dt h m s) = Calendar.dayNumber dt
  /\ Calendar.hour (DateUtils.setTime dt h m s) = h
  /\ Calendar.millisecond (DateUtils.setTime dt h m s) = Calendar.millisecond dt.
Proof.
  intros Hh Hm Hs.
  unfold DateUtils.setTime, Calendar.hour, Calendar.timeOfDay, Calendar.dayNumber,
    Calendar.millisecond, Calendar.msPerDay, Calendar.msPerHour,
    Calendar.msPerMinute, Calendar.msPerSecond.
  repeat split; Z.div_mod_to_equations; lia.
Qed.
End RandomRange.

Section RandomTimes.
Import Calendar DateUtils PlacementSpec.

Variable rand : nat -> Q.
Hypothesis rand_range : forall n, (0 <= rand n < 1)%Q.

Lemma Ok_pair_inj {A B} (a a' : A) (b b' : B) :
  @Ok (A * B) (a, b) = Ok (a', b') -> a = a' /\ b = b'.
Proof. intros H. injection H as -> ->. auto. Qed.

(** One random time, written out. *)
Lemma randomCommitTime_eval baseDt workHoursOnly k :
  randomCommitTime baseDt workHoursOnly rand k =
  if workHoursOnly then
    Ok (setTime baseDt (9 + JS.floor (rand k * 8))
          (JS.floor (rand (S k) * 60)) (JS.floor (rand (S (S k)) * 60)),
        S (S (S k)))
  else if JS.Qltb (rand k) (Double.nearest (7 # 10)) then
    Ok (setTime baseDt (9 + JS.floor (rand (S k) * 8))
          (JS.floor (rand (S (S k)) * 60)) (JS.floor (rand (S (S (S k))) * 60)),
        S (S (S (S k))))
  else
    Ok (setTime baseDt (JS.floor (rand (S k) * 24))
          (JS.floor (rand (S (S k)) * 60)) (JS.floor (rand (S (S (S k))) * 60)),
        S (S (S (S k)))).
Proof.
  unfold randomCommitTime, bind, random, ret.
  destruct workHoursOnly; [reflexivity |].
  destruct (JS.Qltb (rand k) (Double.nearest (7 # 10))); reflexivity.
Qed.

Lemma randomCommitTime_onDay baseDt workHoursOnly k t k' :
  randomCommitTime baseDt workHoursOnly rand k = Ok (t, k') ->
  onDayOf baseDt workHoursOnly t.
Proof.
  rewrite randomCommitTime_eval. unfold onDayOf.
  assert (H8 : forall j, 0 <= JS.floor (rand j * 8) < 8)
    by (intros j; apply (floor_scale (rand j) 8); [apply rand_range | lia]).
  assert (H24 : forall j, 0 <= JS.floor (rand j * 24) < 24)
    by (intros j; apply (floor_scale (rand j) 24); [apply rand_range | lia]).
  assert (H60 : forall j, 0 <= JS.floor (rand j * 60) < 60)
    by (intros j; apply (floor_scale (rand j) 60); [apply rand_range | lia]).
  destruct workHoursOnly.
  - intros H. apply Ok_pair_inj in H. destruct H as [<- _].
    destruct (setTime_fields baseDt (9 + JS.floor (rand k * 8))
                (JS.floor (rand (S k) * 60)) (JS.floor (rand (S (S k)) * 60)))
      as (Hd & Hh & Hms); try apply H60; [specialize (H8 k); lia |].
    rewrite Hd, Hh, Hms. specialize (H8 k). repeat split; lia.
  - destruct (JS.Qltb (rand k) (Double.nearest (7 # 10))); intros H;
      apply Ok_pair_inj in H; destruct H as [<- _].
    + destruct (setTime_fields baseDt (9 + JS.floor (rand (S k) * 8))
                  (JS.floor (rand (S (S k)) * 60))
                  (JS.floor (rand (S (S (S k))) * 60)))
        as (Hd & Hh & Hms); try apply H60; [specialize (H8 (S k)); lia |].
      rewrite Hd, Hh, Hms. specialize (H8 (S k)). repeat split; lia.
    + destruct (setTime_fields baseDt (JS.floor (rand (S k) * 24))
                  (JS.floor (rand (S (S k)) * 60))
                  (JS.floor (rand (S (S (S k))) * 60)))
        as (Hd & Hh & Hms); try apply H60; [apply H24 |].
      rewrite Hd, Hh, Hms. specialize (H24 (S k)). repeat split; lia.
Qed.

Lemma randomCommitTimes_onDay n baseDt workHoursOnly :
  forall result k times k',
    Forall (onDayOf baseDt workHoursOnly) result ->
    randomCommitTimes n baseDt workHoursOnly result rand k = Ok (times, k') ->
    Forall (onDayOf baseDt workHoursOnly) times.
Proof.
  induction n as [| n IH]; intros result k times k' Hres H.
  - injection H as <- _. exact Hres.
  - cbn [randomCommitTimes] in H. apply bind_Ok in H.
    destruct H as (t & k1 & Ht & H).
    apply (IH _ _ _ _ (proj2 (Forall_app _ _ _)
                         (conj Hres (Forall_cons _ (randomCommitTime_onDay _ _ _ _ _ Ht)
                                                 (Forall_nil _)))) H).
Qed.

(** What [generateRandomCommitTimes] returns for a count that is not
    negative. *)
Lemma generateRandomCommitTimes_spec baseDate count workHoursOnly k :
  0 <= count ->
  exists times k',
    generateRandomCommitTimes baseDate (Some count) workHoursOnly rand k
    = Ok (times, k')
    /\ Z.of_nat (List.length times) = count
    /\ Sorted Z.le times
    /\ Forall (onDayOf baseDate workHoursOnly) times.
Proof.
  intros Hcount. unfold generateRandomCommitTimes.
  destruct (Z.ltb_spec count 0); [lia |].
  destruct (randomCommitTimes_Ok (Z.to_nat count) baseDate workHoursOnly [] rand k)
    as (times & k' & Hrun & Hlen).
  rewrite (bind_Ok_intro _ _ _ _ _ _ Hrun).
  exists (sortBy (fun t => t) times), k'. split; [reflexivity |].
  split; [| split].
  - rewrite (Permutation_length (sortBy_perm _ times)), Hlen. simpl. lia.
  - apply (sortBy_sorted (fun t : Z => t)).
  - apply (Permutation_Forall (Permutation_sym (sortBy_perm _ times))).
    exact (randomCommitTimes_onDay _ _ _ _ _ _ _ (Forall_nil _) Hrun).
Qed.
End RandomTimes.

(** X12. For a count that is not negative (and [Math.random] in [0, 1)),
    [generateRandomCommitTimes] returns exactly [count] times in ascending
    order, all of them on the calendar day of [baseDate] with its
    milliseconds; with [workHoursOnly] every hour is one of 9..16.  A
    negative count throws. *)
Theorem generateRandomCommitTimes_sorted_on_day :
  forall (rand : nat -> Q) (baseDate count : Z) (workHoursOnly : bool) (k : nat),
    (forall n, (0 <= rand n < 1)%Q) ->
    (0 <= count ->
     exists times k',
       DateUtils.generateRandomCommitTimes baseDate (Some count) workHoursOnly rand k
       = Ok (times, k')
       /\ Z.of_nat (List.length times) = count
       /\ Sorted Z.le times
       /\ Forall (PlacementSpec.onDayOf baseDate workHoursOnly) times)
    /\ (count < 0 ->
        DateUtils.generateRandomCommitTimes baseDate (Some count) workHoursOnly rand k
        = Err "Count must be a non-negative number").
Proof.
  intros rand baseDate count workHoursOnly k Hrand. split.
  - apply generateRandomCommitTimes_spec. exact Hrand.
  - apply generateRandomCommitTimes_negative.
Qed.

Lemma generateRandomCommitTimes_sorted_on_day_witness :
  exists times k',
    DateUtils.generateRandomCommitTimes (Calendar.mkDateTime 2024 1 2 0 0 0 0)
      (Some 3) true MapperScenario.rnd 0%nat = Ok (times, k')
    /\ Z.of_nat (List.length times) = 3
    /\ Sorted Z.le times
    /\ Forall (PlacementSpec.onDayOf (Calendar.mkDateTime 2024 1 2 0 0 0 0) true)
              times.
Proof.
  apply (proj1 (generateRandomCommitTimes_sorted_on_day MapperScenario.rnd
                  (Calendar.mkDateTime 2024 1 2 0 0 0 0) 3 true 0%nat rnd_range)).
  lia.
Defined.

Section CellShape.
Import Calendar Scheduler.

Variable options : CommitScheduleOptions.
Variables (cols : nat) (totalDays daysPerCell : Z).
Variable rand : nat -> Q.

(** What the loop body adds for a cell: nothing, or one commit for each
    time that [generateRandomCommitTimes] returns for the day of the cell,
    with the value and the label of the cell. *)
Lemma cellStep_shape row col k commits k' :
  cellStep options cols totalDays daysPerCell row col rand k
  = Ok (Some commits, k') ->
  commits = []
  \/ exists v count times k2 k3,
      Z.of_nat (row * cols + col) * daysPerCell < totalDays
      /\ cellAt (pattern options) row col = Some v
      /\ (0 < v)%Q
      /\ count <= maxCommitsPerDayOf options
      /\ DateUtils.generateRandomCommitTimes
           (plusDays (startDate options)
              (Z.of_nat (row * cols + col) * daysPerCell))
           (Some count) (workHoursOnlyOf options) rand k2 = Ok (times, k3)
      /\ commits = map (fun t => {| date := t; weight := v;
                                    message := cellMessage row col |}) times.
Proof.
  intros H.
  destruct (Z.le_gt_cases totalDays (Z.of_nat (row * cols + col) * daysPerCell))
    as [Hout | Hin].
  { rewrite cellStep_break in H by exact Hout. discriminate. }
  destruct (cellAt (pattern options) row col) as [v |] eqn:Hcell.
  - destruct (Qlt_le_dec 0 v) as [Hv | Hv].
    + rewrite (cellStep_eval options cols totalDays daysPerCell row col rand k v
                 Hin Hcell Hv) in H.
      cbv zeta in H.
      destruct (_ && JS.Qltb _ _); [injection H as <- _; now left |].
      match type of H with
      | context [DateUtils.generateRandomCommitTimes ?d (Some ?c) ?w rand ?j] =>
          destruct (DateUtils.generateRandomCommitTimes d (Some c) w rand j)
            as [[times k3] | msg] eqn:Hgen; [| discriminate];
          injection H as <- _; right; exists v, c, times, j, k3
      end.
      repeat split; try assumption. apply Z.le_min_l.
    + left. unfold cellStep in H.
      destruct (Z.geb_spec (Z.of_nat (row * cols + col) * daysPerCell) totalDays);
        [lia |].
      rewrite Hcell in H. unfold isEmptyCell in H.
      apply Qleb_true in Hv. rewrite Hv in H. now injection H as <- _.
  - left. unfold cellStep in H.
    destruct (Z.geb_spec (Z.of_nat (row * cols + col) * daysPerCell) totalDays);
      [lia |].
    rewrite Hcell in H.
    unfold isEmptyCell, commitsForCell, bind, random, ret in H.
    destruct (avoidWeekendsOf options && DateUtils.isWeekend _);
      [destruct (JS.Qltb (Double.nearest (3 # 10)) (rand k)) |];
      destruct (randomizeOf options); cbn in H; now injection H as <- _.
Qed.

(** A property that the loop body keeps is kept by the two loops. *)
Section Invariant.
Variable rows : nat.
Variable P : ScheduledCommit -> Prop.
Hypothesis cell_keeps : forall row col k commits k',
  (row < rows)%nat -> (col < cols)%nat ->
  cellStep options cols totalDays daysPerCell row col rand k
  = Ok (Some commits, k') ->
  Forall P commits.

Lemma colLoop_keeps n row : forall col acc k res k',
  (row < rows)%nat -> (col + n <= cols)%nat ->
  Forall P acc ->
  colLoop options cols totalDays daysPerCell n row col acc rand k = Ok (res, k') ->
  Forall P res.
Proof.
  induction n as [| n IH]; intros col acc k res k' Hrow Hcol Hacc H.
  - injection H as <- _. exact Hacc.
  - cbn [colLoop] in H. apply bind_Ok in H.
    destruct H as ([commits |] & k1 & Hstep & H).
    + refine (IH _ _ _ _ _ Hrow _ _ H); [lia |].
      apply Forall_app. split; [exact Hacc |].
      apply (cell_keeps row col k commits k1); [exact Hrow | lia | exact Hstep].
    + injection H as <- _. exact Hacc.
Qed.

Lemma rowLoop_keeps n : forall row acc k res k',
  (row + n <= rows)%nat ->
  Forall P acc ->
  rowLoop options cols totalDays daysPerCell n row acc rand k = Ok (res, k') ->
  Forall P res.
Proof.
  induction n as [| n IH]; intros row acc k res k' Hrow Hacc H.
  - injection H as <- _. exact Hacc.
  - cbn [rowLoop] in H. apply bind_Ok in H.
    destruct H as (acc1 & k1 & Hcols & H).
    refine (IH _ _ _ _ _ _ _ H); [lia |].
    apply (colLoop_keeps cols row 0%nat acc k acc1 k1); [lia | lia | exact Hacc | exact Hcols].
Qed.
End Invariant.
End CellShape.

(** A property of the commits that every cell keeps holds of the schedule. *)
Lemma mapPatternToSchedule_keeps
    (options : Scheduler.CommitScheduleOptions) (rand : nat -> Q)
    (P : Scheduler.ScheduledCommit -> Prop) k commits k' :
  let rows := List.length (Scheduler.pattern options) in
  let cols := List.length (nth 0%nat (Scheduler.pattern options) []) in
  let totalDays :=
    Scheduler.totalDaysOf (Scheduler.startDate options) (Scheduler.endDate options) in
  let daysPerCell := Scheduler.daysPerCellOf totalDays rows cols in
  (forall row col j cs j',
      (row < rows)%nat -> (col < cols)%nat ->
      Scheduler.cellStep options cols totalDays daysPerCell row col rand j
      = Ok (Some cs, j') ->
      Forall P cs) ->
  Scheduler.mapPatternToSchedule options rand k = Ok (commits, k') ->
  Forall P commits.
Proof.
  intros rows cols totalDays daysPerCell Hcell H.
  apply mapPatternToSchedule_Ok in H.
  destruct H as (_ & _ & _ & l & Hloop & ->).
  fold rows cols totalDays daysPerCell in Hloop.
  apply (Permutation_Forall (Permutation_sym (sortBy_perm Scheduler.date l))).
  apply (rowLoop_keeps options cols totalDays daysPerCell rand rows P Hcell
           rows 0%nat [] k l k'); [lia | constructor | exact Hloop].
Qed.

(** X13. Whenever [mapPatternToSchedule] returns, every commit of the
    schedule comes from a cell of the grid that lies inside the date range
    and has a positive value: its [weight] is the value of the cell and its
    [message] the label of the cell.  Cells of value 0 or less yield no
    commit. *)
Theorem mapPatternToSchedule_commit_provenance :
  forall (options : Scheduler.CommitScheduleOptions) (rand : nat -> Q)
         (k k' : nat) (commits : list Scheduler.ScheduledCommit),
    Scheduler.mapPatternToSchedule options rand k = Ok (commits, k') ->
    let rows := List.length (Scheduler.pattern options) in
    let cols := List.length (nth 0%nat (Scheduler.pattern options) []) in
    let totalDays :=
      Scheduler.totalDaysOf (Scheduler.startDate options) (Scheduler.endDate options) in
    let daysPerCell := Scheduler.daysPerCellOf totalDays rows cols in
    forall e, In e commits ->
      exists row col v,
        (row < rows)%nat /\ (col < cols)%nat
        /\ Z.of_nat (row * cols + col) * daysPerCell < totalDays
        /\ Scheduler.cellAt (Scheduler.pattern options) row col = Some v
        /\ (0 < v)%Q
        /\ Scheduler.weight e = v
        /\ Scheduler.message e = Scheduler.cellMessage row col.
Proof.
  intros options rand k k' commits H rows cols totalDays daysPerCell.
  apply Forall_forall.
  refine (mapPatternToSchedule_keeps options rand _ k commits k' _ H).
  intros row col j cs j' Hrow Hcol Hstep.
  apply cellStep_shape in Hstep.
  destruct Hstep as [-> | (v & count & times & k2 & k3 & Hin & Hcell & Hv & _ & _ & ->)];
    [constructor |].
  apply Forall_forall. intros e He. apply in_map_iff in He.
  destruct He as (t & <- & _).
  exists row, col, v. repeat split; assumption.
Qed.

Lemma mapPatternToSchedule_commit_provenance_witness :
  Forall (fun e =>
            exists row col v,
              (row < 2)%nat /\ (col < 2)%nat
              /\ Z.of_nat (row * 2 + col) * 1 < 2
              /\ Scheduler.cellAt [[1%Q; 2%Q]; [3%Q; 4%Q]] row col = Some v
              /\ (0 < v)%Q
              /\ Scheduler.weight e = v
              /\ Scheduler.message e = Scheduler.cellMessage row col)
         (MapperScenario.scheduleOf MapperScenario.twoDays).
Proof.
  assert (H : Scheduler.mapPatternToSchedule MapperScenario.twoDays MapperScenario.rnd 0%nat
              = Ok (MapperScenario.scheduleOf MapperScenario.twoDays, 14%nat))
    by (vm_compute; reflexivity).
  apply Forall_forall.
  exact (mapPatternToSchedule_commit_provenance _ _ _ _ _ H).
Defined.

Section DayFacts.
Import Calendar.

Lemma dayNumber_plusDays (t n : Z) : dayNumber (plusDays t n) = dayNumber t + n.
Proof.
  unfold dayNumber, plusDays, msPerDay. now rewrite Z.div_add by lia.
Qed.
End DayFacts.

(** X14. Whenever [mapPatternToSchedule] returns (with [Math.random] in
    [0, 1)), every commit falls on the calendar day of its cell, day number
    [idx * daysPerCell] after the day of [startDate], which is one of the
    [totalDays] days from the day of [startDate] on; with [workHoursOnly] its
    hour is one of 9..16. *)
Theorem mapPatternToSchedule_commit_days :
  forall (options : Scheduler.CommitScheduleOptions) (rand : nat -> Q)
         (k k' : nat) (commits : list Scheduler.ScheduledCommit),
    (forall n, (0 <= rand n < 1)%Q) ->
    Scheduler.mapPatternToSchedule options rand k = Ok (commits, k') ->
    let rows := List.length (Scheduler.pattern options) in
    let cols := List.length (nth 0%nat (Scheduler.pattern options) []) in
    let totalDays :=
      Scheduler.totalDaysOf (Scheduler.startDate options) (Scheduler.endDate options) in
    let daysPerCell := Scheduler.daysPerCellOf totalDays rows cols in
    let startDay := Calendar.dayNumber (Scheduler.startDate options) in
    forall e, In e commits ->
      (exists row col,
          (row < rows)%nat /\ (col < cols)%nat
          /\ Scheduler.message e = Scheduler.cellMessage row col
          /\ Calendar.dayNumber (Scheduler.date e)
             = startDay + Z.of_nat (row * cols + col) * daysPerCell)
      /\ startDay <= Calendar.dayNumber (Scheduler.date e) < startDay + totalDays
      /\ (Scheduler.workHoursOnlyOf options = true ->
          9 <= Calendar.hour (Scheduler.date e) < 17).
Proof.
  intros options rand k k' commits Hrand H rows cols totalDays daysPerCell startDay.
  apply Forall_forall.
  refine (mapPatternToSchedule_keeps options rand _ k commits k' _ H).
  intros row col j cs j' Hrow Hcol Hstep.
  apply cellStep_shape in Hstep.
  destruct Hstep as [-> | (v & count & times & k2 & k3 & Hin & _ & _ & _ & Hgen & ->)];
    [constructor |].
  assert (Hcount : 0 <= count).
  { destruct (Z.lt_ge_cases count 0) as [Hneg | Hok]; [| lia].
    rewrite (generateRandomCommitTimes_negative _ _ _ _ _ Hneg) in Hgen.
    discriminate. }
  destruct (generateRandomCommitTimes_spec rand Hrand
              (Calendar.plusDays (Scheduler.startDate options)
                 (Z.of_nat (row * cols + col) * daysPerCell))
              count (Scheduler.workHoursOnlyOf options) k2 Hcount)
    as (times' & k3' & Hgen' & _ & _ & Hday).
  destruct (Ok_pair_inj _ _ _ _ (eq_trans (eq_sym Hgen) Hgen')) as [<- <-].
  assert (Hdpc : 1 <= daysPerCell) by apply Z.le_max_l.
  apply Forall_forall. intros e He. apply in_map_iff in He.
  destruct He as (t & <- & Ht).
  rewrite Forall_forall in Hday. destruct (Hday t Ht) as (Hd & _ & Hh).
  rewrite dayNumber_plusDays in Hd. fold startDay in Hd.
  cbn [Scheduler.date Scheduler.message].
  split; [exists row, col; repeat split; assumption |].
  split.
  - rewrite Hd. split.
    + assert (0 <= Z.of_nat (row * cols + col) * daysPerCell)
        by (apply Z.mul_nonneg_nonneg; lia).
      lia.
    + apply Z.add_lt_mono_l. exact Hin.
  - intros Hw. rewrite Hw in Hh. exact Hh.
Qed.

Lemma mapPatternToSchedule_commit_days_witness :
  Forall (fun e =>
            Calendar.dayNumber (Calendar.mkDateTime 2024 1 1 0 0 0 0)
            <= Calendar.dayNumber (Scheduler.date e)
            < Calendar.dayNumber (Calendar.mkDateTime 2024 1 1 0 0 0 0) + 2)
         (MapperScenario.scheduleOf MapperScenario.twoDays).
Proof.
  assert (H : Scheduler.mapPatternToSchedule MapperScenario.twoDays MapperScenario.rnd 0%nat
              = Ok (MapperScenario.scheduleOf MapperScenario.twoDays, 14%nat))
    by (vm_compute; reflexivity).
  apply Forall_forall. intros e He.
  exact (proj1 (proj2 (mapPatternToSchedule_commit_days _ _ _ _ _ rnd_range H e He))).
Defined.

Section IdleCells.
Import Calendar Scheduler.

Variable options : CommitScheduleOptions.
Variables (cols : nat) (totalDays daysPerCell : Z).
Variable rand : nat -> Q.

Hypothesis no_positive : forall row col v,
  cellAt (pattern options) row col = Some v -> (v <= 0)%Q.

(** Without a positive cell the loop body adds nothing and does not throw. *)
Lemma cellStep_idle row col k :
  exists step k',
    cellStep options cols totalDays daysPerCell row col rand k = Ok (step, k')
    /\ (step = None \/ step = Some []).
Proof.
  destruct (Z.le_gt_cases totalDays (Z.of_nat (row * cols + col) * daysPerCell))
    as [Hout | Hin].
  { rewrite cellStep_break by exact Hout. eauto. }
  unfold cellStep.
  destruct (Z.geb_spec (Z.of_nat (row * cols + col) * daysPerCell) totalDays);
    [lia |].
  destruct (cellAt (pattern options) row col) as [v |] eqn:Hcell.
  - unfold isEmptyCell. pose proof (no_positive row col v Hcell) as Hv.
    apply Qleb_true in Hv. rewrite Hv. unfold ret. eauto.
  - unfold isEmptyCell, commitsForCell, bind, random, ret.
    destruct (avoidWeekendsOf options && DateUtils.isWeekend _);
      [destruct (JS.Qltb (Double.nearest (3 # 10)) (rand k)) |];
      destruct (randomizeOf options); cbn; eauto.
Qed.

Lemma colLoop_idle n row : forall col acc k,
  exists k', colLoop options cols totalDays daysPerCell n row col acc rand k
             = Ok (acc, k').
Proof.
  induction n as [| n IH]; intros col acc k.
  - cbn. unfold ret. eauto.
  - cbn [colLoop].
    destruct (cellStep_idle row col k) as (step & k1 & Hstep & [-> | ->]);
      rewrite (bind_Ok_intro _ _ _ _ _ _ Hstep).
    + unfold ret. eauto.
    + rewrite app_nil_r. apply IH.
Qed.

Lemma rowLoop_idle n : forall row acc k,
  exists k', rowLoop options cols totalDays daysPerCell n row acc rand k
             = Ok (acc, k').
Proof.
  induction n as [| n IH]; intros row acc k.
  - cbn. unfold ret. eauto.
  - cbn [rowLoop].
    destruct (colLoop_idle cols row 0%nat acc k) as (k1 & Hrow).
    rewrite (bind_Ok_intro _ _ _ _ _ _ Hrow). apply IH.
Qed.
End IdleCells.

(** X15. For a pattern with a row and a column over a range of at least one
    day, if no cell has a positive value then [mapPatternToSchedule] returns
    the empty schedule (it does not throw). *)
Theorem mapPatternToSchedule_no_positive_cell :
  forall (options : Scheduler.CommitScheduleOptions) (rand : nat -> Q) (k : nat),
    Scheduler.pattern options <> [] ->
    nth 0%nat (Scheduler.pattern options) [] <> [] ->
    1 <= Scheduler.totalDaysOf (Scheduler.startDate options)
                               (Scheduler.endDate options) ->
    (forall row col v,
        Scheduler.cellAt (Scheduler.pattern options) row col = Some v ->
        (v <= 0)%Q) ->
    exists k', Scheduler.mapPatternToSchedule options rand k = Ok ([], k').
Proof.
  intros options rand k Hrows Hcols Hdays Hzero.
  unfold Scheduler.mapPatternToSchedule, rethrow.
  destruct (Nat.eqb_spec (List.length (Scheduler.pattern options)) 0) as [H0 | _];
    [destruct (Scheduler.pattern options); [contradiction | discriminate] |].
  destruct (Nat.eqb_spec (List.length (nth 0%nat (Scheduler.pattern options) [])) 0)
    as [H0 | _];
    [destruct (nth 0%nat (Scheduler.pattern options) []);
       [contradiction | discriminate] |].
  destruct (Z.ltb_spec (Scheduler.totalDaysOf (Scheduler.startDate options)
                          (Scheduler.endDate options)) 1); [lia |].
  match goal with
  | |- context [Scheduler.rowLoop options ?c ?t ?d ?n 0%nat [] ] =>
      destruct (rowLoop_idle options c t d rand Hzero n 0%nat [] k) as (k' & Hloop)
  end.
  rewrite (bind_Ok_intro _ _ _ _ _ _ Hloop). unfold ret. cbn. eauto.
Qed.

Lemma mapPatternToSchedule_no_positive_cell_witness :
  exists k',
    Scheduler.mapPatternToSchedule ZeroScenario.allZero MapperScenario.rnd 0%nat
    = Ok ([], k').
Proof.
  apply mapPatternToSchedule_no_positive_cell.
  - discriminate.
  - discriminate.
  - vm_compute. discriminate.
  - intros row col v H. unfold Scheduler.cellAt in H. apply nth_error_In in H.
    assert (Hcells : In (nth row (Scheduler.pattern ZeroScenario.allZero) [])
                        (Scheduler.pattern ZeroScenario.allZero)
                     \/ nth row (Scheduler.pattern ZeroScenario.allZero) [] = [])
      by (destruct (nth_in_or_default row (Scheduler.pattern ZeroScenario.allZero) []);
          [left | right]; assumption).
    revert H Hcells.
    generalize (nth row (Scheduler.pattern ZeroScenario.allZero) []).
    intros cells H [Hin | ->]; [| destruct H].
    simpl in Hin. destruct Hin as [<- | [<- | []]]; simpl in H;
      repeat (destruct H as [<- | H]; [apply Qle_refl |]); destruct H.
Defined.

Section CellCap.
Import Calendar Scheduler MapperSpec PlacementSpec.
Local Open Scope list_scope.

Variable options : CommitScheduleOptions.
Variables (cols : nat) (totalDays daysPerCell : Z).
Variable rand : nat -> Q.

Lemma commitsOfCell_app row col a b :
  commitsOfCell row col (a ++ b) = commitsOfCell row col a ++ commitsOfCell row col b.
Proof. apply filter_app. Qed.

Lemma commitsOfCell_labelled row col r c v times :
  commitsOfCell r c
    (map (fun t => {| date := t; weight := v; message := cellMessage row col |}) times)
  = if (row =? r)%nat && (col =? c)%nat
    then map (fun t => {| date := t; weight := v; message := cellMessage row col |}) times
    else [].
Proof.
  unfold commitsOfCell.
  induction times as [| t times IH]; cbn [map filter message].
  - now destruct (_ && _).
  - rewrite IH.
    destruct (String.eqb_spec (cellMessage row col) (cellMessage r c)) as [Heq | Hne].
    + apply cellMessage_inj in Heq. destruct Heq as [-> ->].
      now rewrite !Nat.eqb_refl.
    + destruct (Nat.eqb_spec row r) as [-> |]; [| reflexivity].
      destruct (Nat.eqb_spec col c) as [-> |]; [| reflexivity].
      contradiction.
Qed.

Local Abbreviation capped := (PlacementSpec.capped (maxCommitsPerDayOf options)).

Lemma capped_later acc row col row' col' :
  (forall r c, before r c row col -> before r c row' col') ->
  capped acc row col -> capped acc row' col'.
Proof.
  unfold PlacementSpec.capped.
  intros Hlater H r c. destruct (H r c) as [Hcap Hnone].
  split; [exact Hcap |]. intros Hnot. apply Hnone. auto.
Qed.

Lemma cellStep_capped row col k commits k' acc :
  capped acc row col ->
  cellStep options cols totalDays daysPerCell row col rand k
  = Ok (Some commits, k') ->
  capped (acc ++ commits) row (S col).
Proof.
  intros Hacc Hstep. apply cellStep_shape in Hstep.
  destruct Hstep as [-> | (v & count & times & k2 & k3 & _ & _ & _ & Hcap & Hgen & ->)].
  - rewrite app_nil_r. revert Hacc. apply capped_later.
    unfold before. intros r c. lia.
  - assert (Hlen : Z.of_nat (List.length times) = count).
    { destruct (Z.lt_ge_cases count 0) as [Hneg | Hok].
      - rewrite (generateRandomCommitTimes_negative _ _ _ _ _ Hneg) in Hgen.
        discriminate.
      - destruct (generateRandomCommitTimes_count
                    (plusDays (startDate options)
                       (Z.of_nat (row * cols + col) * daysPerCell))
                    count (workHoursOnlyOf options) rand k2 Hok)
          as (times' & k3' & Hgen' & Hlen).
        destruct (Ok_pair_inj _ _ _ _ (eq_trans (eq_sym Hgen) Hgen'))
          as [<- _].
        exact Hlen. }
    unfold PlacementSpec.capped in *.
    intros r c. destruct (Hacc r c) as [Hcapped Hnone].
    rewrite commitsOfCell_app, commitsOfCell_labelled.
    destruct (Nat.eqb_spec row r) as [<- | Hr]; cbn [andb].
    + destruct (Nat.eqb_spec col c) as [<- | Hc].
      * rewrite Hnone by (unfold before; lia).
        cbn [app]. rewrite length_map. split; [lia |].
        intros Hnot. exfalso. apply Hnot. unfold before. lia.
      * rewrite app_nil_r. split; [exact Hcapped |].
        intros Hnot. apply Hnone. unfold before in *. lia.
    + rewrite app_nil_r. split; [exact Hcapped |].
      intros Hnot. apply Hnone. unfold before in *. lia.
Qed.

Lemma colLoop_capped n row : forall col acc k res k',
  capped acc row col ->
  colLoop options cols totalDays daysPerCell n row col acc rand k = Ok (res, k') ->
  capped res (S row) 0.
Proof.
  induction n as [| n IH]; intros col acc k res k' Hacc H.
  - injection H as <- _. revert Hacc. apply capped_later.
    unfold before. intros r c. lia.
  - cbn [colLoop] in H. apply bind_Ok in H.
    destruct H as ([commits |] & k1 & Hstep & H).
    + exact (IH _ _ _ _ _ (cellStep_capped _ _ _ _ _ _ Hacc Hstep) H).
    + injection H as <- _. revert Hacc. apply capped_later.
      unfold before. intros r c. lia.
Qed.

Lemma rowLoop_capped n : forall row acc k res k',
  capped acc row 0 ->
  rowLoop options cols totalDays daysPerCell n row acc rand k = Ok (res, k') ->
  forall r c,
    Z.of_nat (List.length (commitsOfCell r c res)) <= maxCommitsPerDayOf options.
Proof.
  induction n as [| n IH]; intros row acc k res k' Hacc H.
  - injection H as <- _. intros r c. apply Hacc.
  - cbn [rowLoop] in H. apply bind_Ok in H.
    destruct H as (acc1 & k1 & Hcols & H).
    exact (IH _ _ _ _ _ (colLoop_capped _ _ _ _ _ _ _ Hacc Hcols) H).
Qed.

Lemma filter_perm {A} (f : A -> bool) (l l' : list A) :
  Permutation l l' -> Permutation (filter f l) (filter f l').
Proof.
  induction 1 as [| x l l' _ IH | x y l | l l' l'' _ IH1 _ IH2]; cbn [filter].
  - constructor.
  - destruct (f x); [now constructor | exact IH].
  - destruct (f x), (f y); try reflexivity. apply perm_swap.
  - now transitivity (filter f l').
Qed.
End CellCap.

(** X16. Whenever [mapPatternToSchedule] returns, with a [maxCommitsPerDay]
    that is not negative, no cell of the pattern has more than
    [maxCommitsPerDay] commits in the schedule. *)
Theorem mapPatternToSchedule_cell_cap :
  forall (options : Scheduler.CommitScheduleOptions) (rand : nat -> Q)
         (k k' : nat) (commits : list Scheduler.ScheduledCommit),
    0 <= Scheduler.maxCommitsPerDayOf options ->
    Scheduler.mapPatternToSchedule options rand k = Ok (commits, k') ->
    forall row col,
      Z.of_nat (List.length (MapperSpec.commitsOfCell row col commits))
      <= Scheduler.maxCommitsPerDayOf options.
Proof.
  intros options rand k k' commits Hcap H row col.
  apply mapPatternToSchedule_Ok in H.
  destruct H as (_ & _ & _ & l & Hloop & ->).
  unfold MapperSpec.commitsOfCell.
  rewrite (Permutation_length
             (filter_perm _ _ _ (sortBy_perm Scheduler.date l))).
  refine (rowLoop_capped options _ _ _ rand _ 0%nat [] k l k' _ Hloop row col).
  intros r c. split; [simpl; exact Hcap | reflexivity].
Qed.

Lemma mapPatternToSchedule_cell_cap_witness :
  Z.of_nat (List.length
              (MapperSpec.commitsOfCell 0 1
                 (MapperScenario.scheduleOf MapperScenario.twoDays))) <= 5.
Proof.
  assert (H : Scheduler.mapPatternToSchedule MapperScenario.twoDays MapperScenario.rnd 0%nat
              = Ok (MapperScenario.scheduleOf MapperScenario.twoDays, 14%nat))
    by (vm_compute; reflexivity).
  refine (mapPatternToSchedule_cell_cap _ _ _ _ _ _ H 0%nat 1%nat).
  vm_compute. discriminate.
Defined.

(** ** Dates: the holiday rule, the two adjustments, date ranges *)

Ltac split_ifs :=
  repeat match goal with
         | |- context [if ?b then _ else _] => destruct b eqn:?
         end.

Section CivilCalendar.
Import Calendar.

Lemma daysFromCivil_civilFromDays (n : Z) :
let '(y, m, d) := civilFromDays n in daysFromCivil y m d = n.
Proof.
unfold civilFromDays, daysFromCivil. cbv zeta.
(split_ifs; Z.div_mod_to_equations; lia).
Qed.

Lemma civilFromDays_range (n : Z) :
let '(y, m, d) := civilFromDays n in 1 <= m <= 12 /\ 1 <= d <= 31.
Proof.
unfold civilFromDays. cbv zeta.
(split_ifs; Z.div_mod_to_equations; lia).
Qed.

Lemma daysFromCivil_day (y m d : Z) :
daysFromCivil y m d = daysFromCivil y m 1 + (d - 1).
Proof. unfold daysFromCivil. cbv zeta. lia. Qed.

Lemma civilFromDays_may31 (y : Z) :
civilFromDays (daysFromCivil y 6 0) = (y, 5, 31).
Proof.
unfold civilFromDays, daysFromCivil. cbv zeta.
change (6 <=? 2) with false. change (6 >? 2) with true. cbv iota.
change ((153 * (6 - 3) + 2) / 5 + 0 - 1) with 91.
set (era := y / 400).
set (yoe := y - era * 400).
assert (Hyoe : 0 <= yoe < 400) by (subst yoe era; Z.div_mod_to_equations; lia).
set (doe := yoe * 365 + yoe / 4 - yoe / 100 + 91).
assert (Hdoe : 0 <= doe < 146097) by (subst doe; Z.div_mod_to_equations; lia).
replace (era * 146097 + doe - 719468 + 719468) with (doe + era * 146097) by lia.
rewrite Z.div_add by lia. rewrite (Z.div_small doe) by lia.
replace (doe + era * 146097 - (0 + era) * 146097) with doe by lia.
assert (Hy : (doe - doe / 1460 + doe / 36524 - doe / 146096) / 365 = yoe).
{ subst doe; Z.div_mod_to_equations; lia. }
rewrite Hy.
assert (Hdoy : doe - (365 * yoe + yoe / 4 - yoe / 100) = 91) by (subst doe; lia).
rewrite Hdoy.
change ((5 * 91 + 2) / 153) with 2.
change (2 <? 10) with true. cbv iota.
change (2 + 3 <=? 2) with false. cbv iota.
replace (yoe + (0 + era) * 400) with y by (subst yoe; lia).
reflexivity.
Qed.
End CivilCalendar.

Section DateFields.
Import Calendar DateCommands.

Lemma dayNumber_civil (t : Z) :
daysFromCivil (year t) (month t) (day t) = dayNumber t.
Proof.
unfold year, month, day.
pose proof (daysFromCivil_civilFromDays (dayNumber t)) as H.
destruct (civilFromDays (dayNumber t)) as [[y m] d]. exact H.
Qed.

Lemma month_day_range (t : Z) : 1 <= month t <= 12 /\ 1 <= day t <= 31.
Proof.
unfold month, day.
pose proof (civilFromDays_range (dayNumber t)) as H.
destruct (civilFromDays (dayNumber t)) as [[y m] d]. exact H.
Qed.

(** Day [n] of the month of [t], counted with roll-over. *)
Lemma daysFromCivil_same_month (t n : Z) :
daysFromCivil (year t) (month t) n = dayNumber t - day t + n.
Proof.
rewrite daysFromCivil_day, <- (dayNumber_civil t).
rewrite (daysFromCivil_day _ _ (day t)). lia.
Qed.

Lemma dayNumber_days (n r : Z) :
0 <= r < msPerDay -> dayNumber (n * msPerDay + r) = n /\ timeOfDay (n * msPerDay + r) = r.
Proof.
unfold dayNumber, timeOfDay, msPerDay. intros H.
split; Z.div_mod_to_equations; lia.
Qed.

Lemma getDay_newDate (y monthIndex d : Z) :
getDay (newDate y monthIndex d)
= (daysFromCivil (fullYear y) (monthIndex + 1) d + 4) mod 7.
Proof.
unfold getDay, dayOfWeek, newDate, dayNumber.
rewrite Z.div_mul by (unfold msPerDay; lia). reflexivity.
Qed.

Lemma getDate_newDate_may31 (y : Z) : getDate (newDate y 5 0) = 31.
Proof.
unfold getDate, day, newDate, dayNumber.
rewrite Z.div_mul by (unfold msPerDay; lia).
change (5 + 1) with 6. now rewrite civilFromDays_may31.
Qed.

Lemma daysFromCivil_may31 (y : Z) : daysFromCivil y 6 0 = daysFromCivil y 5 31.
Proof. unfold daysFromCivil. cbv zeta. reflexivity. Qed.

End DateFields.

(** X17. [isHoliday] is true exactly on: 1 January; in May the Sundays from
    the 25th on and the Mondays from the 26th on; 4 July; in September the
    Monday of the first seven days; in November the Thursday of the days
    20..26; 25 December.  The day of the week is the one of
    [new Date(year, month, day)], which is the day of the week of the date
    itself except in the years 0..99, read as 1900..1999.  So the last
    Sunday of May counts as a holiday, the Monday 25 May does not, and in a
    November that starts on a Friday or a Saturday the Thursday found is the
    third one (the fourth is the 27th or the 28th). *)
Theorem isHoliday_calendar_rule :
  forall date : Z,
    let weekday :=
      DateCommands.getDay
        (DateCommands.newDate (DateCommands.getFullYear date)
           (DateCommands.getMonth date) (DateCommands.getDate date)) in
    (DateCommands.isHoliday date = true <->
     (DateCommands.getMonth date = 0 /\ DateCommands.getDate date = 1)
     \/ (DateCommands.getMonth date = 4
         /\ ((weekday = 0 /\ 25 <= DateCommands.getDate date)
             \/ (weekday = 1 /\ 26 <= DateCommands.getDate date)))
     \/ (DateCommands.getMonth date = 6 /\ DateCommands.getDate date = 4)
     \/ (DateCommands.getMonth date = 8 /\ weekday = 1
         /\ DateCommands.getDate date <= 7)
     \/ (DateCommands.getMonth date = 10 /\ weekday = 4
         /\ 20 <= DateCommands.getDate date <= 26)
     \/ (DateCommands.getMonth date = 11 /\ DateCommands.getDate date = 25))
    /\ (~ 0 <= DateCommands.getFullYear date <= 99 ->
        weekday = DateCommands.getDay date).
Proof.
  intros date weekday. subst weekday. split.
  - unfold DateCommands.isHoliday. cbv zeta.
    rewrite !getDay_newDate, getDate_newDate_may31.
    change (5 + 1) with 6. change (4 + 1) with 5. change (8 + 1) with 9.
    change (10 + 1) with 11.
    rewrite daysFromCivil_may31.
    unfold DateCommands.getMonth, DateCommands.getDate, DateCommands.getFullYear.
    destruct (month_day_range date) as [Hm Hd].
    assert (Hsame : forall n,
               Calendar.daysFromCivil (DateCommands.fullYear (Calendar.year date))
                 (Calendar.month date) n
               = Calendar.daysFromCivil (DateCommands.fullYear (Calendar.year date))
                   (Calendar.month date) (Calendar.day date)
                 - Calendar.day date + n).
    { intros n. rewrite daysFromCivil_day.
      rewrite (daysFromCivil_day _ _ (Calendar.day date)). lia. }
    replace (Calendar.month date - 1 + 1) with (Calendar.month date) by lia.
    generalize dependent (Calendar.daysFromCivil
                            (DateCommands.fullYear (Calendar.year date))
                            (Calendar.month date) (Calendar.day date)).
    intros N Hsame.
    generalize dependent (Calendar.month date). intros m Hm Hsame.
    generalize dependent (Calendar.day date). intros d Hd Hsame.
    generalize dependent (DateCommands.fullYear (Calendar.year date)).
    intros Y Hsame.
    unfold JS.rem.
    assert (Hcases : m = 1 \/ m = 2 \/ m = 3 \/ m = 4 \/ m = 5 \/ m = 6 \/ m = 7
                     \/ m = 8 \/ m = 9 \/ m = 10 \/ m = 11 \/ m = 12) by lia.
    clear Hm.
    repeat (destruct Hcases as [-> | Hcases]); [.. | subst m].
    all: rewrite ?Hsame; clear Hsame.
    all: repeat match goal with
         | |- context [?a - 1 =? ?b] =>
             let v := eval vm_compute in (a - 1 =? b) in change (a - 1 =? b) with v
         end.
    all: cbn [andb].
    all: split_ifs.
    all: Z.to_euclidean_division_equations; lia.
  - intros Hyear. rewrite getDay_newDate.
    unfold DateCommands.fullYear, DateCommands.getFullYear, DateCommands.getMonth,
      DateCommands.getDate, DateCommands.getDay, Calendar.dayOfWeek in *.
    destruct (Z.leb_spec 0 (Calendar.year date));
      destruct (Z.leb_spec (Calendar.year date) 99); cbn [andb]; try lia.
    all: replace (Calendar.month date - 1 + 1) with (Calendar.month date) by lia.
    all: now rewrite dayNumber_civil.
Qed.

Lemma isHoliday_calendar_rule_witness :
  DateCommands.isHoliday DateScenarios.thirdThursday = true
  /\ DateCommands.isHoliday DateScenarios.fourthThursday = false
  /\ DateCommands.getDay DateScenarios.septemberOfYear50 = 0
  /\ DateCommands.isHoliday DateScenarios.septemberOfYear50 = true.
Proof.
  split; [| split; [| split]].
  - apply (proj1 (isHoliday_calendar_rule DateScenarios.thirdThursday)).
    do 4 right. left. vm_compute.
    split; [reflexivity |]. split; [reflexivity |]. split; discriminate.
  - apply not_true_is_false. intros H.
    apply (proj1 (isHoliday_calendar_rule DateScenarios.fourthThursday)) in H.
    vm_compute in H.
    repeat match goal with
           | H : _ \/ _ |- _ => destruct H as [H | H]
           | H : _ /\ _ |- _ => destruct H as [? H]
           end;
      try discriminate; try (apply H; reflexivity).
  - vm_compute. reflexivity.
  - apply (proj1 (isHoliday_calendar_rule DateScenarios.septemberOfYear50)).
    do 3 right. left. vm_compute.
    split; [reflexivity |]. split; [reflexivity |]. discriminate.
Defined.

Section CommandsAdjust.
Import Calendar DateCommands.

Lemma isHoliday_same_day (a b : Z) :
dayNumber a = dayNumber b -> isHoliday a = isHoliday b.
Proof.
intros H.
unfold isHoliday, getMonth, getDate, getFullYear, month, day, year.
rewrite H. reflexivity.
Qed.

Lemma timeOfDay_range (t : Z) : 0 <= timeOfDay t < msPerDay.
Proof. unfold timeOfDay, msPerDay. apply Z.mod_pos_bound. lia. Qed.

Lemma setDate_fields (t n : Z) :
dayNumber (setDate t n) = dayNumber t - day t + n
/\ timeOfDay (setDate t n) = timeOfDay t.
Proof.
unfold setDate. rewrite daysFromCivil_same_month.
apply dayNumber_days, timeOfDay_range.
Qed.

Lemma setHours_fields (t h m s : Z) :
0 <= h < 24 -> 0 <= m < 60 -> 0 <= s < 60 ->
dayNumber (setHours t h m s) = dayNumber t /\ hour (setHours t h m s) = h.
Proof.
intros Hh Hm Hs.
unfold setHours, hour, timeOfDay, dayNumber, millisecond,
  msPerDay, msPerHour, msPerMinute, msPerSecond.
split; Z.div_mod_to_equations; lia.
Qed.

Lemma getDay_next (a b : Z) (n : Z) :
dayNumber b = dayNumber a + n -> getDay b = (getDay a + n) mod 7.
Proof.
unfold getDay, dayOfWeek. intros ->.
Z.div_mod_to_equations; lia.
Qed.

Lemma isWeekend_iff (t : Z) :
isWeekend t = true <-> getDay t = 0 \/ getDay t = 6.
Proof.
unfold isWeekend. cbv zeta. rewrite orb_true_iff, !Z.eqb_eq. reflexivity.
Qed.

Lemma getDay_range (t : Z) : 0 <= getDay t < 7.
Proof. unfold getDay, dayOfWeek. apply Z.mod_pos_bound. lia. Qed.

(** Step 1 moves a weekend day to the nearest working day and keeps the
  clock time. *)
Lemma shiftWeekend_fields (options : DateAdjustmentOptions) (t : Z) :
timeOfDay (shiftWeekend options t) = timeOfDay t
/\ dayNumber (shiftWeekend options t)
   = dayNumber t
     + (if avoidWeekends options
        then (if getDay t =? 0 then 1 else if getDay t =? 6 then -1 else 0)
        else 0).
Proof.
unfold shiftWeekend, isWeekend. cbv zeta.
destruct (avoidWeekends options); cbn [andb].
- destruct (Z.eqb_spec (getDay t) 0) as [H0 | H0]; cbn [orb].
  + destruct (setDate_fields t (getDate t + 1)) as [Hd Ht].
    split; [exact Ht |]. rewrite Hd. unfold getDate. lia.
  + destruct (Z.eqb_spec (getDay t) 6) as [H6 | H6].
    * destruct (setDate_fields t (getDate t - 1)) as [Hd Ht].
      split; [exact Ht |]. rewrite Hd. unfold getDate. lia.
    * split; [reflexivity | lia].
- split; [reflexivity | lia].
Qed.

Lemma shiftWeekend_weekday (options : DateAdjustmentOptions) (t : Z) :
avoidWeekends options = true -> isWeekend (shiftWeekend options t) = false.
Proof.
intros Ha. destruct (shiftWeekend_fields options t) as [_ Hd].
rewrite Ha in Hd.
apply not_true_is_false. rewrite isWeekend_iff.
pose proof (getDay_next t _ _ Hd) as Hnext.
pose proof (getDay_range t) as Hr.
destruct (Z.eqb_spec (getDay t) 0) as [H0 | H0].
- rewrite H0 in Hnext. change ((0 + 1) mod 7) with 1 in Hnext. lia.
- destruct (Z.eqb_spec (getDay t) 6) as [H6 | H6].
  + rewrite H6 in Hnext. change ((6 + -1) mod 7) with 5 in Hnext. lia.
  + rewrite Z.add_0_r, Z.mod_small in Hnext by lia. lia.
Qed.

Section Hours.
Variable rand : nat -> Q.
Hypothesis rand_range : forall n, (0 <= rand n < 1)%Q.

Lemma round_unit (r : Q) : (0 <= r < 1)%Q -> 0 <= JS.round r <= 1.
Proof.
intros [H0 H1]. unfold JS.round. split.
- change 0 with (Qfloor 0). apply Qfloor_resp_le.
apply (Qle_trans _ (0 + (1 # 2))); [discriminate |].
apply Qplus_le_l. exact H0.
- apply Z.lt_succ_r. change (Z.succ 1) with (Qfloor 2).
rewrite Zlt_Qlt. eapply Qle_lt_trans; [apply Qfloor_le |].
change (inject_Z (Qfloor 2)) with (1 + 1)%Q.
apply Qplus_lt_le_compat; [exact H1 | discriminate].
Qed.

(** Step 2 keeps the calendar day; with [workHoursOnly] the hour of the
result is one of 9..17. *)
Lemma shiftHours_fields (options : DateAdjustmentOptions) (t : Z) (k : nat) :
dayNumber (fst (shiftHours options rand t k)) = dayNumber t
/\ (workHoursOnly options = true ->
  9 <= getHours (fst (shiftHours options rand t k)) <= 17)
/\ (workHoursOnly options = false -> fst (shiftHours options rand t k) = t).
Proof.
unfold shiftHours. cbv zeta.
assert (H45 : 0 <= JS.floor (rand k * 45) < 45)
by (apply (floor_scale (rand k) 45); [apply rand_range | lia]).
assert (H60 : 0 <= JS.floor (rand (S k) * 60) < 60)
by (apply (floor_scale (rand (S k)) 60); [apply rand_range | lia]).
pose proof (round_unit (rand k) (rand_range k)) as Hround.
destruct (workHoursOnly options); cbn [andb].
- destruct (isBusinessHours t) eqn:Hb; cbn [negb].
+ apply isBusinessHours_commands_iff in Hb.
  cbn [fst]. split; [reflexivity | split; [intros _; exact Hb | discriminate]].
+ assert (Hnb : ~ 9 <= getHours t <= 17)
    by (rewrite <- isBusinessHours_commands_iff, Hb; discriminate).
  destruct (Z.ltb_spec (getHours t) 9) as [H9 | H9]; cbn [fst].
  * destruct (setHours_fields t 9 (JS.floor (rand k * 45)) 0) as [Hd Hh];
      try lia.
    unfold getHours. rewrite Hd, Hh.
    split; [reflexivity | split; [lia | discriminate]].
  * destruct (Z.gtb_spec (getHours t) 17) as [H17 | H17]; [| lia].
    cbn [fst].
    destruct (setHours_fields t (16 + JS.round (rand k))
                (JS.floor (rand (S k) * 60)) 0) as [Hd Hh]; try lia.
    unfold getHours. rewrite Hd, Hh.
    split; [reflexivity | split; [lia | discriminate]].
- cbn [fst]. split; [reflexivity | split; [discriminate | reflexivity]].
Qed.


Lemma friday_holiday_trap (options : DateAdjustmentOptions) (f : Z) :
avoidWeekends options = true -> avoidHolidays options = true ->
isHoliday f = true -> getDay f = 5 ->
forall (fuel : nat) (date : Z) (k : nat),
dayNumber date = dayNumber f \/ dayNumber date = dayNumber f + 1 ->
adjustDateForAuthenticity fuel rand options date k = None.
Proof.
intros Ha Hh Hf H5.
induction fuel as [| fuel IH]; intros date k Hdate; [reflexivity |].
rewrite adjustDateForAuthenticity_step.
destruct (shiftWeekend_fields options date) as [_ Hw]. rewrite Ha in Hw.
assert (Hday : dayNumber (shiftWeekend options date) = dayNumber f).
{ destruct Hdate as [Hd | Hd].
- rewrite (getDay_next f date 0), H5 in Hw by lia.
  change ((5 + 0) mod 7 =? 0) with false in Hw.
  change ((5 + 0) mod 7 =? 6) with false in Hw. cbv iota in Hw. lia.
- rewrite (getDay_next f date 1), H5 in Hw by lia.
  change ((5 + 1) mod 7 =? 0) with false in Hw.
  change ((5 + 1) mod 7 =? 6) with true in Hw. cbv iota in Hw. lia. }
destruct (shiftHours_fields options (shiftWeekend options date) k) as [Hs _].
destruct (shiftHours options rand (shiftWeekend options date) k) as [b k'].
cbn [fst] in Hs.
rewrite Hh, (isHoliday_same_day b f) by congruence.
rewrite Hf. cbn [andb].
apply IH. right.
destruct (setDate_fields b (getDate b + 1)) as [Hd _].
rewrite Hd. unfold getDate. lia.
Qed.

End Hours.
End CommandsAdjust.

(** Without [avoidHolidays] a run is one pass through the two steps. *)
Lemma adjustDateForAuthenticity_once
    (rand : nat -> Q) (options : DateCommands.DateAdjustmentOptions)
    (date : Z) (fuel k : nat) :
  DateCommands.avoidHolidays options = false ->
  DateCommands.adjustDateForAuthenticity (S fuel) rand options date k
  = Some (DateCommands.shiftHours options rand
            (DateCommands.shiftWeekend options date) k).
Proof.
  intros Hh. rewrite adjustDateForAuthenticity_step.
  destruct (DateCommands.shiftHours options rand
              (DateCommands.shiftWeekend options date) k) as [t k'].
  rewrite Hh. reflexivity.
Qed.

(** The two steps together. *)
Lemma shifted_fields
    (rand : nat -> Q) (options : DateCommands.DateAdjustmentOptions)
    (date : Z) (k : nat) :
  (forall n, (0 <= rand n < 1)%Q) ->
  let t := fst (DateCommands.shiftHours options rand
                  (DateCommands.shiftWeekend options date) k) in
  (DateCommands.avoidWeekends options = true -> DateCommands.isWeekend t = false)
  /\ (DateCommands.workHoursOnly options = true ->
      9 <= DateCommands.getHours t <= 17)
  /\ Calendar.dayNumber t
     = Calendar.dayNumber date
       + (if DateCommands.avoidWeekends options
          then (if DateCommands.getDay date =? 0 then 1
                else if DateCommands.getDay date =? 6 then -1 else 0)
          else 0)
  /\ (DateCommands.workHoursOnly options = false ->
      Calendar.timeOfDay t = Calendar.timeOfDay date).
Proof.
  intros Hrand t. subst t.
  destruct (shiftWeekend_fields options date) as [Htime Hday].
  destruct (shiftHours_fields rand Hrand options
              (DateCommands.shiftWeekend options date) k) as (Hs & Hwork & Hkeep).
  split; [| split; [exact Hwork | split]].
  - intros Ha.
    pose proof (shiftWeekend_weekday options date Ha) as Hw.
    unfold DateCommands.isWeekend, DateCommands.getDay, Calendar.dayOfWeek in *.
    rewrite Hs. exact Hw.
  - rewrite Hs. exact Hday.
  - intros Hwh. rewrite (Hkeep Hwh). exact Htime.
Qed.

(** X18. Without [avoidHolidays], [adjustDateForAuthenticity] of
    [commands/date.ts] returns after one call (with [Math.random] in
    [0, 1)): with [avoidWeekends] the result is not on a weekend, a Sunday
    having moved to the Monday and a Saturday to the Friday, and otherwise
    the calendar day is kept; with [workHoursOnly] its hour is one of 9..17,
    and without it the clock time is kept. *)
Theorem adjustDateForAuthenticity_without_holidays :
  forall (rand : nat -> Q) (options : DateCommands.DateAdjustmentOptions)
         (date : Z) (fuel k : nat),
    (forall n, (0 <= rand n < 1)%Q) ->
    DateCommands.avoidHolidays options = false ->
    exists t k',
      DateCommands.adjustDateForAuthenticity (S fuel) rand options date k
      = Some (t, k')
      /\ (DateCommands.avoidWeekends options = true ->
          DateCommands.isWeekend t = false)
      /\ (DateCommands.workHoursOnly options = true ->
          9 <= DateCommands.getHours t <= 17)
      /\ Calendar.dayNumber t
         = Calendar.dayNumber date
           + (if DateCommands.avoidWeekends options
              then (if DateCommands.getDay date =? 0 then 1
                    else if DateCommands.getDay date =? 6 then -1 else 0)
              else 0)
      /\ (DateCommands.workHoursOnly options = false ->
          Calendar.timeOfDay t = Calendar.timeOfDay date).
Proof.
  intros rand options date fuel k Hrand Hh.
  rewrite (adjustDateForAuthenticity_once rand options date fuel k Hh).
  pose proof (shifted_fields rand options date k Hrand) as Hfields.
  destruct (DateCommands.shiftHours options rand
              (DateCommands.shiftWeekend options date) k) as [t k'].
  exists t, k'. split; [reflexivity | exact Hfields].
Qed.

Lemma adjustDateForAuthenticity_without_holidays_witness :
  exists t k',
    DateCommands.adjustDateForAuthenticity 1 MapperScenario.rnd
      DateScenarios.keepHolidays DateScenarios.sundayEvening 0%nat = Some (t, k')
    /\ DateCommands.isWeekend t = false
    /\ 9 <= DateCommands.getHours t <= 17
    /\ Calendar.dayNumber t = Calendar.dayNumber DateScenarios.sundayEvening + 1.
Proof.
  destruct (adjustDateForAuthenticity_without_holidays MapperScenario.rnd
              DateScenarios.keepHolidays DateScenarios.sundayEvening 0%nat 0%nat
              rnd_range eq_refl)
    as (t & k' & Hrun & Hweek & Hwork & Hday & _).
  exists t, k'. split; [exact Hrun |].
  split; [exact (Hweek eq_refl) |]. split; [exact (Hwork eq_refl) |].
  exact Hday.
Defined.

(** X19. With [avoidWeekends] and [avoidHolidays] (the defaults),
    [adjustDateForAuthenticity] of [commands/date.ts] does not return on any
    holiday that falls on a Friday, whatever [workHoursOnly] is: the holiday
    step moves to the Saturday, the recursive call moves the Saturday back
    to the Friday.  Whatever number of calls is allowed, the run needs
    more. *)
Theorem adjustDateForAuthenticity_diverges_on_every_friday_holiday :
  forall (rand : nat -> Q) (options : DateCommands.DateAdjustmentOptions)
         (date : Z),
    (forall n, (0 <= rand n < 1)%Q) ->
    DateCommands.avoidWeekends options = true ->
    DateCommands.avoidHolidays options = true ->
    DateCommands.getDay date = 5 ->
    DateCommands.isHoliday date = true ->
    forall (fuel k : nat),
      DateCommands.adjustDateForAuthenticity fuel rand options date k = None.
Proof.
  intros rand options date Hrand Ha Hh H5 Hhol fuel k.
  apply (friday_holiday_trap rand Hrand options date Ha Hh Hhol H5).
  left. reflexivity.
Qed.

Lemma adjustDateForAuthenticity_diverges_on_every_friday_holiday_witness :
  DateCommands.adjustDateForAuthenticity 100 MapperScenario.rnd
    DateCommands.defaultOptions DateScenarios.newYear 0%nat = None.
Proof.
  apply (adjustDateForAuthenticity_diverges_on_every_friday_holiday
           MapperScenario.rnd DateCommands.defaultOptions DateScenarios.newYear
           rnd_range eq_refl eq_refl);
    vm_compute; reflexivity.
Defined.

Section UtilsAdjust.
Import Calendar DateUtils DateUtilsAdjust.

Lemma setHourMinute_fields (dt h m : Z) :
0 <= h < 24 -> 0 <= m < 60 ->
dayNumber (setHourMinute dt h m) = dayNumber dt
/\ hour (setHourMinute dt h m) = h
/\ minute (setHourMinute dt h m) = m
/\ second (setHourMinute dt h m) = second dt
/\ millisecond (setHourMinute dt h m) = millisecond dt.
Proof.
intros Hh Hm.
unfold setHourMinute, hour, minute, second, millisecond, timeOfDay, dayNumber,
  msPerDay, msPerHour, msPerMinute, msPerSecond.
repeat split; Z.div_mod_to_equations; lia.
Qed.

Lemma weekday_next (a b n : Z) :
dayNumber b = dayNumber a + n -> weekday b = (weekday a - 1 + n) mod 7 + 1.
Proof.
unfold weekday. intros ->. Z.div_mod_to_equations; lia.
Qed.

Lemma weekday_range (t : Z) : 1 <= weekday t <= 7.
Proof. unfold weekday. Z.div_mod_to_equations; lia. Qed.

Lemma timeOfDay_plusDays (t n : Z) : timeOfDay (plusDays t n) = timeOfDay t.
Proof.
unfold timeOfDay, plusDays, msPerDay. now rewrite Z.mod_add by lia.
Qed.

Lemma offWeekend_fields (avoidWeekends : bool) (dt : Z) :
timeOfDay (offWeekend avoidWeekends dt) = timeOfDay dt
/\ dayNumber (offWeekend avoidWeekends dt)
   = dayNumber dt
     + (if avoidWeekends
        then (if weekday dt =? 6 then -1 else if weekday dt =? 7 then 1 else 0)
        else 0)
/\ (avoidWeekends = true -> isWeekend (offWeekend avoidWeekends dt) = false).
Proof.
pose proof (weekday_range dt) as Hr.
assert (Hboth : timeOfDay (offWeekend avoidWeekends dt) = timeOfDay dt
                /\ dayNumber (offWeekend avoidWeekends dt)
                   = dayNumber dt
                     + (if avoidWeekends
                        then (if weekday dt =? 6 then -1
                              else if weekday dt =? 7 then 1 else 0)
                        else 0)).
{ unfold offWeekend. destruct avoidWeekends; cbn [andb].
  - destruct (Z.geb_spec (weekday dt) 6) as [H6 | H6].
    + destruct (Z.eqb_spec (weekday dt) 6) as [Heq | Hne].
      * rewrite timeOfDay_plusDays, dayNumber_plusDays. split; reflexivity.
      * destruct (Z.eqb_spec (weekday dt) 7) as [_ | H7]; [| lia].
        rewrite timeOfDay_plusDays, dayNumber_plusDays. split; reflexivity.
    + destruct (Z.eqb_spec (weekday dt) 6) as [Heq | _]; [lia |].
      destruct (Z.eqb_spec (weekday dt) 7) as [Heq | _]; [lia |].
      split; [reflexivity | lia].
  - split; [reflexivity | lia]. }
destruct Hboth as [Ht Hd]. split; [exact Ht | split; [exact Hd |]].
intros ->.
pose proof (weekday_next dt _ _ Hd) as Hnext.
unfold isWeekend. rewrite Z.geb_leb. apply Z.leb_gt. rewrite Hnext.
destruct (Z.eqb_spec (weekday dt) 6) as [H6 | H6];
  [| destruct (Z.eqb_spec (weekday dt) 7) as [H7 | H7]];
  Z.div_mod_to_equations; lia.
Qed.

Section Random.
Variable rand : nat -> Q.
Hypothesis rand_range : forall n, (0 <= rand n < 1)%Q.

Lemma adjustDateForAuthenticity_eval (dt : Z) (avoidWeekends workHoursOnly : bool)
(k : nat) :
adjustDateForAuthenticity (Some dt) avoidWeekends workHoursOnly rand k =
let adjusted := offWeekend avoidWeekends dt in
if workHoursOnly then
if hour adjusted <? 9 then
  Ok (setHourMinute adjusted (9 + JS.floor (rand k * 2))
        (JS.floor (rand (S k) * 60)), S (S k))
else if hour adjusted >=? 17 then
  Ok (setHourMinute adjusted (14 + JS.floor (rand k * 3))
        (JS.floor (rand (S k) * 60)), S (S k))
else Ok (adjusted, k)
else Ok (adjusted, k).
Proof.
unfold adjustDateForAuthenticity. cbv zeta.
destruct workHoursOnly; [| reflexivity].
destruct (hour (offWeekend avoidWeekends dt) <? 9); [reflexivity |].
destruct (hour (offWeekend avoidWeekends dt) >=? 17); reflexivity.
Qed.

End Random.
End UtilsAdjust.

(** X20. [adjustDateForAuthenticity] of [utils/date-utils.ts] always
    returns (with [Math.random] in [0, 1)): with [avoidWeekends] the result
    is not on a weekend, a Saturday having moved to the Friday and a Sunday
    to the Monday; with [workHoursOnly] it is inside the business hours
    9..16 of [isBusinessHours]; the seconds and the milliseconds are kept,
    and the clock time too when it needs no change. *)
Theorem adjustDateForAuthenticity_utils_working_time :
  forall (rand : nat -> Q) (date : Z) (avoidWeekends workHoursOnly : bool)
         (k : nat),
    (forall n, (0 <= rand n < 1)%Q) ->
    exists t k',
      DateUtilsAdjust.adjustDateForAuthenticity (Some date) avoidWeekends
        workHoursOnly rand k = Ok (t, k')
      /\ (avoidWeekends = true -> DateUtils.isWeekend t = false)
      /\ (workHoursOnly = true -> DateUtils.isBusinessHours t = true)
      /\ Calendar.dayNumber t
         = Calendar.dayNumber date
           + (if avoidWeekends
              then (if DateUtils.weekday date =? 6 then -1
                    else if DateUtils.weekday date =? 7 then 1 else 0)
              else 0)
      /\ Calendar.second t = Calendar.second date
      /\ Calendar.millisecond t = Calendar.millisecond date
      /\ (workHoursOnly = false \/ 9 <= Calendar.hour date < 17 ->
          Calendar.timeOfDay t = Calendar.timeOfDay date).
Proof.
  intros rand date avoidWeekends workHoursOnly k Hrand.
  rewrite adjustDateForAuthenticity_eval. cbv zeta.
  destruct (offWeekend_fields avoidWeekends date) as (Htime & Hday & Hweek).
  set (adjusted := DateUtilsAdjust.offWeekend avoidWeekends date) in *.
  assert (Hhour : Calendar.hour adjusted = Calendar.hour date)
    by (unfold Calendar.hour; now rewrite Htime).
  assert (Hsec : Calendar.second adjusted = Calendar.second date)
    by (unfold Calendar.second; now rewrite Htime).
  assert (Hms : Calendar.millisecond adjusted = Calendar.millisecond date).
  { unfold Calendar.millisecond, Calendar.timeOfDay, Calendar.msPerDay,
      Calendar.msPerSecond in *. Z.div_mod_to_equations; lia. }
  assert (Hsame : forall t,
             Calendar.dayNumber t = Calendar.dayNumber adjusted ->
             avoidWeekends = true -> DateUtils.isWeekend t = false).
  { intros t Ht Ha. specialize (Hweek Ha).
    unfold DateUtils.isWeekend, DateUtils.weekday in *. now rewrite Ht. }
  assert (H2 : 0 <= JS.floor (rand k * 2) < 2)
    by (apply (floor_scale (rand k) 2); [apply Hrand | lia]).
  assert (H3 : 0 <= JS.floor (rand k * 3) < 3)
    by (apply (floor_scale (rand k) 3); [apply Hrand | lia]).
  assert (H60 : 0 <= JS.floor (rand (S k) * 60) < 60)
    by (apply (floor_scale (rand (S k)) 60); [apply Hrand | lia]).
  assert (Hplain :
            exists t k',
              Ok (adjusted, k) = Ok (t, k')
              /\ (avoidWeekends = true -> DateUtils.isWeekend t = false)
              /\ Calendar.dayNumber t = Calendar.dayNumber adjusted
              /\ Calendar.second t = Calendar.second date
              /\ Calendar.millisecond t = Calendar.millisecond date
              /\ Calendar.timeOfDay t = Calendar.timeOfDay date
              /\ Calendar.hour t = Calendar.hour date).
  { exists adjusted, k. repeat split; auto. }
  destruct workHoursOnly.
  - destruct (Z.ltb_spec (Calendar.hour adjusted) 9) as [H9 | H9].
    + destruct (setHourMinute_fields adjusted (9 + JS.floor (rand k * 2))
                  (JS.floor (rand (S k) * 60)))
        as (Hd & Hh & _ & Hs & Hm); try lia.
      eexists _, _. split; [reflexivity |].
      split; [apply Hsame; exact Hd |].
      split; [intros _; apply isBusinessHours_utils_iff; lia |].
      split; [congruence |]. split; [congruence |]. split; [congruence |].
      intros [Hf | Hin]; [discriminate | lia].
    + destruct (Z.geb_spec (Calendar.hour adjusted) 17) as [H17 | H17].
      * destruct (setHourMinute_fields adjusted (14 + JS.floor (rand k * 3))
                    (JS.floor (rand (S k) * 60)))
          as (Hd & Hh & _ & Hs & Hm); try lia.
        eexists _, _. split; [reflexivity |].
        split; [apply Hsame; exact Hd |].
        split; [intros _; apply isBusinessHours_utils_iff; lia |].
        split; [congruence |]. split; [congruence |]. split; [congruence |].
        intros [Hf | Hin]; [discriminate | lia].
      * destruct Hplain as (t & k' & Heq & Hw & Hd & Hs & Hm & Ht & Hh).
        exists t, k'. split; [exact Heq |]. split; [exact Hw |].
        split; [intros _; apply isBusinessHours_utils_iff; lia |].
        split; [congruence |]. split; [exact Hs |]. split; [exact Hm |].
        intros _. exact Ht.
  - destruct Hplain as (t & k' & Heq & Hw & Hd & Hs & Hm & Ht & Hh).
    exists t, k'. split; [exact Heq |]. split; [exact Hw |].
    split; [discriminate |].
    split; [congruence |]. split; [exact Hs |]. split; [exact Hm |].
    intros _. exact Ht.
Qed.

Lemma adjustDateForAuthenticity_utils_working_time_witness :
  exists t k',
    DateUtilsAdjust.adjustDateForAuthenticity (Some DateScenarios.sundayEvening)
      true true MapperScenario.rnd 0%nat = Ok (t, k')
    /\ DateUtils.isWeekend t = false
    /\ DateUtils.isBusinessHours t = true
    /\ Calendar.dayNumber t = Calendar.dayNumber DateScenarios.sundayEvening + 1.
Proof.
  destruct (adjustDateForAuthenticity_utils_working_time MapperScenario.rnd
              DateScenarios.sundayEvening true true 0%nat rnd_range)
    as (t & k' & Hrun & Hweek & Hwork & Hday & _).
  exists t, k'. split; [exact Hrun |].
  split; [exact (Hweek eq_refl) |]. split; [exact (Hwork eq_refl) |].
  exact Hday.
Defined.

Section DateRange.
Import Calendar DateUtilsAdjust.

Lemma pushDays_spec (n : nat) (startDt : Z) : forall (i : Z) (dates : list Z),
pushDays n startDt i dates
= (dates ++ map (fun j => plusDays startDt (i + Z.of_nat j)) (seq 0 n))%list.
Proof.
induction n as [| n IH]; intros i dates; cbn [pushDays seq map].
- now rewrite app_nil_r.
- rewrite IH, <- app_assoc. cbn [app]. rewrite Z.add_0_r.
  f_equal. f_equal. rewrite <- seq_shift, map_map.
  apply map_ext. intros j. f_equal. lia.
Qed.

(** The rounded-up number of days from [start] to [end_]. *)
Lemma ceil_days (a : Z) :
a <= JS.ceil (inject_Z a / inject_Z msPerDay) * msPerDay < a + msPerDay.
Proof.
change (JS.ceil (inject_Z a / inject_Z msPerDay))
  with (- (- (a * 1) / 86400000)).
unfold msPerDay. Z.div_mod_to_equations; lia.
Qed.
End DateRange.

(** X21. [createDateRange] returns no date when [end] is a day or more
    before [start]; otherwise it returns [start], [start] + 1 day, ... up to
    the first of these that is not before [end]: the last date is less than a
    day after [end], and is [end] itself only when the two are whole days
    apart.  An [end] less than a day before [start] gives [[start]]. *)
Theorem createDateRange_covers :
  forall (start end_ : Z),
    (end_ <= start - Calendar.msPerDay ->
     DateUtilsAdjust.createDateRange start end_ = [])
    /\ (start - Calendar.msPerDay < end_ ->
        exists n : nat,
          DateUtilsAdjust.createDateRange start end_
          = map (fun i => Calendar.plusDays start (Z.of_nat i)) (seq 0 (S n))
          /\ end_ <= Calendar.plusDays start (Z.of_nat n)
             < end_ + Calendar.msPerDay).
Proof.
  intros start end_.
  unfold DateUtilsAdjust.createDateRange. cbv zeta.
  rewrite pushDays_spec. cbn [app].
  pose proof (ceil_days (end_ - start)) as Hceil.
  set (days := JS.ceil _) in *.
  unfold Calendar.plusDays, Calendar.msPerDay in *.
  split; intros H.
  - replace (Z.to_nat (days + 1)) with 0%nat by lia. reflexivity.
  - exists (Z.to_nat days).
    replace (Z.to_nat (days + 1)) with (S (Z.to_nat days)) by lia.
    split; [reflexivity |].
    rewrite Z2Nat.id by lia. lia.
Qed.

Lemma createDateRange_covers_witness :
  exists n : nat,
    DateUtilsAdjust.createDateRange DateScenarios.sundayEvening
      DateScenarios.thirdThursday
    = map (fun i => Calendar.plusDays DateScenarios.sundayEvening (Z.of_nat i))
        (seq 0 (S n))
    /\ DateScenarios.thirdThursday
       <= Calendar.plusDays DateScenarios.sundayEvening (Z.of_nat n)
       < DateScenarios.thirdThursday + Calendar.msPerDay.
Proof.
  apply (proj2 (createDateRange_covers DateScenarios.sundayEvening
                  DateScenarios.thirdThursday)).
  vm_compute. reflexivity.
Defined.

Section AuthenticCommitDates.
Import Calendar DateCommands AuthenticDates.

Variable rand : nat -> Q.
Hypothesis rand_range : forall n, (0 <= rand n < 1)%Q.
Variable options : DateAdjustmentOptions.
Hypothesis keep_holidays : avoidHolidays options = false.
Variables (startDate dateRange : Z).
Hypothesis range_positive : 0 < dateRange.

Lemma newDateOfNumber_between (a b : Z) (q : Q) :
(inject_Z a <= q)%Q -> (q <= inject_Z b)%Q -> a <= newDateOfNumber q <= b.
Proof.
intros Ha Hb.
pose proof (Qfloor_resp_le _ _ Ha) as Hfa. rewrite Qfloor_Z in Hfa.
pose proof (Qceiling_resp_le _ _ Hb) as Hcb. rewrite Qceiling_Z in Hcb.
pose proof (Qle_floor_ceiling q) as Hfc. rewrite <- Zle_Qle in Hfc.
unfold newDateOfNumber, JS.floor, JS.ceil.
destruct (JS.Qleb 0 q); lia.
Qed.

Lemma randomDate_between (k : nat) :
startDate
<= newDateOfNumber (inject_Z startDate + rand k * inject_Z dateRange)
<= startDate + dateRange.
Proof.
destruct (rand_range k) as [H0 H1].
assert (Hr : (0 <= inject_Z dateRange)%Q)
  by (rewrite <- (Zle_Qle 0); lia).
apply newDateOfNumber_between.
- rewrite <- (Qplus_0_r (inject_Z startDate)) at 1.
  apply Qplus_le_r. now apply Qmult_le_0_compat.
- rewrite inject_Z_plus. apply Qplus_le_r.
  rewrite <- (Qmult_1_l (inject_Z dateRange)) at 2.
  apply Qmult_le_compat_r; [now apply Qlt_le_weak | exact Hr].
Qed.

Lemma dayNumber_mono (a b : Z) : a <= b -> dayNumber a <= dayNumber b.
Proof. unfold dayNumber, msPerDay. intros H. Z.div_mod_to_equations; lia. Qed.

Lemma commitDatesLoop_spec (fuel n : nat) : forall (dates : list Z) (k : nat),
Forall (AuthenticDatesSpec.adjustedWithin options startDate
          (startDate + dateRange)) dates ->
exists res k',
  commitDatesLoop n (S fuel) rand options startDate dateRange dates k
  = Some (res, k')
  /\ List.length res = (List.length dates + n)%nat
  /\ Forall (AuthenticDatesSpec.adjustedWithin options startDate
               (startDate + dateRange)) res.
Proof.
induction n as [| n IH]; intros dates k Hdates.
- exists dates, k. split; [reflexivity |]. split; [lia | exact Hdates].
- cbn [commitDatesLoop]. cbv zeta.
  pose proof (randomDate_between k) as Hbetween.
  set (randomDate :=
         newDateOfNumber (inject_Z startDate + rand k * inject_Z dateRange)) in *.
  rewrite (adjustDateForAuthenticity_once rand options randomDate fuel (S k)
             keep_holidays).
  destruct (shifted_fields rand options randomDate (S k) rand_range)
    as (Hweek & Hwork & Hday & _).
  destruct (shiftHours options rand (shiftWeekend options randomDate) (S k))
    as [t k1].
  cbn [fst] in Hweek, Hwork, Hday.
  destruct (IH (dates ++ [t])%list k1) as (res & k' & Hrun & Hlen & Hres).
  { apply Forall_app. split; [exact Hdates |].
    constructor; [| constructor].
    split; [exact Hweek | split; [exact Hwork |]].
    pose proof (dayNumber_mono _ _ (proj1 Hbetween)) as Hlo.
    pose proof (dayNumber_mono _ _ (proj2 Hbetween)) as Hhi.
    rewrite Hday.
    destruct (avoidWeekends options); [| lia].
    destruct (getDay randomDate =? 0); [lia |].
    destruct (getDay randomDate =? 6); lia. }
  exists res, k'. split; [exact Hrun |]. split; [| exact Hres].
  rewrite Hlen, length_app. cbn [List.length]. lia.
Qed.
End AuthenticCommitDates.

(** X22. [generateAuthenticCommitDates] returns the empty list for a
    [numCommits] of zero or less, before it looks at the dates; otherwise it
    throws when [endDate] is not after [startDate]; otherwise, without
    [avoidHolidays] (and with [Math.random] in [0, 1)), it returns exactly
    [numCommits] dates in ascending order, each on a working day when
    [avoidWeekends], at an hour of 9..17 when [workHoursOnly], and at most
    one calendar day before the day of [startDate] or after the day of
    [endDate]. *)
Theorem generateAuthenticCommitDates_without_holidays :
  forall (rand : nat -> Q) (options : DateCommands.DateAdjustmentOptions)
         (numCommits startDate endDate : Z) (fuel k : nat),
    (forall n, (0 <= rand n < 1)%Q) ->
    DateCommands.avoidHolidays options = false ->
    (numCommits <= 0 ->
     AuthenticDates.generateAuthenticCommitDates fuel rand numCommits
       startDate endDate options k = Some (Ok ([], k)))
    /\ (0 < numCommits -> endDate <= startDate ->
        AuthenticDates.generateAuthenticCommitDates fuel rand numCommits
          startDate endDate options k
        = Some (Err "End date must be after start date"))
    /\ (0 < numCommits -> startDate < endDate ->
        exists dates k',
          AuthenticDates.generateAuthenticCommitDates (S fuel) rand numCommits
            startDate endDate options k = Some (Ok (dates, k'))
          /\ Z.of_nat (List.length dates) = numCommits
          /\ Sorted Z.le dates
          /\ Forall (AuthenticDatesSpec.adjustedWithin options startDate endDate)
               dates).
Proof.
  intros rand options numCommits startDate endDate fuel k Hrand Hh.
  unfold AuthenticDates.generateAuthenticCommitDates. cbv zeta.
  split; [| split].
  - intros Hn. destruct (Z.leb_spec numCommits 0); [reflexivity | lia].
  - intros Hn Hrange.
    destruct (Z.leb_spec numCommits 0); [lia |].
    destruct (Z.leb_spec (endDate - startDate) 0); [reflexivity | lia].
  - intros Hn Hrange.
    destruct (Z.leb_spec numCommits 0); [lia |].
    destruct (Z.leb_spec (endDate - startDate) 0); [lia |].
    destruct (commitDatesLoop_spec rand Hrand options Hh startDate
                (endDate - startDate) ltac:(lia) fuel (Z.to_nat numCommits) [] k
                (Forall_nil _))
      as (res & k' & -> & Hlen & Hres).
    replace (startDate + (endDate - startDate)) with endDate in Hres by lia.
    exists (DateUtils.sortBy (fun t => t) res), k'.
    split; [reflexivity |]. split; [| split].
    + rewrite (Permutation_length (sortBy_perm _ res)), Hlen.
      cbn [List.length]. lia.
    + apply (sortBy_sorted (fun t : Z => t)).
    + apply (Permutation_Forall (Permutation_sym (sortBy_perm _ res))).
      exact Hres.
Qed.

Lemma generateAuthenticCommitDates_without_holidays_witness :
  exists dates k',
    AuthenticDates.generateAuthenticCommitDates 1 MapperScenario.rnd 3
      DateScenarios.thirdThursday DateScenarios.fourthThursday
      DateScenarios.keepHolidays 0%nat = Some (Ok (dates, k'))
    /\ Z.of_nat (List.length dates) = 3
    /\ Sorted Z.le dates
    /\ Forall (AuthenticDatesSpec.adjustedWithin DateScenarios.keepHolidays
                 DateScenarios.thirdThursday DateScenarios.fourthThursday) dates.
Proof.
  apply (proj2 (proj2 (generateAuthenticCommitDates_without_holidays
                         MapperScenario.rnd DateScenarios.keepHolidays 3
                         DateScenarios.thirdThursday DateScenarios.fourthThursday
                         0%nat 0%nat rnd_range eq_refl)));
    vm_compute; reflexivity.
Defined.
